(** * ardump: a shallow embedding of [ardump.c]

    [ardump] prints the table of contents of a BSD [ar] archive that has been
    mapped into memory.  The C code walks the mapping with raw pointers and
    calls a handful of libc routines ([strncmp], [atoi], [strtoll], [memcpy],
    [printf]).  This file embeds that code function by function:

    - the mapped file is a list of bytes placed at some address [base];
      pointers are addresses (in [Z]) and every dereference goes through
      [load8], which tells whether the address lies in the mapping;
    - what the program does is an [outcome] (normal return, [fatal], a read
      outside of the mapping, or a loop that is still running) together with
      the trace of what it wrote on standard output;
    - the libc routines are modelled after their documented behaviour, on the
      bytes they read from the mapping;
    - where a statement is about what the process does after a read outside
      of the file, the file is placed in a larger memory, with bytes before
      and after it ([scan_in_memory]), and only a read outside of that memory
      stops the run.

    Platform assumptions (the tool includes Mach-O headers): LP64, 8-bit
    [char], [int] on 32 bits, [size_t], [long] and [long long] on 64 bits,
    two's complement conversions, [atoi] behaving as [(int)strtol(s, NULL, 10)].
    Pointer arithmetic is done on unbounded addresses, except where the code
    adds a [size_t] that can be as large as 2^64 ([size_t_displacement]): C
    gives no meaning to a pointer outside of its object, and the model
    reports the first dereference that leaves the mapping. *)

From Stdlib Require Import ZArith List Ascii String Bool Lia.
From Stdlib Require Import DecimalString HexadecimalString.
Import ListNotations.
Local Open Scope string_scope.
Local Open Scope Z_scope.

(** ** Bytes and C strings *)

Definition byte_val (c : ascii) : Z := Z.of_N (N_of_ascii c).

Definition is_nul (c : ascii) : bool := byte_val c =? 0.

Definition nl : string := String "010" "".

(** [isspace] and [isdigit] in the C locale. *)
Definition isspace (c : ascii) : bool :=
  (byte_val c =? 32) || ((9 <=? byte_val c) && (byte_val c <=? 13)).

Definition isdigit (c : ascii) : bool :=
  (48 <=? byte_val c) && (byte_val c <=? 57).

Definition digit_val (c : ascii) : Z := byte_val c - 48.

(** ** Constants of the system headers

    [<ar.h>], [<mach-o/fat.h>] and [<mach-o/ranlib.h>] are not part of the
    repository; their values are those of the platform headers. *)

Definition ARMAG : string := "!<arch>" ++ nl.
Definition SARMAG : Z := 8.
Definition ARFMAG : string := "`" ++ nl.
Definition AR_EFMT1 : string := "#1/".
Definition SYMDEF : string := "__.SYMDEF".
Definition SYMDEF_SORTED : string := "__.SYMDEF SORTED".
Definition FAT_MAGIC : Z := 0xcafebabe.
Definition FAT_CIGAM : Z := 0xbebafeca.

(** [struct ar_hdr]: seven character arrays, 60 bytes, no padding. *)
Definition sizeof_ar_name : Z := 16.
Definition sizeof_ar_date : Z := 12.
Definition sizeof_ar_uid : Z := 6.
Definition sizeof_ar_gid : Z := 6.
Definition sizeof_ar_mode : Z := 8.
Definition sizeof_ar_size : Z := 10.
Definition sizeof_ar_fmag : Z := 2.
Definition off_ar_name : Z := 0.
Definition off_ar_date : Z := 16.
Definition off_ar_uid : Z := 28.
Definition off_ar_gid : Z := 34.
Definition off_ar_mode : Z := 40.
Definition off_ar_size : Z := 48.
Definition off_ar_fmag : Z := 58.
Definition sizeof_ar_hdr : Z := 60.

(** [struct ranlib]: [ran_un.ran_strx] then [ran_off], two [uint32_t]. *)
Definition sizeof_ranlib : Z := 8.
Definition off_ran_strx : Z := 0.
Definition off_ran_off : Z := 4.
Definition sizeof_uint32 : Z := 4.

(** ** Integer conversions *)

Definition LONG_MAX : Z := 2 ^ 63 - 1.
Definition LONG_MIN : Z := - 2 ^ 63.

Definition clamp_long (z : Z) : Z := Z.max LONG_MIN (Z.min LONG_MAX z).

(** Conversion to [int] and to [size_t]. *)
Definition to_int (z : Z) : Z := (z + 2 ^ 31) mod 2 ^ 32 - 2 ^ 31.
Definition to_size_t (z : Z) : Z := z mod 2 ^ 64.

(** [(char * )p + n] for a [size_t] [n]: the processor adds the two on 64
    bits.  A mapping lies in the lower half of the address space, so the sum
    is [p + n] when [n] is below 2^63, and wraps to [p + n - 2^64] when [n] is
    above (a negative [int] converted to [size_t]); where it does not wrap,
    both [p + n] and [p + n - 2^64] are outside of the mapping.  The address
    is [p] plus this displacement. *)
Definition size_t_displacement (n : Z) : Z := (n + 2 ^ 63) mod 2 ^ 64 - 2 ^ 63.

Inductive endian : Type := LittleEndian | BigEndian.

Definition uint32_of_bytes (host : endian) (b0 b1 b2 b3 : ascii) : Z :=
  match host with
  | LittleEndian =>
      byte_val b0 + 2 ^ 8 * byte_val b1 + 2 ^ 16 * byte_val b2 + 2 ^ 24 * byte_val b3
  | BigEndian =>
      byte_val b3 + 2 ^ 8 * byte_val b2 + 2 ^ 16 * byte_val b1 + 2 ^ 24 * byte_val b0
  end.

(** ** Outcomes and traces *)

Inductive outcome (A : Type) : Type :=
| Done (a : A)
    (** the function returns [a] *)
| Fatal (msg : string)
    (** [fatal]: the message goes to [stderr] and the process exits with 1 *)
| ReadsOutside (off : Z)
    (** the code reads the byte at file offset [off], which is not in the
        mapping; the C code performs the access and its behaviour is
        undefined from there on *)
| OutOfFuel.
    (** the [while] loop of [dump] is still running *)

Arguments Done {A} a.
Arguments Fatal {A} msg.
Arguments ReadsOutside {A} off.
Arguments OutOfFuel {A}.

Definition obind {A B : Type} (o : outcome A) (k : A -> outcome B) : outcome B :=
  match o with
  | Done a => k a
  | Fatal m => Fatal m
  | ReadsOutside off => ReadsOutside off
  | OutOfFuel => OutOfFuel
  end.

(** What a run leaves behind: the text given to [printf], and (as
    instrumentation of the model) each entry into [dump_symdefs], with the
    file offset of the header and the [offset] argument it was called on. *)
Inductive event : Type :=
| Stdout (s : string)
| Enters_dump_symdefs (header_off : Z) (offset : Z).

Definition run (A : Type) : Type := (list event * outcome A)%type.

Definition ret {A : Type} (a : A) : run A := ([], Done a).

Definition lift {A : Type} (o : outcome A) : run A := ([], o).

Definition rbind {A B : Type} (r : run A) (k : A -> run B) : run B :=
  match r with
  | (t, Done a) => let (t', o) := k a in ((t ++ t')%list, o)
  | (t, Fatal m) => (t, Fatal m)
  | (t, ReadsOutside off) => (t, ReadsOutside off)
  | (t, OutOfFuel) => (t, OutOfFuel)
  end.

Definition printf (s : string) : run unit := ([Stdout s], Done tt).

Definition fatal {A : Type} (msg : string) : run A := ([], Fatal msg).

Definition emit (e : event) : run unit := ([e], Done tt).

Arguments rbind {A B} r k : simpl never.
Arguments lift {A} o : simpl never.
Arguments ret {A} a : simpl never.
Arguments printf s : simpl never.
Arguments emit e : simpl never.
Arguments fatal {A} msg : simpl never.

Declare Scope outcome_scope.
Delimit Scope outcome_scope with outcome.
Declare Scope run_scope.
Delimit Scope run_scope with run.

Notation "x <- c1 ;; c2" := (obind c1 (fun x => c2))
  (at level 61, c1 at next level, right associativity) : outcome_scope.
Notation "' pat <- c1 ;; c2" := (obind c1 (fun x => match x with pat => c2 end))
  (at level 61, pat pattern, c1 at next level, right associativity) : outcome_scope.
Notation "x <- c1 ;; c2" := (rbind c1 (fun x => c2))
  (at level 61, c1 at next level, right associativity) : run_scope.
Notation "' pat <- c1 ;; c2" := (rbind c1 (fun x => match x with pat => c2 end))
  (at level 61, pat pattern, c1 at next level, right associativity) : run_scope.
Notation "c1 ;; c2" := (rbind c1 (fun _ => c2))
  (at level 61, right associativity) : run_scope.

Bind Scope outcome_scope with outcome.
Bind Scope run_scope with run.

(** The text written on standard output during a run. *)
Fixpoint stdout_of (t : list event) : string :=
  match t with
  | [] => ""
  | Stdout s :: t' => s ++ stdout_of t'
  | Enters_dump_symdefs _ _ :: t' => stdout_of t'
  end.

Definition fat_msg : string := "Fat archives are not supported by this tool." ++ nl.
Definition not_ar_msg : string := "File does not start with '" ++ ARMAG ++ "'." ++ nl.
Definition fmag_msg : string := "unexpected ar_fmag" ++ nl.

(** ** Scanning functions of libc, on the bytes that follow a pointer

    Each takes the bytes from the pointer to the end of the mapping and
    answers [None] when it would go on reading after the last of them. *)

(** [strtol]/[strtoll] in base 10: white space, an optional sign, digits. *)
Fixpoint scan_digits (l : list ascii) (acc : Z) : option Z :=
  match l with
  | [] => None
  | c :: l' => if isdigit c then scan_digits l' (10 * acc + digit_val c) else Some acc
  end.

Definition scan_sign (l : list ascii) : option Z :=
  match l with
  | [] => None
  | c :: l' =>
      if byte_val c =? 45 then option_map Z.opp (scan_digits l' 0)
      else if byte_val c =? 43 then scan_digits l' 0
      else scan_digits l 0
  end.

Fixpoint scan_number (l : list ascii) : option Z :=
  match l with
  | [] => None
  | c :: l' => if isspace c then scan_number l' else scan_sign l
  end.

Definition strtol_scan (l : list ascii) : option Z :=
  option_map clamp_long (scan_number l).

(** [printf("%s", p)]: the bytes up to the first NUL. *)
Fixpoint scan_cstring (l : list ascii) : option string :=
  match l with
  | [] => None
  | c :: l' => if is_nul c then Some "" else option_map (String c) (scan_cstring l')
  end.

(** The loop of [printn] and [mprintn]: [for (i = 0; i < n && str[i]; ++i)].
    The boolean tells whether the loop ended inside the mapping. *)
Fixpoint scan_printn (l : list ascii) (n : Z) : string * bool :=
  if n <=? 0 then ("", true)
  else
    match l with
    | [] => ("", false)
    | c :: l' =>
        if is_nul c then ("", true)
        else let (s, ok) := scan_printn l' (n - 1) in (String c s, ok)
    end.

(** A buffer of [name_len] bytes closed by a NUL, as [%s] prints it. *)
Fixpoint until_nul (l : list ascii) : string :=
  match l with
  | [] => ""
  | c :: l' => if is_nul c then "" else String c (until_nul l')
  end.

Definition string_of_Z (z : Z) : string :=
  DecimalString.NilZero.string_of_uint (N.to_uint (Z.to_N z)).

Definition hex_of_Z (z : Z) : string :=
  HexadecimalString.NilZero.string_of_uint (N.to_hex_uint (Z.to_N z)).

(** * The program *)

Section Program.

(** Byte order of the processor, the global [g_verbose], the bytes of the
    mapped file and the address at which [mmap] placed them. *)
Variable host : endian.
Variable g_verbose : bool.
Variable buf : list ascii.
Variable base : Z.

Definition buf_len : Z := Z.of_nat (List.length buf).

(** ** Memory reads *)

(** [*(char * )p] *)
Definition load8 (p : Z) : outcome ascii :=
  let off := p - base in
  if 0 <=? off then
    match nth_error buf (Z.to_nat off) with
    | Some c => Done c
    | None => ReadsOutside off
    end
  else ReadsOutside off.

(** [*(uint32_t * )p], in the byte order of the host. *)
Definition load32 (p : Z) : outcome Z :=
  (b0 <- load8 p ;;
   b1 <- load8 (p + 1) ;;
   b2 <- load8 (p + 2) ;;
   b3 <- load8 (p + 3) ;;
   Done (uint32_of_bytes host b0 b1 b2 b3))%outcome.

(** The bytes from [p] to the end of the mapping. *)
Definition tail_from (p : Z) : outcome (list ascii) :=
  let off := p - base in
  if (0 <=? off) && (off <=? buf_len) then Done (skipn (Z.to_nat off) buf)
  else ReadsOutside off.

(** A libc routine that reads on from [p] until it has seen enough. *)
Definition scan_at {A : Type} (f : list ascii -> option A) (p : Z) : outcome A :=
  (l <- tail_from p ;;
   match f l with
   | Some a => Done a
   | None => ReadsOutside buf_len
   end)%outcome.

(** [memcpy(dst, p, n)]: the [n] bytes copied. *)
Definition memcpy (p : Z) (n : Z) : outcome (list ascii) :=
  if n <=? 0 then Done []
  else
    (l <- tail_from p ;;
     if n <=? Z.of_nat (List.length l) then Done (firstn (Z.to_nat n) l)
     else ReadsOutside buf_len)%outcome.

(** [strncmp(p, lit, n)] against a string literal: the difference of the
    first two bytes that differ, 0 when [n] bytes agree or both strings end. *)
Fixpoint strncmp (p : Z) (lit : string) (n : Z) : outcome Z :=
  if n <=? 0 then Done 0
  else
    (c1 <- load8 p ;;
     match lit with
     | EmptyString => Done (byte_val c1)
     | String c2 lit' =>
         if byte_val c1 =? byte_val c2 then
           if is_nul c1 then Done 0 else strncmp (p + 1) lit' (n - 1)
         else Done (byte_val c1 - byte_val c2)
     end)%outcome.

(** [atoi(p)] *)
Definition atoi (p : Z) : outcome Z :=
  (z <- scan_at strtol_scan p ;; Done (to_int z))%outcome.

(** [strtoll(buf, NULL, 10)] on a local array closed by a NUL. *)
Definition strtoll_local (field : list ascii) : Z :=
  match strtol_scan (field ++ [Ascii.zero])%list with
  | Some z => z
  | None => 0
  end.

(** ** [arobj_name] *)

(** [for (int i = 0; header->ar_name[i] && i < sizeof(header->ar_name); ++i)
      ++*out_len;]
    with [left] = [sizeof(header->ar_name) - i], [p] = [&header->ar_name[i]]
    and [len] = [*out_len]. *)
Fixpoint arobj_name_loop (left : nat) (p : Z) (len : Z) : outcome Z :=
  (c <- load8 p ;;
   if is_nul c then Done len
   else
     match left with
     | O => Done len
     | S left' => arobj_name_loop left' (p + 1) (len + 1)
     end)%outcome.

(** Returns [(is_bsd_name, *out_name, *out_len)]. *)
Definition arobj_name (header : Z) : outcome (bool * Z * Z) :=
  (r <- strncmp (header + off_ar_name) AR_EFMT1 3 ;;
   if negb (r =? 0) then
     len <- arobj_name_loop (Z.to_nat sizeof_ar_name) (header + off_ar_name) 0 ;;
     Done (false, header + off_ar_name, len)
   else
     n <- atoi (header + off_ar_name + 3) ;;
     Done (true, header + sizeof_ar_hdr, to_size_t n))%outcome.

(** ** Printing *)

(** [printn(str, n)] *)
Definition printn (str : Z) (n : Z) : run unit :=
  if n <=? 0 then ret tt
  else
    match tail_from str with
    | Done l =>
        let (s, ok) := scan_printn l n in
        ([Stdout s], if ok then Done tt else ReadsOutside buf_len)
    | Fatal m => ([], Fatal m)
    | ReadsOutside off => ([], ReadsOutside off)
    | OutOfFuel => ([], OutOfFuel)
    end.

(** [mprintn(m, str, n)] *)
Definition mprintn (m : string) (str : Z) (n : Z) : run unit :=
  (printf m ;; printn str n ;; printf nl)%run.

(** ** [dump_obj] *)

Definition dump_obj (header : Z) : run unit :=
  ('(is_bsd_name, name, name_len) <- lift (arobj_name header) ;;
   printf "ar_name: " ;;
   printn name (to_int name_len) ;;
   (if is_bsd_name : bool then printf " (extended BSD name)" else ret tt) ;;
   printf nl ;;
   mprintn "ar_date: " (header + off_ar_date) sizeof_ar_date ;;
   mprintn "ar_uid: " (header + off_ar_uid) sizeof_ar_uid ;;
   mprintn "ar_gid: " (header + off_ar_gid) sizeof_ar_gid ;;
   mprintn "ar_mode: " (header + off_ar_mode) sizeof_ar_mode ;;
   mprintn "ar_size: " (header + off_ar_size) sizeof_ar_size ;;
   mprintn "ar_fmag: " (header + off_ar_fmag) sizeof_ar_fmag ;;
   r <- lift (strncmp (header + off_ar_fmag) ARFMAG 2) ;;
   if negb (r =? 0) then fatal fmag_msg else ret tt)%run.

(** ** [arobj_size] *)

Definition arobj_size (header : Z) : outcome Z :=
  (field <- memcpy (header + off_ar_size) sizeof_ar_size ;;
   Done (strtoll_local field + sizeof_ar_hdr))%outcome.

(** ** [dump_symdefs] *)

(** The body of the [for] loop, [n] entries from [ranlib] on. *)
Fixpoint dump_symdefs_loop (n : nat) (ranlib strtab file_start : Z) : run unit :=
  match n with
  | O => ret tt
  | S n' =>
      (ran_off <- lift (load32 (ranlib + off_ran_off)) ;;
       '(_, name, name_len) <- lift (arobj_name (file_start + ran_off)) ;;
       name_zero <- lift (memcpy name name_len) ;;
       ran_strx <- lift (load32 (ranlib + off_ran_strx)) ;;
       sym <- lift (scan_at scan_cstring (strtab + ran_strx)) ;;
       (if g_verbose then
          printf ("ran_strx 0x" ++ hex_of_Z ran_strx ++ ": " ++ sym
                  ++ ", ran_off 0x" ++ hex_of_Z ran_off ++ ": "
                  ++ until_nul name_zero ++ nl)
        else
          printf (sym ++ " " ++ until_nul name_zero ++ nl)) ;;
       dump_symdefs_loop n' (ranlib + sizeof_ranlib) strtab file_start)%run
  end.

Definition dump_symdefs (header : Z) (offset : Z) (file_start : Z) : run unit :=
  (emit (Enters_dump_symdefs (header - file_start) offset) ;;
   let data := header + sizeof_ar_hdr + size_t_displacement offset in
   ranlib_len <- lift (load32 data) ;;
   let nranlibs := ranlib_len / sizeof_ranlib in
   let ranlib := data + sizeof_uint32 in
   (if g_verbose then printf (string_of_Z nranlibs ++ " ranlibs" ++ nl) else ret tt) ;;
   let data' := data + (ranlib_len + sizeof_uint32) in
   strtab_len <- lift (load32 data') ;;
   let strtab := data' + sizeof_uint32 in
   dump_symdefs_loop (Z.to_nat nranlibs) ranlib strtab file_start)%run.

(** ** [dump] *)

(** [!strncmp(name, SYMDEF, name_len) || !strncmp(name, SYMDEF_SORTED, name_len)] *)
Definition is_symdef_name (name : Z) (name_len : Z) : outcome bool :=
  (r1 <- strncmp name SYMDEF name_len ;;
   if r1 =? 0 then Done true
   else
     r2 <- strncmp name SYMDEF_SORTED name_len ;;
     Done (r2 =? 0))%outcome.

(** One turn of the [while] loop; returns the new value of [contents]. *)
Definition dump_member (contents : Z) (file_start : Z) : run Z :=
  (let header := contents in
   (if g_verbose then dump_obj header else ret tt) ;;
   '(is_bsd_name, name, name_len) <- lift (arobj_name header) ;;
   is_index <- lift (is_symdef_name name name_len) ;;
   (if is_index : bool then
      dump_symdefs header (if is_bsd_name : bool then name_len else 0) file_start
    else ret tt) ;;
   size <- lift (arobj_size header) ;;
   ret (contents + size))%run.

(** [while (contents < contents_end) { ... }]: [fuel] bounds the number of
    turns the model follows. *)
Fixpoint dump_loop (fuel : nat) (contents contents_end file_start : Z) : run unit :=
  if contents <? contents_end then
    match fuel with
    | O => ([], OutOfFuel)
    | S fuel' =>
        (next <- dump_member contents file_start ;;
         dump_loop fuel' next contents_end file_start)%run
    end
  else ret tt.

Definition dump (fuel : nat) (contents contents_end : Z) : run unit :=
  (let file_start := contents in
   r <- lift (strncmp contents ARMAG SARMAG) ;;
   (if negb (r =? 0) then
      v <- lift (load32 contents) ;;
      (if (v =? FAT_MAGIC) || (v =? FAT_CIGAM) then fatal fat_msg else ret tt) ;;
      fatal not_ar_msg
    else ret tt) ;;
   dump_loop fuel (contents + SARMAG) contents_end file_start)%run.

(** [main] maps the file and calls [dump(ar_contents, ar_contents +
    in_stat.st_size)]. *)
Definition scan (fuel : nat) : run unit := dump fuel base (base + buf_len).

End Program.

(** * Sample archives *)

Definition bytes (s : string) : list ascii := list_ascii_of_string s.

(** [s] on [n] bytes, filled up with [fill]. *)
Definition field (fill : ascii) (n : nat) (s : string) : list ascii :=
  firstn n (bytes s ++ repeat fill n).

(** A member header the way [ar] writes one: fields padded with spaces. *)
Definition header_of (name size fmag : string) : list ascii :=
  (field " " 16 name ++ field " " 12 "0" ++ field " " 6 "0" ++ field " " 6 "0"
   ++ field " " 8 "100644" ++ field " " 10 size ++ field " " 2 fmag)%list.

Definition zeros (n : nat) : list ascii := repeat Ascii.zero n.

(** The four bytes of a [uint32_t] on a little-endian host. *)
Definition le32 (z : Z) : list ascii :=
  map (fun k => ascii_of_N (Z.to_N ((z / 2 ^ (8 * k)) mod 256))) [0; 1; 2; 3].


(** ** Vocabulary of the statements *)

Definition INT_MAX : Z := 2 ^ 31 - 1.

(** The value of a run of decimal digits. *)
Definition decimal (ds : list ascii) : Z :=
  fold_left (fun acc d => 10 * acc + digit_val d) ds 0.

(** The name field of the header at [header] begins with [AR_EFMT1]. *)
Definition begins_with_marker (buf : list ascii) (base header : Z) : Prop :=
  load8 buf base header = Done "#"%char /\
  load8 buf base (header + 1) = Done "1"%char /\
  load8 buf base (header + 2) = Done "/"%char.

(** A member whose name field announces a name of 99 bytes after the header,
    in a buffer that ends with the header. *)
Definition long_name_promised : list ascii :=
  (bytes ARMAG ++ header_of "#1/99" "99" ARFMAG)%list.

(** A symbol index under its extended name (20 bytes), with one entry that
    sends [_foo] to the member at offset 112, and that member, [foo.o]. *)
Definition indexed_archive : list ascii :=
  (bytes ARMAG
   ++ header_of "#1/20" "44" ARFMAG ++ bytes SYMDEF_SORTED ++ zeros 4
   ++ le32 8 ++ le32 0 ++ le32 112 ++ le32 8 ++ bytes "_foo" ++ zeros 4
   ++ header_of "foo.o" "3" ARFMAG ++ bytes "abc")%list.

(** A member with a short direct name. *)
Definition plain_member : list ascii :=
  (bytes ARMAG ++ header_of "hello.o" "3" ARFMAG ++ bytes "abc")%list.

(** Two members: the terminator of the first is [zz] instead of [ARFMAG];
    the second is an empty symbol index. *)
Definition bad_fmag : list ascii :=
  (bytes ARMAG ++ header_of "x.o" "0" "zz"
   ++ header_of SYMDEF_SORTED "8" ARFMAG ++ zeros 8)%list.

(** The bytes of [FAT_MAGIC] as a big-endian [uint32_t]: the first four
    bytes of a universal binary.  [FAT_CIGAM] is the same bytes reversed. *)
Definition fat_magic_bytes : list ascii :=
  map (fun z => ascii_of_N (Z.to_N z)) [0xca; 0xfe; 0xba; 0xbe].

(** The run has ended, in whatever way. *)
Definition finished {A : Type} (o : outcome A) : Prop :=
  match o with
  | OutOfFuel => False
  | _ => True
  end.

(** Every header that can be read at some offset of [buf] has a total size
    ([arobj_size]) above 0. *)
Definition advances (buf : list ascii) : bool :=
  forallb
    (fun k =>
       match arobj_size buf 0 (Z.of_nat k) with
       | Done size => 0 <? size
       | _ => true
       end)
    (seq 0 (List.length buf)).

(** One member whose size field reads [-60]. *)
Definition minus_sixty : list ascii :=
  (bytes ARMAG ++ header_of "x.o" "-60" ARFMAG)%list.

(** One member with the extended name [_], one byte long, followed by an
    8-byte payload of zeros. *)
Definition underscore_member : list ascii :=
  (bytes ARMAG ++ header_of "#1/1" "9" ARFMAG ++ bytes "_" ++ zeros 8)%list.

(** One member whose name field begins with a NUL, with an 8-byte payload of
    zeros. *)
Definition nameless_member : list ascii :=
  (bytes ARMAG ++ zeros 16 ++ skipn 16 (header_of "" "8" ARFMAG) ++ zeros 8)%list.

(** One member whose name field is the marker and nothing else, with an
    8-byte payload of zeros. *)
Definition marker_only_member : list ascii :=
  (bytes ARMAG ++ header_of "#1/" "8" ARFMAG ++ zeros 8)%list.



(** An outcome of code that only reads: it returns, or it has read outside
    of a buffer of [len] bytes. *)
Definition reads_only {A : Type} (len : Z) (o : outcome A) : Prop :=
  match o with
  | Done _ => True
  | ReadsOutside off => off < 0 \/ len <= off
  | Fatal _ => False
  | OutOfFuel => False
  end.

(** One member whose name field announces a length of -5. *)
Definition negative_length_member : list ascii :=
  (bytes ARMAG ++ header_of "#1/-5" "0" ARFMAG)%list.

(** A string literal has no NUL before its end. *)
Definition no_nul (lit : string) : Prop :=
  Forall (fun c => is_nul c = false) (list_ascii_of_string lit).

(** The number of [Stdout] events of a trace: in [dump_symdefs], where every
    event is one call to [printf], the number of lines printed. *)
Fixpoint count_stdout (t : list event) : nat :=
  match t with
  | [] => O
  | Stdout _ :: t' => S (count_stdout t')
  | Enters_dump_symdefs _ _ :: t' => count_stdout t'
  end.

(** ** Archives put together from members *)

(** The bytes of a member: the name field, the date, owner, group and mode
    fields, the size field as digits and padding, the terminator, and the
    payload. *)
Record member : Type := {
  m_name : list ascii;
  m_middle : list ascii;
  m_digits : list ascii;
  m_pad : list ascii;
  m_fmag : list ascii;
  m_payload : list ascii
}.

Definition encode_member (m : member) : list ascii :=
  (m_name m ++ m_middle m ++ m_digits m ++ m_pad m ++ m_fmag m ++ m_payload m)%list.

(** The fields have the widths of [struct ar_hdr]; the name begins with a
    byte that is not NUL, [#] or [_]; the size field holds decimal digits
    followed by padding. *)
Definition plain_header (m : member) : Prop :=
  List.length (m_name m) = 16%nat /\
  (exists c rest, m_name m = c :: rest /\
                  is_nul c = false /\ c <> "#"%char /\ c <> "_"%char) /\
  List.length (m_middle m) = 32%nat /\
  m_digits m <> [] /\
  Forall (fun d => isdigit d = true) (m_digits m) /\
  (forall c pad', m_pad m = c :: pad' -> isdigit c = false) /\
  List.length (m_digits m ++ m_pad m) = 10%nat /\
  List.length (m_fmag m) = 2%nat.

(** The same, and the size field writes the length of the payload. *)
Definition plain_named (m : member) : Prop :=
  List.length (m_name m) = 16%nat /\
  (exists c rest, m_name m = c :: rest /\
                  is_nul c = false /\ c <> "#"%char /\ c <> "_"%char) /\
  List.length (m_middle m) = 32%nat /\
  m_digits m <> [] /\
  Forall (fun d => isdigit d = true) (m_digits m) /\
  (forall c pad', m_pad m = c :: pad' -> isdigit c = false) /\
  List.length (m_digits m ++ m_pad m) = 10%nat /\
  List.length (m_fmag m) = 2%nat /\
  decimal (m_digits m) = Z.of_nat (List.length (m_payload m)).

(** The magic, then the members one after the other, with no padding. *)
Definition archive_of (ms : list member) : list ascii :=
  (bytes ARMAG ++ List.concat (map encode_member ms))%list.

(** A header that announces 1000 bytes, followed by 3. *)
Definition cut_member : member :=
  {| m_name := field " " 16 "big.o";
     m_middle := (field " " 12 "0" ++ field " " 6 "0" ++ field " " 6 "0"
                  ++ field " " 8 "100644")%list;
     m_digits := bytes "1000";
     m_pad := repeat " "%char 6;
     m_fmag := bytes ARFMAG;
     m_payload := bytes "abc" |}.

Definition hello_member : member :=
  {| m_name := field " " 16 "hello.o";
     m_middle := (field " " 12 "0" ++ field " " 6 "0" ++ field " " 6 "0"
                  ++ field " " 8 "100644")%list;
     m_digits := bytes "3";
     m_pad := repeat " "%char 9;
     m_fmag := bytes ARFMAG;
     m_payload := bytes "abc" |}.

(** ** Symbol indexes put together from entries *)

(** The four bytes of a [uint32_t] in the byte order of [host]. *)
Definition enc32 (host : endian) (z : Z) : list ascii :=
  match host with
  | LittleEndian => le32 z
  | BigEndian => rev (le32 z)
  end.

(** [struct ranlib] *)
Record ranlib : Type := { ran_strx : Z; ran_off : Z }.

Definition encode_ranlib (host : endian) (e : ranlib) : list ascii :=
  (enc32 host (ran_strx e) ++ enc32 host (ran_off e))%list.

(** The payload of an index member: the length of the array in bytes, the
    array, the length of the string table, the string table. *)
Definition encode_index (host : endian) (es : list ranlib) (strtab : list ascii)
  : list ascii :=
  (enc32 host (sizeof_ranlib * Z.of_nat (List.length es))
   ++ List.concat (map (encode_ranlib host) es)
   ++ enc32 host (Z.of_nat (List.length strtab))
   ++ strtab)%list.

(** The string that starts at offset [strx] of the string table. *)
Definition symbol_at (strtab : list ascii) (strx : Z) : option string :=
  scan_cstring (skipn (Z.to_nat strx) strtab).

(** The name of the member whose header is at [p], as the decoder copies it
    and [%s] prints it. *)
Definition owner_name (buf : list ascii) (base p : Z) : option string :=
  match arobj_name buf base p with
  | Done (_, name, name_len) =>
      match memcpy buf base name name_len with
      | Done name_zero => Some (until_nul name_zero)
      | _ => None
      end
  | _ => None
  end.

Definition or_empty (o : option string) : string :=
  match o with
  | Some s => s
  | None => ""
  end.

(** The line of an entry, in the two formats of [dump_symdefs]. *)
Definition entry_line (v : bool) (buf : list ascii) (base file_start : Z)
    (strtab : list ascii) (e : ranlib) : string :=
  let sym := or_empty (symbol_at strtab (ran_strx e)) in
  let name := or_empty (owner_name buf base (file_start + ran_off e)) in
  if v then
    "ran_strx 0x" ++ hex_of_Z (ran_strx e) ++ ": " ++ sym
    ++ ", ran_off 0x" ++ hex_of_Z (ran_off e) ++ ": " ++ name ++ nl
  else sym ++ " " ++ name ++ nl.

(** The two fields of the entry fit in a [uint32_t], its string is in the
    table up to its NUL, and the member it names can be resolved. *)
Definition entry_ok (buf : list ascii) (base file_start : Z) (strtab : list ascii)
    (e : ranlib) : Prop :=
  0 <= ran_strx e < 2 ^ 32 /\
  0 <= ran_off e < 2 ^ 32 /\
  symbol_at strtab (ran_strx e) <> None /\
  owner_name buf base (file_start + ran_off e) <> None.

(** An index member: the name field is [SYMDEF_SORTED], which fills it, the
    other fields are as in a plain header, and the payload is an index. *)
Definition index_member (host : endian) (m : member) (es : list ranlib)
    (strtab : list ascii) : Prop :=
  m_name m = bytes SYMDEF_SORTED /\
  List.length (m_middle m) = 32%nat /\
  m_digits m <> [] /\
  Forall (fun d => isdigit d = true) (m_digits m) /\
  (forall c pad', m_pad m = c :: pad' -> isdigit c = false) /\
  List.length (m_digits m ++ m_pad m) = 10%nat /\
  List.length (m_fmag m) = 2%nat /\
  m_payload m = encode_index host es strtab /\
  decimal (m_digits m) = Z.of_nat (List.length (m_payload m)).

(** An index with one entry, which sends [_foo] to the member at offset 92. *)
Definition foo_index : member :=
  {| m_name := bytes SYMDEF_SORTED;
     m_middle := (field " " 12 "0" ++ field " " 6 "0" ++ field " " 6 "0"
                  ++ field " " 8 "100644")%list;
     m_digits := bytes "24";
     m_pad := repeat " "%char 8;
     m_fmag := bytes ARFMAG;
     m_payload := encode_index LittleEndian [{| ran_strx := 0; ran_off := 92 |}]
                    (bytes "_foo" ++ zeros 4) |}.

(** ** Runs on a buffer and on the memory around it *)

(** [o2] is what [o1] is, unless [o1] is a read outside of the buffer. *)
Definition unless_outside {A : Type} (o1 o2 : outcome A) : Prop :=
  match o1 with
  | ReadsOutside _ => True
  | _ => o1 = o2
  end.


(** [main]'s call of [dump] on the file mapped at [base], seen in the memory
    of the process: the bytes [before] lie right before the mapping and the
    bytes [beyond] right after the last byte of the file (the rest of the last
    page, which [mmap] fills with zeros, and whatever is mapped next).  A
    read outside of these bytes is a read of an address that is not mapped. *)
Definition scan_in_memory (host : endian) (v : bool)
    (before file beyond : list ascii) (base : Z) (fuel : nat) : run unit :=
  dump host v (before ++ file ++ beyond)%list
    (base - Z.of_nat (List.length before)) fuel base (base + buf_len file).

(** The walk of the loop of [dump] over the member headers, from the header
    at offset [off] on and for at most [turns] headers: every header the walk
    comes to before the end of the file has its size field inside the file and
    a total size above 0. *)
Fixpoint walk_advances (buf : list ascii) (turns : nat) (off : Z) : bool :=
  if off <? buf_len buf then
    match turns with
    | O => false
    | S turns' =>
        match arobj_size buf 0 off with
        | Done size => (0 <? size) && walk_advances buf turns' (off + size)
        | _ => false
        end
    end
  else true.

(** One member whose payload is the text of a negative size. *)
Definition minus_sixty_payload : member :=
  {| m_name := field " " 16 "neg.o";
     m_middle := (field " " 12 "0" ++ field " " 6 "0" ++ field " " 6 "0"
                  ++ field " " 8 "100644")%list;
     m_digits := bytes "10";
     m_pad := repeat " "%char 8;
     m_fmag := bytes ARFMAG;
     m_payload := field " " 10 "-60" |}.


(** The calls of [dump_symdefs] of a trace: offset of the header and
    [offset] argument of each. *)
Fixpoint decoder_entries (t : list event) : list (Z * Z) :=
  match t with
  | [] => []
  | Stdout _ :: t' => decoder_entries t'
  | Enters_dump_symdefs header_off offset :: t' =>
      (header_off, offset) :: decoder_entries t'
  end.

(** [nameless_member] with the terminator [zz] instead of [ARFMAG]. *)
Definition nameless_bad_fmag : list ascii :=
  (bytes ARMAG ++ zeros 16 ++ skipn 16 (header_of "" "8" "zz") ++ zeros 8)%list.

(** One member whose name field announces a length of -5 and whose header
    ends with zeros from the third byte of the size field on, followed by 10
    bytes: 78 bytes. *)
Definition negative_length_index : list ascii :=
  (bytes ARMAG ++ firstn 48 (header_of "#1/-5" "10" ARFMAG) ++ bytes "10"
   ++ zeros 10 ++ bytes SYMDEF ++ zeros 1)%list.

(** A trace made of the traces of calls of [dump_symdefs] without
    [g_verbose], one after the other: nothing in it comes from elsewhere. *)
Definition decoder_traces (host : endian) (buf : list ascii) (base file_start : Z)
    (t : list event) : Prop :=
  exists calls : list (Z * Z),
    t = List.concat
          (map (fun c => fst (dump_symdefs host false buf base (fst c) (snd c)
                                file_start))
             calls).

(** * Facts on outcomes and runs *)

Lemma obind_Done_inv {A B : Type} (o : outcome A) (k : A -> outcome B) (b : B) :
  obind o k = Done b -> exists a, o = Done a /\ k a = Done b.
Proof.
  destruct o as [a | m | off | ]; simpl; intros H; try discriminate.
  exists a; split; [reflexivity | exact H].
Qed.

Lemma snd_rbind {A B : Type} (r : run A) (k : A -> run B) :
  snd (rbind r k) = obind (snd r) (fun a => snd (k a)).
Proof.
  destruct r as [t [a | m | off | ]]; unfold rbind; simpl; try reflexivity.
  destruct (k a); reflexivity.
Qed.

Lemma fst_rbind {A B : Type} (r : run A) (k : A -> run B) :
  fst (rbind r k) =
  (fst r ++ match snd r with Done a => fst (k a) | _ => [] end)%list.
Proof.
  destruct r as [t [a | m | off | ]]; unfold rbind; simpl;
    try (rewrite app_nil_r; reflexivity).
  destruct (k a); reflexivity.
Qed.

Lemma rbind_lift_Done {A B : Type} (o : outcome A) (a : A) (k : A -> run B) :
  o = Done a -> rbind (lift o) k = k a.
Proof.
  intros ->. unfold lift, rbind; simpl. destruct (k a); reflexivity.
Qed.

Lemma rbind_ret {A B : Type} (a : A) (k : A -> run B) :
  rbind (ret a) k = k a.
Proof.
  unfold ret, rbind; simpl. destruct (k a); reflexivity.
Qed.

Lemma reads_only_bind {A B : Type} (len : Z) (o : outcome A) (k : A -> outcome B) :
  reads_only len o -> (forall a, o = Done a -> reads_only len (k a)) ->
  reads_only len (obind o k).
Proof.
  destruct o as [a | m | off | ]; simpl; intros Ho Hk; auto.
Qed.

Section ReadFacts.

Variable buf : list ascii.
Variable base : Z.

Local Abbreviation len := (buf_len buf).


Lemma load8_inside (p : Z) :
  0 <= p - base < len -> exists c, load8 buf base p = Done c.
Proof.
  intros H. unfold load8.
  destruct (0 <=? p - base) eqn:Hlo; [ | apply Z.leb_gt in Hlo; lia].
  destruct (nth_error buf (Z.to_nat (p - base))) as [c | ] eqn:Hn.
  - exists c; reflexivity.
  - apply nth_error_None in Hn. unfold buf_len in H. lia.
Qed.

Lemma load8_reads_only (p : Z) : reads_only len (load8 buf base p).
Proof.
  unfold load8. destruct (0 <=? p - base) eqn:Hlo.
  - destruct (nth_error buf (Z.to_nat (p - base))) eqn:Hn; simpl; auto.
    apply nth_error_None in Hn. apply Z.leb_le in Hlo.
    right. unfold buf_len. lia.
  - simpl. apply Z.leb_gt in Hlo. left; lia.
Qed.

Lemma load32_reads_only (host : endian) (p : Z) :
  reads_only len (load32 host buf base p).
Proof.
  unfold load32.
  repeat (apply reads_only_bind; [apply load8_reads_only | intros ? _]).
  exact I.
Qed.


Lemma tail_from_reads_only (p : Z) : reads_only len (tail_from buf base p).
Proof.
  unfold tail_from.
  destruct ((0 <=? p - base) && (p - base <=? buf_len buf)) eqn:H; simpl; auto.
  apply andb_false_iff in H as [H | H].
  - apply Z.leb_gt in H. left; lia.
  - apply Z.leb_gt in H. right. lia.
Qed.

Lemma scan_at_reads_only {A : Type} (f : list ascii -> option A) (p : Z) :
  reads_only len (scan_at buf base f p).
Proof.
  unfold scan_at. apply reads_only_bind; [apply tail_from_reads_only | ].
  intros l _. destruct (f l); simpl; auto. right. lia.
Qed.

Lemma memcpy_reads_only (p n : Z) : reads_only len (memcpy buf base p n).
Proof.
  unfold memcpy. destruct (n <=? 0); [exact I | ].
  apply reads_only_bind; [apply tail_from_reads_only | ].
  intros l _. destruct (n <=? Z.of_nat (List.length l)); simpl; auto.
  right. lia.
Qed.

Lemma strncmp_reads_only (lit : string) :
  forall p n, reads_only len (strncmp buf base p lit n).
Proof.
  induction lit as [ | c2 lit IH]; intros p n; simpl.
  - destruct (n <=? 0); [exact I | ].
    apply reads_only_bind; [apply load8_reads_only | intros; exact I].
  - destruct (n <=? 0); [exact I | ].
    apply reads_only_bind; [apply load8_reads_only | ].
    intros c1 _. destruct (byte_val c1 =? byte_val c2); [ | exact I].
    destruct (is_nul c1); [exact I | apply IH].
Qed.

Lemma atoi_reads_only (p : Z) : reads_only len (atoi buf base p).
Proof.
  unfold atoi. apply reads_only_bind; [apply scan_at_reads_only | intros; exact I].
Qed.

Lemma arobj_name_loop_reads_only (left : nat) :
  forall p n, reads_only len (arobj_name_loop buf base left p n).
Proof.
  induction left as [ | left IH]; intros p n; simpl;
    (apply reads_only_bind; [apply load8_reads_only | ]);
    intros c _; destruct (is_nul c); try exact I.
  apply IH.
Qed.

Lemma arobj_name_reads_only (header : Z) :
  reads_only len (arobj_name buf base header).
Proof.
  unfold arobj_name. apply reads_only_bind; [apply strncmp_reads_only | ].
  intros r _. destruct (negb (r =? 0)).
  - apply reads_only_bind; [apply arobj_name_loop_reads_only | intros; exact I].
  - apply reads_only_bind; [apply atoi_reads_only | intros; exact I].
Qed.

Lemma arobj_size_reads_only (header : Z) :
  reads_only len (arobj_size buf base header).
Proof.
  unfold arobj_size. apply reads_only_bind; [apply memcpy_reads_only | intros; exact I].
Qed.

Lemma is_symdef_name_reads_only (name name_len : Z) :
  reads_only len (is_symdef_name buf base name name_len).
Proof.
  unfold is_symdef_name. apply reads_only_bind; [apply strncmp_reads_only | ].
  intros r1 _. destruct (r1 =? 0); [exact I | ].
  apply reads_only_bind; [apply strncmp_reads_only | intros; exact I].
Qed.

End ReadFacts.

Lemma reads_only_rbind {A B : Type} (len : Z) (r : run A) (k : A -> run B) :
  reads_only len (snd r) ->
  (forall a, snd r = Done a -> reads_only len (snd (k a))) ->
  reads_only len (snd (rbind r k)).
Proof.
  intros Hr Hk. rewrite snd_rbind. apply reads_only_bind; assumption.
Qed.

Lemma printf_reads_only (len : Z) (s : string) : reads_only len (snd (printf s)).
Proof. exact I. Qed.

Create HintDb reads.

#[local] Hint Resolve load8_reads_only load32_reads_only scan_at_reads_only
  memcpy_reads_only strncmp_reads_only atoi_reads_only arobj_name_reads_only
  arobj_size_reads_only is_symdef_name_reads_only printf_reads_only : reads.

(** [r] is a step that reads ([lift]) or prints, [k] what follows. *)
Ltac reads_step :=
  apply reads_only_rbind; [unfold lift; cbn [snd]; auto with reads | intros ? _].

(** ** The symbol-index decoder only reads *)

Lemma dump_symdefs_loop_reads_only host v buf base (n : nat) :
  forall ranlib strtab file_start,
    reads_only (buf_len buf)
      (snd (dump_symdefs_loop host v buf base n ranlib strtab file_start)).
Proof.
  induction n as [ | n IH]; intros ranlib strtab file_start; simpl; [exact I | ].
  reads_step. reads_step. destruct a0 as [[is_bsd name] name_len].
  reads_step. reads_step. reads_step.
  apply reads_only_rbind; [destruct v; exact I | intros _ _]. apply IH.
Qed.

Lemma dump_symdefs_reads_only host v buf base header offset file_start :
  reads_only (buf_len buf)
    (snd (dump_symdefs host v buf base header offset file_start)).
Proof.
  unfold dump_symdefs.
  apply reads_only_rbind; [exact I | intros _ _].
  reads_step.
  apply reads_only_rbind; [destruct v; exact I | intros _ _].
  reads_step. apply dump_symdefs_loop_reads_only.
Qed.




(** A length of -5 in the name field becomes the [offset] 2^64 - 5: the data
    pointer wraps to 5 bytes before the end of the header, the count is read
    there, inside the buffer, and the decoder returns. *)
Example negative_length_wraps_into_the_header :
  arobj_name negative_length_index 0 8 = Done (true, 68, 2 ^ 64 - 5) /\
  size_t_displacement (2 ^ 64 - 5) = -5 /\
  load32 LittleEndian negative_length_index 0 63 = Done 0 /\
  scan LittleEndian false negative_length_index 0 3
  = ([Enters_dump_symdefs 8 (2 ^ 64 - 5)], Done tt).
Proof. repeat split; vm_compute; reflexivity. Qed.

(** * Name resolution *)

Lemma byte_val_inj (c1 c2 : ascii) : byte_val c1 = byte_val c2 -> c1 = c2.
Proof.
  unfold byte_val. intros H. apply N2Z.inj in H.
  rewrite <- (ascii_N_embedding c1), <- (ascii_N_embedding c2), H. reflexivity.
Qed.

Lemma byte_val_eqb (c1 c2 : ascii) : (byte_val c1 =? byte_val c2) = true <-> c1 = c2.
Proof.
  rewrite Z.eqb_eq. split; [apply byte_val_inj | intros ->; reflexivity].
Qed.

Section NameFacts.

Variable buf : list ascii.
Variable base : Z.

Lemma strncmp_marker_0 (header : Z) :
  begins_with_marker buf base header ->
  strncmp buf base (header + off_ar_name) AR_EFMT1 3 = Done 0.
Proof.
  intros (H0 & H1 & H2). unfold off_ar_name, AR_EFMT1.
  rewrite Z.add_0_r. simpl.
  rewrite H0. simpl. rewrite H1. simpl.
  replace (header + 1 + 1) with (header + 2) by lia.
  rewrite H2. reflexivity.
Qed.

Lemma strncmp_marker_Done (header r : Z) :
  strncmp buf base (header + off_ar_name) AR_EFMT1 3 = Done r ->
  r = 0 -> begins_with_marker buf base header.
Proof.
  unfold off_ar_name, AR_EFMT1, begins_with_marker.
  rewrite Z.add_0_r. simpl.
  replace (header + 1 + 1) with (header + 2) by lia.
  destruct (load8 buf base header) as [c0 | | | ] eqn:H0; simpl; try discriminate.
  destruct (byte_val c0 =? byte_val "#") eqn:E0;
    [ | apply Z.eqb_neq in E0; intros [= <-] Hr; lia].
  apply byte_val_eqb in E0; subst c0. simpl.
  destruct (load8 buf base (header + 1)) as [c1 | | | ] eqn:H1; simpl; try discriminate.
  destruct (byte_val c1 =? byte_val "1") eqn:E1;
    [ | apply Z.eqb_neq in E1; intros [= <-] Hr; lia].
  apply byte_val_eqb in E1; subst c1. simpl.
  destruct (load8 buf base (header + 2)) as [c2 | | | ] eqn:H2; simpl; try discriminate.
  destruct (byte_val c2 =? byte_val "/") eqn:E2;
    [ | apply Z.eqb_neq in E2; intros [= <-] Hr; lia].
  apply byte_val_eqb in E2; subst c2. auto.
Qed.

End NameFacts.

Section DirectName.

Variable buf : list ascii.
Variable base : Z.

(** The counting loop of [arobj_name]: started [left] bytes before the end of
    the name field, on bytes that are all in the buffer (the byte after the
    field included), it adds to [len] the number [k] of bytes before the first
    NUL, and [left] when there is none. *)
Lemma arobj_name_loop_spec (left : nat) :
  forall p len,
    0 <= p - base -> p - base + Z.of_nat left < buf_len buf ->
    exists k,
      arobj_name_loop buf base left p len = Done (len + k) /\
      0 <= k <= Z.of_nat left /\
      (forall i, 0 <= i < k ->
         exists c, load8 buf base (p + i) = Done c /\ is_nul c = false) /\
      (k < Z.of_nat left ->
         exists c, load8 buf base (p + k) = Done c /\ is_nul c = true).
Proof.
  induction left as [ | left IH]; intros p len Hlo Hhi.
  - destruct (load8_inside buf base p) as [c Hc]; [lia | ].
    exists 0. simpl. rewrite Hc. simpl.
    split; [destruct (is_nul c); f_equal; lia | ].
    split; [lia | ]. split; intros; lia.
  - destruct (load8_inside buf base p) as [c Hc]; [lia | ].
    simpl. rewrite Hc. simpl. destruct (is_nul c) eqn:Hnul.
    + exists 0. split; [f_equal; lia | ]. split; [lia | ].
      split; [intros; lia | ]. intros _. exists c. rewrite Z.add_0_r. auto.
    + destruct (IH (p + 1) (len + 1)) as (k & Hk & Hrange & Hbefore & Hat); [lia | lia | ].
      exists (k + 1). split; [rewrite Hk; f_equal; lia | ].
      split; [lia | ]. split.
      * intros i Hi. destruct (Z.eq_dec i 0) as [-> | Hne].
        -- exists c. rewrite Z.add_0_r. auto.
        -- destruct (Hbefore (i - 1)) as (c' & Hc' & Hn'); [lia | ].
           exists c'. replace (p + i) with (p + 1 + (i - 1)) by lia. auto.
      * intros Hlt. destruct Hat as (c' & Hc' & Hn'); [lia | ].
        exists c'. replace (p + (k + 1)) with (p + 1 + k) by lia. auto.
Qed.

End DirectName.

(** C8.  A header that lies in the buffer and whose name field does not begin
    with [AR_EFMT1] resolves to a direct name: the name field itself, with a
    length of at most the 16 bytes of the field, no NUL among the bytes
    counted, and a NUL right after them when fewer than 16 are counted. *)
Theorem arobj_name_direct_name :
  forall buf base header,
    0 <= header - base ->
    header - base + sizeof_ar_hdr <= buf_len buf ->
    ~ begins_with_marker buf base header ->
    exists len,
      arobj_name buf base header = Done (false, header + off_ar_name, len) /\
      0 <= len <= sizeof_ar_name /\
      (forall i, 0 <= i < len ->
         exists c, load8 buf base (header + off_ar_name + i) = Done c /\ is_nul c = false) /\
      (len < sizeof_ar_name ->
         exists c, load8 buf base (header + off_ar_name + len) = Done c /\ is_nul c = true).
Proof.
  intros buf base header Hlo Hhi Hdirect.
  unfold sizeof_ar_hdr in Hhi.
  pose proof (strncmp_reads_only buf base AR_EFMT1 (header + off_ar_name) 3) as Hr.
  unfold arobj_name.
  destruct (strncmp buf base (header + off_ar_name) AR_EFMT1 3)
    as [r | m | off | ] eqn:Hcmp; simpl in Hr; try contradiction.
  - cbn [obind]. destruct (r =? 0) eqn:Hr0; cbn [negb].
    + exfalso. apply Hdirect. apply Z.eqb_eq in Hr0.
      eapply strncmp_marker_Done; eassumption.
    + destruct (arobj_name_loop_spec buf base (Z.to_nat sizeof_ar_name)
                  (header + off_ar_name) 0) as (k & Hk & Hrange & Hbefore & Hat).
      { unfold off_ar_name; lia. }
      { unfold off_ar_name, sizeof_ar_name; simpl; lia. }
      rewrite Hk. cbn [obind]. exists k. rewrite Z.add_0_l.
      replace (Z.of_nat (Z.to_nat sizeof_ar_name)) with sizeof_ar_name in *
        by reflexivity.
      auto.
  - (* the three bytes compared are in the buffer *)
    exfalso. revert Hcmp. unfold off_ar_name, AR_EFMT1. rewrite Z.add_0_r. simpl.
    destruct (load8_inside buf base header) as [c0 H0]; [lia | ].
    destruct (load8_inside buf base (header + 1)) as [c1 H1]; [lia | ].
    destruct (load8_inside buf base (header + 1 + 1)) as [c2 H2]; [lia | ].
    rewrite H0; cbn [obind].
    repeat (match goal with
            | |- context [if ?b then _ else _] => destruct b
            end;
            try discriminate;
            try (rewrite H1; cbn [obind]);
            try (rewrite H2; cbn [obind])).
Qed.

Lemma arobj_name_direct_name_witness :
  exists len,
    arobj_name plain_member 0 8 = Done (false, 8 + off_ar_name, len) /\
    0 <= len <= sizeof_ar_name /\
    (forall i, 0 <= i < len ->
       exists c, load8 plain_member 0 (8 + off_ar_name + i) = Done c /\ is_nul c = false) /\
    (len < sizeof_ar_name ->
       exists c, load8 plain_member 0 (8 + off_ar_name + len) = Done c /\ is_nul c = true).
Proof.
  apply (arobj_name_direct_name plain_member 0 8).
  - vm_compute; discriminate.
  - vm_compute; discriminate.
  - intros (H & _). vm_compute in H. discriminate.
Defined.

(** ** Decimal text *)

Lemma scan_digits_run (ds : list ascii) (c : ascii) (rest : list ascii) :
  Forall (fun d => isdigit d = true) ds -> isdigit c = false ->
  forall acc,
    scan_digits (ds ++ c :: rest) acc
    = Some (fold_left (fun a d => 10 * a + digit_val d) ds acc).
Proof.
  intros Hds Hc.
  induction Hds as [ | d ds Hd _ IH]; intros acc; cbn [app scan_digits fold_left].
  - rewrite Hc. reflexivity.
  - rewrite Hd. apply IH.
Qed.

Lemma isdigit_range (d : ascii) : isdigit d = true -> 48 <= byte_val d <= 57.
Proof.
  unfold isdigit. intros H. apply andb_true_iff in H as [H1 H2].
  apply Z.leb_le in H1. apply Z.leb_le in H2. lia.
Qed.

Lemma decimal_acc_nonneg (ds : list ascii) :
  Forall (fun d => isdigit d = true) ds ->
  forall acc, 0 <= acc -> 0 <= fold_left (fun a d => 10 * a + digit_val d) ds acc.
Proof.
  induction 1 as [ | d ds Hd _ IH]; intros acc Hacc; cbn [fold_left];
    [exact Hacc | ].
  apply IH. apply isdigit_range in Hd. unfold digit_val. lia.
Qed.

Lemma decimal_nonneg (ds : list ascii) :
  Forall (fun d => isdigit d = true) ds -> 0 <= decimal ds.
Proof.
  intros H. apply decimal_acc_nonneg; [exact H | lia].
Qed.

(** A run of digits, not empty, closed by a byte that is no digit, reads as
    its decimal value. *)
Lemma scan_number_digits (ds : list ascii) (c : ascii) (rest : list ascii) :
  ds <> [] -> Forall (fun d => isdigit d = true) ds -> isdigit c = false ->
  scan_number (ds ++ c :: rest) = Some (decimal ds).
Proof.
  intros Hne Hds Hc. destruct ds as [ | d ds]; [contradiction | ].
  pose proof (Forall_inv Hds) as Hd. apply isdigit_range in Hd.
  change ((d :: ds) ++ c :: rest)%list with (d :: (ds ++ c :: rest))%list.
  unfold scan_number, isspace.
  replace (byte_val d =? 32) with false by (symmetry; apply Z.eqb_neq; lia).
  replace (byte_val d <=? 13) with false by (symmetry; apply Z.leb_gt; lia).
  rewrite andb_false_r. cbn [orb].
  unfold scan_sign.
  replace (byte_val d =? 45) with false by (symmetry; apply Z.eqb_neq; lia).
  replace (byte_val d =? 43) with false by (symmetry; apply Z.eqb_neq; lia).
  change (d :: (ds ++ c :: rest))%list with ((d :: ds) ++ c :: rest)%list.
  apply scan_digits_run; assumption.
Qed.

Lemma clamp_long_small (z : Z) : LONG_MIN <= z <= LONG_MAX -> clamp_long z = z.
Proof. unfold clamp_long. lia. Qed.

Lemma to_int_small (z : Z) : - 2 ^ 31 <= z <= INT_MAX -> to_int z = z.
Proof.
  unfold to_int, INT_MAX. intros H.
  rewrite Z.mod_small; lia.
Qed.

Lemma to_size_t_small (z : Z) : 0 <= z < 2 ^ 64 -> to_size_t z = z.
Proof. unfold to_size_t. intros H. apply Z.mod_small; lia. Qed.

(** C2, as the code has it.  When the name field begins with [AR_EFMT1] and
    goes on with the decimal digits of a length [L] (at most [INT_MAX]) closed
    by a byte that is no digit, [arobj_name] answers an extended name: the
    address of the byte that follows the header, and [L].  It reads none of
    the bytes of the name and there is no condition on where the buffer ends:
    the answer is the same when the [L] bytes do not fit in it. *)
Theorem arobj_name_extended_name :
  forall buf base header ds c rest,
    begins_with_marker buf base header ->
    tail_from buf base (header + off_ar_name + 3) = Done (ds ++ c :: rest)%list ->
    ds <> [] ->
    Forall (fun d => isdigit d = true) ds ->
    isdigit c = false ->
    decimal ds <= INT_MAX ->
    arobj_name buf base header = Done (true, header + sizeof_ar_hdr, decimal ds).
Proof.
  intros buf base header ds c rest Hmark Htail Hne Hds Hc Hmax.
  pose proof (decimal_nonneg ds Hds) as Hpos.
  unfold arobj_name.
  rewrite (strncmp_marker_0 buf base header Hmark). cbn [obind Z.eqb negb].
  unfold atoi, scan_at. rewrite Htail. cbn [obind].
  unfold strtol_scan. rewrite (scan_number_digits ds c rest Hne Hds Hc).
  cbn [option_map obind].
  unfold INT_MAX in Hmax.
  rewrite clamp_long_small by (unfold LONG_MIN, LONG_MAX; lia).
  rewrite to_int_small by (unfold INT_MAX; lia).
  rewrite to_size_t_small by lia.
  reflexivity.
Qed.

Lemma arobj_name_extended_name_witness :
  arobj_name long_name_promised 0 8
  = Done (true, 8 + sizeof_ar_hdr, decimal (bytes "99")).
Proof.
  apply (arobj_name_extended_name long_name_promised 0 8
           (bytes "99") " "%char (skipn 14 long_name_promised)).
  - vm_compute. auto.
  - vm_compute. reflexivity.
  - discriminate.
  - repeat constructor.
  - reflexivity.
  - vm_compute. discriminate.
Defined.

(** C2, as the spec has it, fails on [long_name_promised]: the name field
    promises 99 bytes after the header, the buffer ends with the header, and
    name resolution returns the pair all the same. *)
Lemma arobj_name_does_not_check_the_length :
  buf_len long_name_promised = 68 /\
  arobj_name long_name_promised 0 8 = Done (true, 68, 99) /\
  buf_len long_name_promised < 68 + 99.
Proof.
  repeat split; vm_compute; reflexivity.
Qed.

(** The decoder on a well-formed index. *)
Example indexed_archive_is_decoded :
  buf_len indexed_archive = 175 /\
  scan LittleEndian false indexed_archive 0 2
  = ([Enters_dump_symdefs 8 20; Stdout ("_foo foo.o           " ++ nl)], Done tt).
Proof. split; vm_compute; reflexivity. Qed.

(** * The verbose listing and the terminator *)

Lemma rbind_stops {A B : Type} (r : run A) (k : A -> run B) (m : string) :
  snd r = Fatal m -> rbind r k = (fst r, Fatal m).
Proof.
  destruct r as [t o]; simpl. intros ->. reflexivity.
Qed.

(** After a step that only reads or prints, either what follows decides the
    outcome, or the step has read outside of the buffer. *)
Lemma rbind_reads_cases {A B : Type} (len : Z) (r : run A) (k : A -> run B) :
  reads_only len (snd r) ->
  (exists a, snd r = Done a /\ snd (rbind r k) = snd (k a)) \/
  (exists off, snd r = ReadsOutside off /\ snd (rbind r k) = ReadsOutside off).
Proof.
  intros Hr. rewrite snd_rbind.
  destruct (snd r) as [a | m | off | ]; simpl in Hr; try contradiction.
  - left. exists a. auto.
  - right. exists off. auto.
Qed.

Lemma printn_reads_only buf base (str n : Z) :
  reads_only (buf_len buf) (snd (printn buf base str n)).
Proof.
  unfold printn. destruct (n <=? 0); [exact I | ].
  pose proof (tail_from_reads_only buf base str) as Ht.
  destruct (tail_from buf base str) as [l | m | off | ]; simpl in *; try assumption.
  destruct (scan_printn l n) as [s [ | ]]; simpl; auto. right; lia.
Qed.

Lemma mprintn_reads_only buf base (m : string) (str n : Z) :
  reads_only (buf_len buf) (snd (mprintn buf base m str n)).
Proof.
  unfold mprintn.
  apply reads_only_rbind; [exact I | intros _ _].
  apply reads_only_rbind; [apply printn_reads_only | intros _ _].
  exact I.
Qed.

#[local] Hint Resolve printn_reads_only mprintn_reads_only : reads.

(** When the terminator differs from [ARFMAG], [dump_obj] ends in
    [fatal("unexpected ar_fmag\n")], unless one of its reads left the buffer
    first. *)
Lemma dump_obj_fmag_mismatch buf base (header r : Z) :
  strncmp buf base (header + off_ar_fmag) ARFMAG 2 = Done r -> r <> 0 ->
  snd (dump_obj buf base header) = Fatal fmag_msg \/
  exists off, snd (dump_obj buf base header) = ReadsOutside off.
Proof.
  intros Hcmp Hr. unfold dump_obj.
  destruct (rbind_reads_cases (buf_len buf) (lift (arobj_name buf base header))
    (fun x => let '(is_bsd_name, name, name_len) := x in
       (printf "ar_name: " ;;
        printn buf base name (to_int name_len) ;;
        (if is_bsd_name : bool then printf " (extended BSD name)" else ret tt) ;;
        printf nl ;;
        mprintn buf base "ar_date: " (header + off_ar_date) sizeof_ar_date ;;
        mprintn buf base "ar_uid: " (header + off_ar_uid) sizeof_ar_uid ;;
        mprintn buf base "ar_gid: " (header + off_ar_gid) sizeof_ar_gid ;;
        mprintn buf base "ar_mode: " (header + off_ar_mode) sizeof_ar_mode ;;
        mprintn buf base "ar_size: " (header + off_ar_size) sizeof_ar_size ;;
        mprintn buf base "ar_fmag: " (header + off_ar_fmag) sizeof_ar_fmag ;;
        r <- lift (strncmp buf base (header + off_ar_fmag) ARFMAG 2) ;;
        if negb (r =? 0) then fatal fmag_msg else ret tt)%run))
    as [([[is_bsd name] name_len] & _ & ->) | (off & _ & ->)];
    [apply arobj_name_reads_only | | right; eauto].
  repeat
    match goal with
    | |- snd (rbind ?r ?k) = _ \/ _ =>
        destruct (rbind_reads_cases (buf_len buf) r k) as [(? & _ & ->) | (? & _ & ->)];
        [ first [ exact I | apply printn_reads_only | apply mprintn_reads_only
                | destruct is_bsd; exact I ]
        | | right; eauto ]
    end.
  rewrite (rbind_lift_Done _ r) by exact Hcmp.
  apply Z.eqb_neq in Hr. rewrite Hr. left. reflexivity.
Qed.

(** The path with [-v].  With [g_verbose] set, on every turn of the loop
    the terminator of the header is compared with [ARFMAG] (by [dump_obj]);
    when it differs the scan ends in [fatal("unexpected ar_fmag\n")] having
    printed the listing of that member and nothing after it, provided the
    listing itself did not read outside of the buffer. *)
Theorem verbose_fmag_mismatch_is_fatal :
  forall host buf base fuel contents contents_end file_start r,
    contents < contents_end ->
    strncmp buf base (contents + off_ar_fmag) ARFMAG 2 = Done r ->
    r <> 0 ->
    (forall off, snd (dump_obj buf base contents) <> ReadsOutside off) ->
    dump_loop host true buf base (S fuel) contents contents_end file_start
    = (fst (dump_obj buf base contents), Fatal fmag_msg).
Proof.
  intros host buf base fuel contents contents_end file_start r Hlt Hcmp Hr Hin.
  destruct (dump_obj_fmag_mismatch buf base contents r Hcmp Hr) as [Hf | [off Ho]];
    [ | exfalso; exact (Hin off Ho)].
  cbn [dump_loop]. apply Z.ltb_lt in Hlt. rewrite Hlt.
  unfold dump_member.
  rewrite (rbind_stops (dump_obj buf base contents) _ fmag_msg Hf).
  reflexivity.
Qed.

Lemma verbose_fmag_mismatch_is_fatal_witness :
  dump_loop LittleEndian true bad_fmag 0 1 8 (0 + buf_len bad_fmag) 0
  = (fst (dump_obj bad_fmag 0 8), Fatal fmag_msg).
Proof.
  apply (verbose_fmag_mismatch_is_fatal LittleEndian bad_fmag 0 0 8
           (0 + buf_len bad_fmag) 0 (122 - 96)).
  - vm_compute. reflexivity.
  - vm_compute. reflexivity.
  - discriminate.
  - intros off. vm_compute. discriminate.
Defined.

(** The path without [-v] on [bad_fmag]: the first terminator is wrong, no
    failure is reported, and the scan goes on to the second member and
    decodes it. *)
Lemma quiet_scan_ignores_fmag :
  strncmp bad_fmag 0 (8 + off_ar_fmag) ARFMAG 2 = Done 26 /\
  scan LittleEndian false bad_fmag 0 2 = ([Enters_dump_symdefs 68 0], Done tt).
Proof.
  split; vm_compute; reflexivity.
Qed.

Lemma quiet_dump_member_reads_only host buf base contents file_start :
  reads_only (buf_len buf) (snd (dump_member host false buf base contents file_start)).
Proof.
  unfold dump_member.
  apply reads_only_rbind; [exact I | intros _ _].
  reads_step. destruct a as [[is_bsd name] name_len].
  reads_step.
  apply reads_only_rbind.
  { match goal with |- context [if ?b then _ else _] => destruct b end; [ | exact I].
    apply dump_symdefs_reads_only. }
  intros _ _.
  reads_step. exact I.
Qed.

Lemma quiet_dump_loop_not_fatal host buf base contents_end file_start (fuel : nat) :
  forall contents m,
    snd (dump_loop host false buf base fuel contents contents_end file_start)
    <> Fatal m.
Proof.
  induction fuel as [ | fuel IH]; intros contents m; cbn [dump_loop];
    destruct (contents <? contents_end); try discriminate.
  rewrite snd_rbind.
  pose proof (quiet_dump_member_reads_only host buf base contents file_start) as Hr.
  destruct (snd (dump_member host false buf base contents file_start))
    as [next | m' | off | ]; cbn [obind]; try discriminate; try contradiction.
  apply IH.
Qed.

(** C3.  The comparison of the terminator with [ARFMAG] is in [dump_obj],
    which the loop of [dump] calls under [if (g_verbose)] only.  Without [-v]
    no scan ends in [fatal("unexpected ar_fmag\n")], whatever the file; the
    same file [bad_fmag], whose first terminator is [zz], is refused with
    [-v] and scanned to the end without: the second member is visited and
    decoded. *)
Theorem terminator_is_checked_only_when_verbose :
  (forall host buf base fuel,
     snd (scan host false buf base fuel) <> Fatal fmag_msg) /\
  strncmp bad_fmag 0 (8 + off_ar_fmag) ARFMAG 2 = Done 26 /\
  snd (scan LittleEndian true bad_fmag 0 2) = Fatal fmag_msg /\
  scan LittleEndian false bad_fmag 0 2 = ([Enters_dump_symdefs 68 0], Done tt).
Proof.
  split; [ | repeat split; vm_compute; reflexivity].
  intros host buf base fuel. unfold scan, dump.
  rewrite snd_rbind. unfold lift at 1. cbn [snd].
  destruct (strncmp buf base base ARMAG SARMAG) as [r | m | off | ] eqn:Hcmp;
    cbn [obind]; try discriminate.
  - rewrite snd_rbind.
    destruct (negb (r =? 0)).
    + rewrite snd_rbind. unfold lift at 1. cbn [snd].
      destruct (load32 host buf base base) as [w | m | off | ] eqn:Hw;
        cbn [obind]; try discriminate.
      * rewrite snd_rbind.
        destruct ((w =? FAT_MAGIC) || (w =? FAT_CIGAM)); cbn; discriminate.
      * pose proof (load32_reads_only buf base host base) as Hr.
        rewrite Hw in Hr. contradiction.
    + unfold ret at 1. cbn [snd obind]. apply quiet_dump_loop_not_fatal.
  - pose proof (strncmp_reads_only buf base ARMAG base SARMAG) as Hr.
    rewrite Hcmp in Hr. contradiction.
Qed.

(** * The magic *)

Lemma load8_nth buf base (k : nat) (c : ascii) :
  nth_error buf k = Some c -> load8 buf base (base + Z.of_nat k) = Done c.
Proof.
  intros H. unfold load8.
  replace (base + Z.of_nat k - base) with (Z.of_nat k) by lia.
  destruct (0 <=? Z.of_nat k) eqn:E; [ | apply Z.leb_gt in E; lia].
  rewrite Nat2Z.id, H. reflexivity.
Qed.

(** A buffer whose first byte is not that of [ARMAG], and whose first four
    bytes read as [FAT_MAGIC] or [FAT_CIGAM], is refused as a fat archive
    before anything else is read. *)
Lemma dump_refuses_fat host v buf base fuel (b0 b1 b2 b3 : ascii) :
  nth_error buf 0 = Some b0 -> nth_error buf 1 = Some b1 ->
  nth_error buf 2 = Some b2 -> nth_error buf 3 = Some b3 ->
  (byte_val b0 =? 33) = false ->
  (uint32_of_bytes host b0 b1 b2 b3 =? FAT_MAGIC)
  || (uint32_of_bytes host b0 b1 b2 b3 =? FAT_CIGAM) = true ->
  scan host v buf base fuel = ([], Fatal fat_msg).
Proof.
  intros H0 H1 H2 H3 Hne Hfat.
  apply (load8_nth buf base) in H0, H1, H2, H3.
  rewrite Z.add_0_r in H0. cbn [Z.of_nat Pos.of_succ_nat Pos.succ] in H1, H2, H3.
  unfold scan, dump.
  assert (Hcmp : strncmp buf base base ARMAG SARMAG = Done (byte_val b0 - 33)).
  { unfold ARMAG, SARMAG. cbn [append strncmp Z.leb Z.compare].
    rewrite H0. cbn [obind].
    change (byte_val "!") with 33. rewrite Hne. reflexivity. }
  rewrite (rbind_lift_Done _ _ _ Hcmp).
  replace (byte_val b0 - 33 =? 0) with false
    by (symmetry; apply Z.eqb_neq; apply Z.eqb_neq in Hne; lia).
  cbn [negb].
  assert (Hv : load32 host buf base base = Done (uint32_of_bytes host b0 b1 b2 b3)).
  { unfold load32. rewrite H0, H1, H2, H3. reflexivity. }
  rewrite (rbind_lift_Done _ _ _ Hv). rewrite Hfat.
  reflexivity.
Qed.

(** C6.  Whatever follows them, whatever the byte order of the processor and
    the verbosity, a buffer that begins with the four bytes of the fat magic,
    in either order, is refused with the diagnostic on fat archives, which is
    not the one on a missing archive magic, and nothing is printed or decoded
    before. *)
Theorem fat_magic_is_refused :
  forall host v rest base fuel,
    scan host v (fat_magic_bytes ++ rest)%list base fuel = ([], Fatal fat_msg) /\
    scan host v (rev fat_magic_bytes ++ rest)%list base fuel = ([], Fatal fat_msg) /\
    fat_msg <> not_ar_msg.
Proof.
  intros host v rest base fuel. split; [ | split].
  - eapply dump_refuses_fat; try reflexivity. destruct host; reflexivity.
  - eapply dump_refuses_fat; try reflexivity. destruct host; reflexivity.
  - discriminate.
Qed.

(** * Sequencing *)

(** A turn of the loop that completes has read the size of the member and
    moved [contents] by it. *)
Lemma dump_member_Done host v buf base contents file_start (next : Z) :
  snd (dump_member host v buf base contents file_start) = Done next ->
  exists size,
    arobj_size buf base contents = Done size /\ next = contents + size.
Proof.
  unfold dump_member. intros H.
  rewrite snd_rbind in H. apply obind_Done_inv in H as (_ & _ & H).
  rewrite snd_rbind in H. apply obind_Done_inv in H as ([[is_bsd name] name_len] & _ & H).
  rewrite snd_rbind in H. apply obind_Done_inv in H as (is_index & _ & H).
  rewrite snd_rbind in H. apply obind_Done_inv in H as (_ & _ & H).
  rewrite snd_rbind in H. apply obind_Done_inv in H as (size & Hsize & H).
  exists size. split; [exact Hsize | ].
  unfold ret in H. simpl in H. congruence.
Qed.

Lemma decimal_acc_bound (ds : list ascii) :
  Forall (fun d => isdigit d = true) ds ->
  forall acc, 0 <= acc ->
    fold_left (fun a d => 10 * a + digit_val d) ds acc
    < (acc + 1) * 10 ^ Z.of_nat (List.length ds).
Proof.
  induction 1 as [ | d ds Hd _ IH]; intros acc Hacc; cbn [fold_left List.length].
  - simpl. lia.
  - apply isdigit_range in Hd.
    rewrite Nat2Z.inj_succ, Z.pow_succ_r by lia.
    specialize (IH (10 * acc + digit_val d)).
    unfold digit_val in *.
    assert (Hpow : 0 < 10 ^ Z.of_nat (List.length ds)) by (apply Z.pow_pos_nonneg; lia).
    assert (Hstep : fold_left (fun a d0 => 10 * a + (byte_val d0 - 48)) ds
                      (10 * acc + (byte_val d - 48))
                    < (10 * acc + (byte_val d - 48) + 1) * 10 ^ Z.of_nat (List.length ds))
      by (apply IH; lia).
    nia.
Qed.

Lemma decimal_bound (ds : list ascii) :
  Forall (fun d => isdigit d = true) ds ->
  decimal ds < 10 ^ Z.of_nat (List.length ds).
Proof.
  intros H. pose proof (decimal_acc_bound ds H 0). unfold decimal. lia.
Qed.

(** [strtoll] on a size field: digits, then nothing or a byte that is no
    digit (the padding). *)
Lemma strtoll_local_digits (ds pad : list ascii) :
  ds <> [] ->
  Forall (fun d => isdigit d = true) ds ->
  (forall c pad', pad = c :: pad' -> isdigit c = false) ->
  (List.length ds <= 18)%nat ->
  strtoll_local (ds ++ pad) = decimal ds.
Proof.
  intros Hne Hds Hpad Hlen. unfold strtoll_local, strtol_scan.
  assert (Hscan : scan_number ((ds ++ pad) ++ [Ascii.zero])%list = Some (decimal ds)).
  { rewrite <- app_assoc. destruct pad as [ | c pad'].
    - apply scan_number_digits; auto.
    - apply scan_number_digits; eauto. }
  rewrite Hscan. cbn [option_map].
  apply clamp_long_small.
  pose proof (decimal_nonneg ds Hds). pose proof (decimal_bound ds Hds).
  assert (10 ^ Z.of_nat (List.length ds) <= 10 ^ 18)
    by (apply Z.pow_le_mono_r; lia).
  unfold LONG_MIN, LONG_MAX. lia.
Qed.

Lemma memcpy_length buf base (p n : Z) (l : list ascii) :
  0 <= n -> memcpy buf base p n = Done l -> Z.of_nat (List.length l) = n.
Proof.
  intros Hn. unfold memcpy. destruct (n <=? 0) eqn:E.
  - intros [= <-]. apply Z.leb_le in E. simpl. lia.
  - destruct (tail_from buf base p) as [l' | | | ]; cbn [obind]; try discriminate.
    destruct (n <=? Z.of_nat (List.length l')) eqn:E'; [ | discriminate].
    intros [= <-]. apply Z.leb_le in E'. rewrite length_firstn. lia.
Qed.

(** What a turn of the loop that completes returns: the address of the
    header plus what [strtoll] reads in the ten bytes of the size field, plus
    the 60 bytes of a header. *)
Lemma dump_member_next host v buf base contents file_start t next :
  dump_member host v buf base contents file_start = (t, Done next) ->
  exists field,
    memcpy buf base (contents + off_ar_size) sizeof_ar_size = Done field /\
    next = contents + (strtoll_local field + sizeof_ar_hdr) /\
    (forall ds pad,
       field = (ds ++ pad)%list ->
       ds <> [] ->
       Forall (fun d => isdigit d = true) ds ->
       (forall c pad', pad = c :: pad' -> isdigit c = false) ->
       strtoll_local field = decimal ds).
Proof.
  intros Hrun.
  assert (Hsnd : snd (dump_member host v buf base contents file_start) = Done next)
    by (rewrite Hrun; reflexivity).
  apply dump_member_Done in Hsnd as (size & Hsize & ->).
  unfold arobj_size in Hsize.
  destruct (memcpy buf base (contents + off_ar_size) sizeof_ar_size)
    as [field | | | ] eqn:Hfield; cbn [obind] in Hsize; try discriminate.
  injection Hsize as <-.
  exists field. split; [reflexivity | ]. split; [reflexivity | ].
  intros ds pad -> Hne Hds Hpad.
  apply memcpy_length in Hfield; [ | unfold sizeof_ar_size; lia].
  rewrite length_app in Hfield. unfold sizeof_ar_size in Hfield.
  apply strtoll_local_digits; auto. lia.
Qed.

(** C7.  When the loop of [dump] is at a header before [contents_end] and
    its turn on this member completes, with trace [t], the rest of the loop
    is the loop started at the address of the header plus the total size of
    the member: what [strtoll] reads in the ten bytes of the size field, plus
    the 60 bytes of a header.  When the field holds decimal digits followed by
    padding, what [strtoll] reads is the number they write.  Nothing is added
    for an odd size. *)
Theorem dump_loop_advances_by_total_size :
  forall host v buf base fuel contents contents_end file_start t next,
    contents < contents_end ->
    dump_member host v buf base contents file_start = (t, Done next) ->
    exists field,
      memcpy buf base (contents + off_ar_size) sizeof_ar_size = Done field /\
      next = contents + (strtoll_local field + sizeof_ar_hdr) /\
      dump_loop host v buf base (S fuel) contents contents_end file_start
      = (let (t', o) :=
           dump_loop host v buf base fuel
             (contents + (strtoll_local field + sizeof_ar_hdr))
             contents_end file_start in
         ((t ++ t')%list, o)) /\
      (forall ds pad,
         field = (ds ++ pad)%list ->
         ds <> [] ->
         Forall (fun d => isdigit d = true) ds ->
         (forall c pad', pad = c :: pad' -> isdigit c = false) ->
         strtoll_local field = decimal ds).
Proof.
  intros host v buf base fuel contents contents_end file_start t next Hlt Hrun.
  destruct (dump_member_next host v buf base contents file_start t next Hrun)
    as (field & Hfield & Hnext & Hdigits).
  exists field. split; [exact Hfield | ]. split; [exact Hnext | ].
  split; [ | exact Hdigits].
  cbn [dump_loop].
  replace (contents <? contents_end) with true by (symmetry; apply Z.ltb_lt; exact Hlt).
  rewrite Hrun, <- Hnext. unfold rbind. reflexivity.
Qed.

Lemma dump_loop_advances_by_total_size_witness :
  exists field,
    memcpy (archive_of [hello_member; hello_member]) 0 (8 + off_ar_size) sizeof_ar_size
    = Done field /\
    71 = 8 + (strtoll_local field + sizeof_ar_hdr) /\
    dump_loop LittleEndian false (archive_of [hello_member; hello_member]) 0 3 8 134 0
    = (let (t', o) :=
         dump_loop LittleEndian false (archive_of [hello_member; hello_member]) 0 2
           (8 + (strtoll_local field + sizeof_ar_hdr)) 134 0 in
       (([] ++ t')%list, o)) /\
    (forall ds pad,
       field = (ds ++ pad)%list ->
       ds <> [] ->
       Forall (fun d => isdigit d = true) ds ->
       (forall c pad', pad = c :: pad' -> isdigit c = false) ->
       strtoll_local field = decimal ds).
Proof.
  apply (dump_loop_advances_by_total_size LittleEndian false
           (archive_of [hello_member; hello_member]) 0 2 8 134 0 [] 71).
  - lia.
  - vm_compute. reflexivity.
Defined.

(** A turn that does not complete ends the loop: no further member is
    looked at. *)
Lemma dump_loop_stops_with_the_member host v buf base fuel contents contents_end
    file_start :
  contents < contents_end ->
  (forall next, snd (dump_member host v buf base contents file_start) <> Done next) ->
  dump_loop host v buf base (S fuel) contents contents_end file_start
  = (fst (dump_member host v buf base contents file_start),
     match snd (dump_member host v buf base contents file_start) with
     | Done _ => Done tt
     | Fatal m => Fatal m
     | ReadsOutside off => ReadsOutside off
     | OutOfFuel => OutOfFuel
     end).
Proof.
  intros Hlt Hstop. cbn [dump_loop].
  replace (contents <? contents_end) with true by (symmetry; apply Z.ltb_lt; exact Hlt).
  destruct (dump_member host v buf base contents file_start) as [t [next | m | off | ]];
    try reflexivity.
  exfalso. exact (Hstop next eq_refl).
Qed.

(** The member of [plain_member] has a payload of 3 bytes: the next header
    would be looked for at offset 71, an odd offset. *)
Example odd_size_is_not_padded :
  strtoll_local (field " " 10 "3") = 3 /\
  dump_member LittleEndian false plain_member 0 8 0 = ([], Done (8 + 3 + 60)).
Proof. split; vm_compute; reflexivity. Qed.

(** * Two mappings of the same bytes

    [mmap] may place the file anywhere.  The same bytes at [base1] and at
    [base2], walked with pointers that point to the same file offsets, give
    the same reads, the same trace and the same outcome. *)

Lemma obind_ext {A B : Type} (o1 o2 : outcome A) (k1 k2 : A -> outcome B) :
  o1 = o2 -> (forall a, k1 a = k2 a) -> obind o1 k1 = obind o2 k2.
Proof.
  intros <- Hk. destruct o1; simpl; auto.
Qed.


Section Rebase.

Variable buf : list ascii.
Variable base1 base2 : Z.

Local Abbreviation same p1 p2 := (p1 - base1 = p2 - base2).

Lemma load8_rebase p1 p2 :
  same p1 p2 -> load8 buf base1 p1 = load8 buf base2 p2.
Proof. unfold load8. intros ->. reflexivity. Qed.

Lemma load32_rebase host p1 p2 :
  same p1 p2 -> load32 host buf base1 p1 = load32 host buf base2 p2.
Proof.
  intros H. unfold load32.
  repeat (apply obind_ext; [apply load8_rebase; lia | intros ?]).
  reflexivity.
Qed.

Lemma tail_from_rebase p1 p2 :
  same p1 p2 -> tail_from buf base1 p1 = tail_from buf base2 p2.
Proof. unfold tail_from. intros ->. reflexivity. Qed.


Lemma memcpy_rebase p1 p2 n :
  same p1 p2 -> memcpy buf base1 p1 n = memcpy buf base2 p2 n.
Proof.
  intros H. unfold memcpy. rewrite (tail_from_rebase p1 p2 H). reflexivity.
Qed.

Lemma strncmp_rebase lit :
  forall p1 p2 n,
    same p1 p2 -> strncmp buf base1 p1 lit n = strncmp buf base2 p2 lit n.
Proof.
  induction lit as [ | c2 lit IH]; intros p1 p2 n H; cbn [strncmp];
    destruct (n <=? 0); try reflexivity;
    (apply obind_ext; [apply load8_rebase; exact H | intros c1]);
    try reflexivity.
  destruct (byte_val c1 =? byte_val c2); [ | reflexivity].
  destruct (is_nul c1); [reflexivity | ]. apply IH. lia.
Qed.




Lemma arobj_size_rebase h1 h2 :
  same h1 h2 -> arobj_size buf base1 h1 = arobj_size buf base2 h2.
Proof.
  intros H. unfold arobj_size.
  rewrite (memcpy_rebase (h1 + off_ar_size) (h2 + off_ar_size)) by lia.
  reflexivity.
Qed.




End Rebase.




Section RebaseRuns.

Variable host : endian.
Variable v : bool.
Variable buf : list ascii.
Variable base1 base2 : Z.

Local Abbreviation same p1 p2 := (p1 - base1 = p2 - base2).







End RebaseRuns.

(** * Termination *)

Lemma reads_only_finished {A : Type} (len : Z) (o : outcome A) :
  reads_only len o -> finished o.
Proof. destruct o; simpl; auto. Qed.

Lemma finished_rbind {A B : Type} (r : run A) (k : A -> run B) :
  finished (snd r) -> (forall a, snd r = Done a -> finished (snd (k a))) ->
  finished (snd (rbind r k)).
Proof.
  intros Hr Hk. rewrite snd_rbind.
  destruct (snd r) as [a | | | ]; simpl in *; auto.
Qed.

Ltac finished_step len :=
  apply finished_rbind;
  [apply (reads_only_finished len); unfold lift; cbn [snd]; auto with reads | intros ? _].

Lemma dump_obj_finished buf base header : finished (snd (dump_obj buf base header)).
Proof.
  unfold dump_obj.
  finished_step (buf_len buf). destruct a as [[is_bsd name] name_len].
  finished_step (buf_len buf). finished_step (buf_len buf).
  apply finished_rbind; [destruct is_bsd; exact I | intros _ _].
  do 8 finished_step (buf_len buf).
  match goal with |- context [if ?b then _ else _] => destruct b end; exact I.
Qed.

Lemma dump_member_finished host v buf base contents file_start :
  finished (snd (dump_member host v buf base contents file_start)).
Proof.
  unfold dump_member.
  apply finished_rbind; [destruct v; [apply dump_obj_finished | exact I] | intros _ _].
  finished_step (buf_len buf). destruct a as [[is_bsd name] name_len].
  finished_step (buf_len buf).
  apply finished_rbind.
  { match goal with |- context [if ?b then _ else _] => destruct b end; [ | exact I].
    apply (reads_only_finished (buf_len buf)). apply dump_symdefs_reads_only. }
  intros _ _.
  finished_step (buf_len buf). exact I.
Qed.

Lemma arobj_size_Done_inside buf base header size :
  arobj_size buf base header = Done size ->
  0 <= header - base + off_ar_size /\
  header - base + off_ar_size + sizeof_ar_size <= buf_len buf.
Proof.
  unfold arobj_size, memcpy, sizeof_ar_size. cbn [Z.leb Z.compare].
  unfold tail_from.
  destruct ((0 <=? header + off_ar_size - base)
            && (header + off_ar_size - base <=? buf_len buf)) eqn:E;
    cbn [obind]; [ | discriminate].
  apply andb_true_iff in E as [E1 E2]. apply Z.leb_le in E1, E2.
  destruct (10 <=? Z.of_nat (List.length (skipn (Z.to_nat (header + off_ar_size - base)) buf)))
    eqn:E3; cbn [obind]; [ | discriminate].
  intros _. apply Z.leb_le in E3. rewrite length_skipn in E3.
  unfold buf_len in *. lia.
Qed.

Lemma advances_spec buf base header size :
  advances buf = true ->
  0 <= header - base ->
  arobj_size buf base header = Done size -> 0 < size.
Proof.
  intros Hadv Hlo Hsize.
  rewrite (arobj_size_rebase buf base 0 header (header - base)) in Hsize by lia.
  pose proof (arobj_size_Done_inside _ _ _ _ Hsize) as [_ Hin].
  unfold off_ar_size, sizeof_ar_size, buf_len in Hin.
  unfold advances in Hadv. rewrite forallb_forall in Hadv.
  specialize (Hadv (Z.to_nat (header - base))).
  rewrite Z2Nat.id in Hadv by lia. rewrite Hsize in Hadv.
  apply Z.ltb_lt. apply Hadv. apply in_seq. lia.
Qed.

Lemma dump_loop_finished host v buf base file_start contents_end (fuel : nat) :
  advances buf = true ->
  forall contents,
    0 <= contents - base ->
    (Z.to_nat (contents_end - contents) <= fuel)%nat ->
    finished (snd (dump_loop host v buf base fuel contents contents_end file_start)).
Proof.
  intros Hadv. induction fuel as [ | fuel IH]; intros contents Hlo Hfuel;
    cbn [dump_loop]; destruct (contents <? contents_end) eqn:Hlt; try exact I.
  - apply Z.ltb_lt in Hlt. lia.
  - apply Z.ltb_lt in Hlt.
    apply finished_rbind; [apply dump_member_finished | ].
    intros next Hnext. apply dump_member_Done in Hnext as (size & Hsize & ->).
    pose proof (advances_spec buf base contents size Hadv Hlo Hsize).
    apply IH; lia.
Qed.

(** C5, as the spec has it, fails on [minus_sixty]: the total size of the
    member is 0, [contents] stays on the same header and the loop never
    ends, whatever the number of turns followed. *)
Lemma scan_loops_on_minus_sixty :
  arobj_size minus_sixty 0 8 = Done 0 /\
  dump_member LittleEndian false minus_sixty 0 8 0 = ([], Done 8) /\
  (forall fuel, scan LittleEndian false minus_sixty 0 fuel = ([], OutOfFuel)).
Proof.
  assert (Hturn : dump_member LittleEndian false minus_sixty 0 8 0 = ([], Done 8))
    by (vm_compute; reflexivity).
  split; [vm_compute; reflexivity | ]. split; [exact Hturn | ].
  assert (Hloop : forall fuel,
            dump_loop LittleEndian false minus_sixty 0 fuel 8 68 0 = ([], OutOfFuel)).
  { induction fuel as [ | fuel IH]; cbn [dump_loop]; [reflexivity | ].
    change (8 <? 68) with true. cbv iota. rewrite Hturn.
    unfold rbind. rewrite IH. reflexivity. }
  intros fuel. unfold scan, dump.
  assert (Hmagic : strncmp minus_sixty 0 0 ARMAG SARMAG = Done 0)
    by (vm_compute; reflexivity).
  rewrite (rbind_lift_Done _ _ _ Hmagic).
  change (negb (0 =? 0)) with false. cbv iota. rewrite rbind_ret.
  change (0 + SARMAG) with 8. change (0 + buf_len minus_sixty) with 68.
  apply Hloop.
Qed.

(** * When the decoder runs *)

Lemma in_fst_rbind_l {A B : Type} (e : event) (r : run A) (k : A -> run B) :
  In e (fst r) -> In e (fst (rbind r k)).
Proof.
  intros H. rewrite fst_rbind. apply in_or_app. left. exact H.
Qed.

Lemma in_fst_rbind_r {A B : Type} (e : event) (r : run A) (k : A -> run B) (a : A) :
  snd r = Done a -> In e (fst (k a)) -> In e (fst (rbind r k)).
Proof.
  intros Hr H. rewrite fst_rbind, Hr. apply in_or_app. right. exact H.
Qed.

Lemma dump_symdefs_enters host v buf base header offset file_start :
  In (Enters_dump_symdefs (header - file_start) offset)
     (fst (dump_symdefs host v buf base header offset file_start)).
Proof.
  unfold dump_symdefs. apply in_fst_rbind_l. left. reflexivity.
Qed.

(** A comparison over 0 bytes finds no difference. *)
Lemma is_symdef_name_0 buf base (name : Z) :
  is_symdef_name buf base name 0 = Done true.
Proof. reflexivity. Qed.

(** The two ways to a name of length 0. *)
Lemma arobj_name_loop_nul buf base (left : nat) (p len : Z) (c : ascii) :
  load8 buf base p = Done c -> is_nul c = true ->
  arobj_name_loop buf base left p len = Done len.
Proof.
  intros Hc Hnul. destruct left; cbn [arobj_name_loop];
    rewrite Hc; cbn [obind]; rewrite Hnul; reflexivity.
Qed.

Lemma arobj_name_nul_first buf base (header : Z) (c : ascii) :
  load8 buf base header = Done c -> is_nul c = true ->
  arobj_name buf base header = Done (false, header + off_ar_name, 0).
Proof.
  intros Hc Hnul. unfold arobj_name, off_ar_name. rewrite Z.add_0_r.
  assert (Hcmp : strncmp buf base header AR_EFMT1 3 = Done (0 - 35)).
  { unfold AR_EFMT1. cbn [strncmp Z.leb Z.compare]. rewrite Hc. cbn [obind].
    unfold is_nul in Hnul. apply Z.eqb_eq in Hnul. rewrite Hnul. reflexivity. }
  rewrite Hcmp. cbn [obind]. change (negb (0 - 35 =? 0)) with true. cbv iota.
  rewrite (arobj_name_loop_nul buf base _ header 0 c Hc Hnul). reflexivity.
Qed.

Lemma arobj_name_marker_no_digits buf base (header : Z) (c : ascii) (rest : list ascii) :
  begins_with_marker buf base header ->
  tail_from buf base (header + off_ar_name + 3) = Done (c :: rest) ->
  isspace c = false -> isdigit c = false ->
  (byte_val c =? 45) = false -> (byte_val c =? 43) = false ->
  arobj_name buf base header = Done (true, header + sizeof_ar_hdr, 0).
Proof.
  intros Hmark Htail Hspace Hdigit Hminus Hplus. unfold arobj_name.
  rewrite (strncmp_marker_0 buf base header Hmark). cbn [obind Z.eqb negb].
  unfold atoi, scan_at. rewrite Htail. cbn [obind].
  unfold strtol_scan. cbn [scan_number]. rewrite Hspace.
  unfold scan_sign. rewrite Hminus, Hplus. cbn [scan_digits]. rewrite Hdigit.
  reflexivity.
Qed.

(** C10, as the code has it.  On a turn of the loop where the name resolves
    to length 0 and, with [g_verbose] set, where the listing of the member
    went through, the walker enters [dump_symdefs] on that member, with an
    offset of 0: the entry is in the trace of the turn, and in the trace of
    the loop when the loop is at this header, before [contents_end]. *)
Theorem empty_name_enters_dump_symdefs :
  forall host v buf base contents file_start is_bsd_name name,
    arobj_name buf base contents = Done (is_bsd_name, name, 0) ->
    (v = true -> snd (dump_obj buf base contents) = Done tt) ->
    In (Enters_dump_symdefs (contents - file_start) 0)
       (fst (dump_member host v buf base contents file_start)) /\
    (forall fuel contents_end,
       contents < contents_end ->
       In (Enters_dump_symdefs (contents - file_start) 0)
          (fst (dump_loop host v buf base (S fuel) contents contents_end file_start))).
Proof.
  intros host v buf base contents file_start is_bsd_name name Hname Hobj.
  assert (Hturn : In (Enters_dump_symdefs (contents - file_start) 0)
                     (fst (dump_member host v buf base contents file_start))).
  { unfold dump_member.
    apply (in_fst_rbind_r _ _ _ tt).
    { destruct v; [apply Hobj; reflexivity | reflexivity]. }
    apply (in_fst_rbind_r _ _ _ (is_bsd_name, name, 0)); [exact Hname | ].
    apply (in_fst_rbind_r _ _ _ true); [apply is_symdef_name_0 | ].
    apply in_fst_rbind_l.
    replace (if is_bsd_name then 0 else 0) with 0 by (destruct is_bsd_name; reflexivity).
    apply dump_symdefs_enters. }
  split; [exact Hturn | ].
  intros fuel contents_end Hlt. cbn [dump_loop].
  replace (contents <? contents_end) with true by (symmetry; apply Z.ltb_lt; exact Hlt).
  apply in_fst_rbind_l. exact Hturn.
Qed.

Lemma empty_name_enters_dump_symdefs_witness :
  In (Enters_dump_symdefs (8 - 0) 0)
     (fst (dump_member LittleEndian true nameless_member 0 8 0)) /\
  (forall fuel contents_end,
     8 < contents_end ->
     In (Enters_dump_symdefs (8 - 0) 0)
        (fst (dump_loop LittleEndian true nameless_member 0 (S fuel) 8 contents_end 0))).
Proof.
  apply (empty_name_enters_dump_symdefs LittleEndian true nameless_member 0 8 0
           false (8 + off_ar_name)).
  - vm_compute. reflexivity.
  - intros _. vm_compute. reflexivity.
Defined.

(** C10, as the spec has it, fails with [-v] on [nameless_bad_fmag]: the
    name of the member resolves to length 0, the listing of the member ends in
    [fatal("unexpected ar_fmag\n")], and [dump_symdefs] is not entered. *)
Lemma empty_name_is_not_decoded_after_a_bad_terminator :
  arobj_name nameless_bad_fmag 0 8 = Done (false, 8, 0) /\
  snd (scan LittleEndian true nameless_bad_fmag 0 1) = Fatal fmag_msg /\
  decoder_entries (fst (scan LittleEndian true nameless_bad_fmag 0 1)) = [] /\
  decoder_entries (fst (scan LittleEndian false nameless_bad_fmag 0 1)) = [(8, 0)].
Proof. repeat split; vm_compute; reflexivity. Qed.

(** The same on the two kinds of empty name, run to the end. *)
Example nameless_member_is_decoded :
  arobj_name nameless_member 0 8 = Done (false, 8, 0) /\
  scan LittleEndian false nameless_member 0 1 = ([Enters_dump_symdefs 8 0], Done tt).
Proof. split; vm_compute; reflexivity. Qed.

Example marker_only_member_is_decoded :
  arobj_name marker_only_member 0 8 = Done (true, 68, 0) /\
  scan LittleEndian false marker_only_member 0 1 = ([Enters_dump_symdefs 8 0], Done tt).
Proof. split; vm_compute; reflexivity. Qed.

(** C4 at a member named [_]: the name is neither [SYMDEF] nor
    [SYMDEF_SORTED], the comparison stops after its single byte, and the
    member is decoded as a symbol index. *)
Theorem one_byte_name_is_decoded :
  arobj_name underscore_member 0 8 = Done (true, 68, 1) /\
  memcpy underscore_member 0 68 1 = Done (bytes "_") /\
  is_symdef_name underscore_member 0 68 1 = Done true /\
  scan LittleEndian false underscore_member 0 1 = ([Enters_dump_symdefs 8 1], Done tt) /\
  stdout_of (fst (dump_symdefs LittleEndian true underscore_member 0 8 1 0))
  = "0 ranlibs" ++ nl.
Proof. repeat split; vm_compute; reflexivity. Qed.

(** * The memory around the buffer

    [dump] is given the end of the file, [contents_end], but reads through
    pointers that nothing keeps inside the file.  The functions of the model
    are run here on the bytes of the file with whatever bytes the memory holds
    [before] and [beyond] them: as long as the run on the file alone reads no
    byte outside of it, the run on the larger memory does the same thing. *)

Lemma unless_outside_refl {A : Type} (o : outcome A) : unless_outside o o.
Proof. destruct o; simpl; auto. Qed.

Lemma unless_outside_bind {A B : Type} (o1 o2 : outcome A) (k1 k2 : A -> outcome B) :
  unless_outside o1 o2 ->
  (forall a, unless_outside (k1 a) (k2 a)) ->
  unless_outside (obind o1 k1) (obind o2 k2).
Proof.
  destruct o1 as [a | m | off | ]; simpl; intros H Hk; try exact I.
  - subst o2. simpl. apply Hk.
  - subst o2. reflexivity.
  - subst o2. reflexivity.
Qed.




Lemma scan_cstring_app (l c : list ascii) (s : string) :
  scan_cstring l = Some s -> scan_cstring (l ++ c) = Some s.
Proof.
  revert s. induction l as [ | x l IH]; intros s; cbn [scan_cstring app];
    [discriminate | ].
  destruct (is_nul x); [auto | ].
  destruct (scan_cstring l) as [s' | ]; cbn [option_map]; [ | discriminate].
  intros [= <-]. rewrite (IH s' eq_refl). reflexivity.
Qed.






Section Frame.

Variable host : endian.
Variable v : bool.
Variable before file beyond : list ascii.
Variable base : Z.

Local Abbreviation memory := (before ++ file ++ beyond)%list.
Local Abbreviation mbase := (base - Z.of_nat (List.length before)).

Lemma load8_frame (p : Z) :
  unless_outside (load8 file base p) (load8 memory mbase p).
Proof.
  unfold load8. destruct (0 <=? p - base) eqn:E0; [ | exact I].
  apply Z.leb_le in E0.
  destruct (nth_error file (Z.to_nat (p - base))) as [c | ] eqn:E; [ | exact I].
  simpl. replace (0 <=? p - mbase) with true by (symmetry; apply Z.leb_le; lia).
  replace (Z.to_nat (p - mbase))
    with (List.length before + Z.to_nat (p - base))%nat by lia.
  rewrite nth_error_app2 by lia.
  replace (List.length before + Z.to_nat (p - base) - List.length before)%nat
    with (Z.to_nat (p - base)) by lia.
  rewrite nth_error_app1; [rewrite E; reflexivity | ].
  apply nth_error_Some. rewrite E. discriminate.
Qed.

Lemma load32_frame (p : Z) :
  unless_outside (load32 host file base p) (load32 host memory mbase p).
Proof.
  unfold load32.
  repeat (apply unless_outside_bind; [apply load8_frame | intros ?]).
  apply unless_outside_refl.
Qed.

(** The bytes from [p] on, in the file and in the memory. *)
Lemma tail_from_frame (p : Z) (l : list ascii) :
  tail_from file base p = Done l ->
  tail_from memory mbase p = Done (l ++ beyond)%list.
Proof.
  unfold tail_from, buf_len. rewrite !length_app.
  destruct ((0 <=? p - base) && (p - base <=? Z.of_nat (List.length file))) eqn:E;
    [ | discriminate].
  apply andb_true_iff in E as [E1 E2]. apply Z.leb_le in E1, E2.
  intros [= <-].
  replace ((0 <=? p - mbase)
           && (p - mbase
               <=? Z.of_nat (List.length before
                             + (List.length file + List.length beyond))))
    with true by (symmetry; apply andb_true_iff; split; apply Z.leb_le; lia).
  replace (Z.to_nat (p - mbase))
    with (List.length before + Z.to_nat (p - base))%nat by lia.
  rewrite skipn_app, skipn_all2 by lia.
  replace (List.length before + Z.to_nat (p - base) - List.length before)%nat
    with (Z.to_nat (p - base)) by lia.
  cbn [app]. rewrite skipn_app.
  replace (Z.to_nat (p - base) - List.length file)%nat with 0%nat by lia.
  reflexivity.
Qed.


Lemma memcpy_frame (p n : Z) :
  unless_outside (memcpy file base p n) (memcpy memory mbase p n).
Proof.
  unfold memcpy. destruct (n <=? 0) eqn:En; [reflexivity | ].
  destruct (tail_from file base p) as [l | | | ] eqn:E; try exact I;
    try (unfold tail_from in E;
         destruct ((0 <=? p - base) && (p - base <=? buf_len file)); discriminate).
  rewrite (tail_from_frame p l E). cbn [obind].
  destruct (n <=? Z.of_nat (List.length l)) eqn:E'; [ | exact I].
  apply Z.leb_le in E'. rewrite (length_app l beyond).
  replace (n <=? Z.of_nat (List.length l + List.length beyond)) with true
    by (symmetry; apply Z.leb_le; lia).
  simpl. rewrite firstn_app.
  replace (Z.to_nat n - List.length l)%nat with 0%nat by lia.
  rewrite firstn_0, app_nil_r. reflexivity.
Qed.

Lemma strncmp_frame (lit : string) :
  forall p n, unless_outside (strncmp file base p lit n) (strncmp memory mbase p lit n).
Proof.
  induction lit as [ | c2 lit IH]; intros p n; cbn [strncmp];
    destruct (n <=? 0); try reflexivity;
    (apply unless_outside_bind; [apply load8_frame | intros c1]);
    try apply unless_outside_refl.
  destruct (byte_val c1 =? byte_val c2); [ | reflexivity].
  destruct (is_nul c1); [reflexivity | apply IH].
Qed.




Lemma arobj_size_frame (header : Z) :
  unless_outside (arobj_size file base header) (arobj_size memory mbase header).
Proof.
  unfold arobj_size. apply unless_outside_bind; [apply memcpy_frame | ].
  intros field. reflexivity.
Qed.










End Frame.

Lemma scan_in_memory_alone host v file base fuel :
  scan_in_memory host v [] file [] base fuel = scan host v file base fuel.
Proof.
  unfold scan_in_memory, scan. cbn [app List.length Z.of_nat].
  rewrite app_nil_r, Z.sub_0_r. reflexivity.
Qed.


(** ** The walk over the headers ends *)

Lemma dump_loop_walk host v before file beyond base file_start (turns : nat) :
  forall fuel off,
    walk_advances file turns off = true ->
    (turns <= fuel)%nat ->
    finished
      (snd (dump_loop host v (before ++ file ++ beyond)
              (base - Z.of_nat (List.length before)) fuel (base + off)
              (base + buf_len file) file_start)).
Proof.
  induction turns as [ | turns IH]; intros fuel off Hwalk Hfuel;
    cbn [walk_advances] in Hwalk;
    destruct (off <? buf_len file) eqn:Hlt.
  - discriminate.
  - destruct fuel; cbn [dump_loop];
      replace (base + off <? base + buf_len file) with false
        by (symmetry; apply Z.ltb_ge; apply Z.ltb_ge in Hlt; lia); exact I.
  - destruct fuel as [ | fuel]; [lia | ]. cbn [dump_loop].
    replace (base + off <? base + buf_len file) with true
      by (symmetry; apply Z.ltb_lt; apply Z.ltb_lt in Hlt; lia).
    destruct (arobj_size file 0 off) as [size | | | ] eqn:Hsize; try discriminate.
    apply andb_true_iff in Hwalk as [Hpos Hwalk].
    apply finished_rbind; [apply dump_member_finished | ].
    intros next Hnext. apply dump_member_Done in Hnext as (size' & Hsize' & ->).
    pose proof (arobj_size_frame before file beyond base (base + off)) as Hframe.
    rewrite (arobj_size_rebase file base 0 (base + off) off) in Hframe by lia.
    rewrite Hsize in Hframe. cbn [unless_outside] in Hframe.
    rewrite Hsize' in Hframe. injection Hframe as <-.
    replace (base + off + size) with (base + (off + size)) by lia.
    apply IH; [exact Hwalk | lia].
  - destruct fuel; cbn [dump_loop];
      replace (base + off <? base + buf_len file) with false
        by (symmetry; apply Z.ltb_ge; apply Z.ltb_ge in Hlt; lia); exact I.
Qed.

Lemma scan_in_memory_finished host v before file beyond base fuel :
  walk_advances file (List.length file) SARMAG = true ->
  (List.length file <= fuel)%nat ->
  finished (snd (scan_in_memory host v before file beyond base fuel)).
Proof.
  intros Hwalk Hfuel. unfold scan_in_memory, dump.
  finished_step (buf_len (before ++ file ++ beyond)).
  apply finished_rbind.
  - match goal with |- context [if ?b then _ else _] => destruct b end;
      [ | exact I].
    finished_step (buf_len (before ++ file ++ beyond)).
    apply finished_rbind; [ | intros; exact I].
    match goal with |- context [if ?b then _ else _] => destruct b end; exact I.
  - intros _ _. apply dump_loop_walk with (turns := List.length file);
      [exact Hwalk | exact Hfuel].
Qed.

(** C5, as the code has it.  When every member header that the walk comes
    to, from the header after the magic on, has its size field inside the
    file and a total size above 0, the scan ends within as many turns of the
    loop as the file has bytes, whatever the memory holds before and after
    the file: it returns, or stops in [fatal], or reads an address that is
    not mapped.  Bytes that are not the size field of a header of the walk
    may be anything. *)
Theorem scan_terminates_when_the_walk_advances :
  forall host v file fuel,
    walk_advances file (List.length file) SARMAG = true ->
    (List.length file <= fuel)%nat ->
    forall before beyond base,
      snd (scan_in_memory host v before file beyond base fuel) <> OutOfFuel /\
      snd (scan host v file base fuel) <> OutOfFuel.
Proof.
  intros host v file fuel Hwalk Hfuel before beyond base.
  pose proof (scan_in_memory_finished host v before file beyond base fuel Hwalk Hfuel)
    as H1.
  pose proof (scan_in_memory_finished host v [] file [] base fuel Hwalk Hfuel) as H2.
  rewrite scan_in_memory_alone in H2.
  split; intros Hout; [rewrite Hout in H1; exact H1 | rewrite Hout in H2; exact H2].
Qed.

(** The payload of the member of this archive is the text [-60]: not every
    offset of the file is that of a header with a total size above 0
    ([advances] fails), the headers of the walk are. *)
Lemma scan_terminates_when_the_walk_advances_witness :
  advances (archive_of [minus_sixty_payload]) = false /\
  snd (scan_in_memory LittleEndian true (zeros 4)
         (archive_of [minus_sixty_payload]) (zeros 50) 4096 78) <> OutOfFuel /\
  snd (scan LittleEndian true (archive_of [minus_sixty_payload]) 4096 78) <> OutOfFuel.
Proof.
  split; [vm_compute; reflexivity | ].
  apply (scan_terminates_when_the_walk_advances LittleEndian true
           (archive_of [minus_sixty_payload]) 78).
  - vm_compute. reflexivity.
  - vm_compute. repeat constructor.
Defined.

(** ** Two runs on the same bytes *)




(** * Further properties of the code *)

(** ** [printn] and [mprintn] *)

Lemma append_empty_r (s : string) : (s ++ "")%string = s.
Proof. induction s as [ | c s IH]; simpl; [ | rewrite IH]; reflexivity. Qed.

Lemma scan_printn_inside (l : list ascii) :
  forall n, 0 <= n <= Z.of_nat (List.length l) ->
    scan_printn l n = (until_nul (firstn (Z.to_nat n) l), true).
Proof.
  induction l as [ | c l IH]; intros n Hn; cbn [scan_printn].
  - cbn [List.length Z.of_nat] in Hn. replace n with 0 by lia. reflexivity.
  - destruct (n <=? 0) eqn:E.
    + apply Z.leb_le in E. replace n with 0 by lia. reflexivity.
    + apply Z.leb_gt in E. cbn [List.length] in Hn.
      replace (Z.to_nat n) with (S (Z.to_nat (n - 1))) by lia.
      cbn [firstn until_nul]. destruct (is_nul c); [reflexivity | ].
      rewrite IH by lia. reflexivity.
Qed.

Lemma scan_printn_stops (pre : list ascii) (c0 : ascii) (rest : list ascii) :
  Forall (fun c => is_nul c = false) pre -> is_nul c0 = true ->
  forall n, Z.of_nat (List.length pre) < n ->
    scan_printn (pre ++ c0 :: rest) n = (string_of_list_ascii pre, true).
Proof.
  intros Hpre Hc0. induction Hpre as [ | c pre Hc _ IH]; intros n Hn;
    cbn [app scan_printn string_of_list_ascii List.length] in *.
  - destruct (n <=? 0) eqn:E; [apply Z.leb_le in E; simpl in Hn; lia | ].
    rewrite Hc0. reflexivity.
  - destruct (n <=? 0) eqn:E; [apply Z.leb_le in E; lia | ].
    rewrite Hc. rewrite IH by lia. reflexivity.
Qed.

(** X1.  When the [n] bytes at [str] lie in the buffer, [printn(str, n)]
    returns and has written those bytes up to the first NUL among them, or
    all of them when there is none. *)
Theorem printn_prints_up_to_nul :
  forall buf base str n l,
    memcpy buf base str n = Done l ->
    snd (printn buf base str n) = Done tt /\
    stdout_of (fst (printn buf base str n)) = until_nul l.
Proof.
  intros buf base str n l. unfold memcpy, printn.
  destruct (n <=? 0) eqn:E; [intros [= <-]; split; reflexivity | ].
  destruct (tail_from buf base str) as [l0 | | | ]; cbn [obind]; try discriminate.
  destruct (n <=? Z.of_nat (List.length l0)) eqn:E'; [ | discriminate].
  intros [= <-]. apply Z.leb_gt in E. apply Z.leb_le in E'.
  rewrite scan_printn_inside by lia. cbn [fst snd stdout_of].
  split; [reflexivity | apply append_empty_r].
Qed.

Lemma printn_prints_up_to_nul_witness :
  snd (printn plain_member 0 8 16) = Done tt /\
  stdout_of (fst (printn plain_member 0 8 16)) = until_nul (field " " 16 "hello.o").
Proof.
  apply (printn_prints_up_to_nul plain_member 0 8 16 (field " " 16 "hello.o")).
  vm_compute. reflexivity.
Defined.

(** X2.  [printn] does not read after a NUL: when the bytes from [str] on
    are [pre], free of NUL, then a NUL, any [n] above the length of [pre]
    prints [pre] and returns, wherever the buffer ends after that NUL. *)
Theorem printn_stops_at_nul :
  forall buf base str n pre c0 rest,
    tail_from buf base str = Done (pre ++ c0 :: rest)%list ->
    Forall (fun c => is_nul c = false) pre ->
    is_nul c0 = true ->
    Z.of_nat (List.length pre) < n ->
    printn buf base str n = ([Stdout (string_of_list_ascii pre)], Done tt).
Proof.
  intros buf base str n pre c0 rest Htail Hpre Hc0 Hn. unfold printn.
  destruct (n <=? 0) eqn:E; [apply Z.leb_le in E; lia | ].
  rewrite Htail. rewrite (scan_printn_stops pre c0 rest Hpre Hc0 n Hn).
  reflexivity.
Qed.

Lemma printn_stops_at_nul_witness :
  printn underscore_member 0 68 1000 = ([Stdout (string_of_list_ascii (bytes "_"))], Done tt).
Proof.
  apply (printn_stops_at_nul underscore_member 0 68 1000
           (bytes "_") Ascii.zero (zeros 7)).
  - vm_compute. reflexivity.
  - repeat constructor.
  - reflexivity.
  - vm_compute. reflexivity.
Defined.

(** ** What [arobj_name] can return *)

Lemma arobj_name_loop_range buf base (left : nat) :
  forall p len r,
    arobj_name_loop buf base left p len = Done r ->
    len <= r <= len + Z.of_nat left.
Proof.
  induction left as [ | left IH]; intros p len r; cbn [arobj_name_loop];
    destruct (load8 buf base p) as [c | | | ]; cbn [obind]; try discriminate;
    destruct (is_nul c); try (intros [= <-]; lia).
  intros H. apply IH in H. lia.
Qed.

Lemma to_int_range (z : Z) : - 2 ^ 31 <= to_int z < 2 ^ 31.
Proof.
  unfold to_int. pose proof (Z.mod_pos_bound (z + 2 ^ 31) (2 ^ 32)). lia.
Qed.

Lemma to_size_t_negative (z : Z) :
  - 2 ^ 64 <= z < 0 -> to_size_t z = z + 2 ^ 64.
Proof.
  intros H. unfold to_size_t.
  rewrite <- (Z_mod_plus_full z 1 (2 ^ 64)).
  apply Z.mod_small. lia.
Qed.

(** X3.  Whatever the bytes, when [arobj_name] returns, a direct name is the
    name field itself with a length from 0 to 16, and an extended name starts
    right after the header with a length that is an [int] converted to
    [size_t]: below 2^31, or within 2^31 of 2^64. *)
Theorem arobj_name_result_shape :
  forall buf base header is_bsd_name name len,
    arobj_name buf base header = Done (is_bsd_name, name, len) ->
    if is_bsd_name then
      name = header + sizeof_ar_hdr /\
      (0 <= len < 2 ^ 31 \/ 2 ^ 64 - 2 ^ 31 <= len < 2 ^ 64)
    else
      name = header + off_ar_name /\ 0 <= len <= sizeof_ar_name.
Proof.
  intros buf base header is_bsd_name name len. unfold arobj_name.
  destruct (strncmp buf base (header + off_ar_name) AR_EFMT1 3) as [r | | | ];
    cbn [obind]; try discriminate.
  destruct (negb (r =? 0)).
  - destruct (arobj_name_loop buf base (Z.to_nat sizeof_ar_name) (header + off_ar_name) 0)
      as [k | | | ] eqn:Hk; cbn [obind]; try discriminate.
    intros [= <- <- <-]. apply arobj_name_loop_range in Hk.
    unfold sizeof_ar_name in *. simpl in Hk. split; [reflexivity | lia].
  - unfold atoi.
    destruct (scan_at buf base strtol_scan (header + off_ar_name + 3)) as [z | | | ];
      cbn [obind]; try discriminate.
    intros [= <- <- <-]. split; [reflexivity | ].
    pose proof (to_int_range z) as Hz.
    destruct (Z_lt_le_dec (to_int z) 0) as [Hneg | Hpos].
    + right. rewrite to_size_t_negative by lia. lia.
    + left. rewrite to_size_t_small by lia. lia.
Qed.

Lemma arobj_name_result_shape_witness :
  68 = 8 + sizeof_ar_hdr /\ (0 <= 99 < 2 ^ 31 \/ 2 ^ 64 - 2 ^ 31 <= 99 < 2 ^ 64).
Proof.
  apply (arobj_name_result_shape long_name_promised 0 8 true 68 99).
  vm_compute. reflexivity.
Defined.

(** X4.  A length written with a minus sign is taken as it is: when the
    marker is followed by [-], the digits of [L] (from 1 to 2^31) and a byte
    that is no digit, the length returned is [2^64 - L]. *)
Theorem arobj_name_negative_length :
  forall buf base header ds c rest,
    begins_with_marker buf base header ->
    tail_from buf base (header + off_ar_name + 3)
      = Done ("-"%char :: ds ++ c :: rest)%list ->
    ds <> [] ->
    Forall (fun d => isdigit d = true) ds ->
    isdigit c = false ->
    0 < decimal ds <= 2 ^ 31 ->
    arobj_name buf base header
    = Done (true, header + sizeof_ar_hdr, 2 ^ 64 - decimal ds).
Proof.
  intros buf base header ds c rest Hmark Htail Hne Hds Hc Hrange.
  unfold arobj_name.
  rewrite (strncmp_marker_0 buf base header Hmark). cbn [obind Z.eqb negb].
  unfold atoi, scan_at. rewrite Htail. cbn [obind].
  unfold strtol_scan. cbn [scan_number].
  change (isspace "-") with false. cbv iota.
  unfold scan_sign. change (byte_val "-" =? 45) with true. cbv iota.
  rewrite (scan_digits_run ds c rest Hds Hc 0).
  fold (decimal ds). cbn [option_map obind].
  rewrite clamp_long_small by (unfold LONG_MIN, LONG_MAX; lia).
  replace (to_int (- decimal ds)) with (- decimal ds).
  - rewrite to_size_t_negative by lia. do 2 f_equal. lia.
  - unfold to_int.
    destruct (Z.eq_dec (decimal ds) (2 ^ 31)) as [-> | Hlt]; [reflexivity | ].
    rewrite Z.mod_small; lia.
Qed.

Lemma arobj_name_negative_length_witness :
  arobj_name negative_length_member 0 8
  = Done (true, 8 + sizeof_ar_hdr, 2 ^ 64 - decimal (bytes "5")).
Proof.
  apply (arobj_name_negative_length negative_length_member
           0 8 (bytes "5") " "%char
           (skipn 6 (header_of "#1/-5" "0" ARFMAG))).
  - vm_compute. auto.
  - vm_compute. reflexivity.
  - discriminate.
  - repeat constructor.
  - reflexivity.
  - vm_compute. split; [reflexivity | discriminate].
Defined.

(** ** What [strncmp] against a literal decides *)

Lemma skipn_cons_nth {A : Type} (k : nat) :
  forall (l : list A) (c : A) (l' : list A),
    skipn k l = c :: l' -> nth_error l k = Some c /\ skipn (S k) l = l'.
Proof.
  induction k as [ | k IH]; intros l c l' H.
  - destruct l as [ | a l]; [discriminate | ]. injection H as -> ->. auto.
  - destruct l as [ | a l]; [discriminate | ]. apply IH in H. exact H.
Qed.

(** The first of [n] bytes copied, and the copy of the others. *)
Lemma memcpy_cons buf base (p n : Z) (l : list ascii) :
  0 < n -> memcpy buf base p n = Done l ->
  exists c l', l = c :: l' /\ load8 buf base p = Done c /\
               memcpy buf base (p + 1) (n - 1) = Done l'.
Proof.
  intros Hn. unfold memcpy, tail_from.
  destruct (n <=? 0) eqn:E; [apply Z.leb_le in E; lia | ].
  destruct ((0 <=? p - base) && (p - base <=? buf_len buf)) eqn:Hin;
    cbn [obind]; [ | discriminate].
  apply andb_true_iff in Hin as [Hlo Hhi]. apply Z.leb_le in Hlo, Hhi.
  destruct (n <=? Z.of_nat (List.length (skipn (Z.to_nat (p - base)) buf))) eqn:E';
    [ | discriminate].
  apply Z.leb_le in E'. intros [= <-].
  destruct (skipn (Z.to_nat (p - base)) buf) as [ | c l0] eqn:Hskip;
    [simpl in E'; lia | ].
  apply skipn_cons_nth in Hskip as [Hnth Hskip'].
  exists c, (firstn (Z.to_nat (n - 1)) l0). split; [ | split].
  - replace (Z.to_nat n) with (S (Z.to_nat (n - 1))) by lia. reflexivity.
  - unfold load8. destruct (0 <=? p - base) eqn:E0; [ | apply Z.leb_gt in E0; lia].
    rewrite Hnth. reflexivity.
  - cbn [List.length] in E'.
    assert (Hlen : (Z.to_nat (p - base) < List.length buf)%nat)
      by (apply nth_error_Some; rewrite Hnth; discriminate).
    unfold buf_len in *.
    destruct (n - 1 <=? 0) eqn:E1.
    + apply Z.leb_le in E1. replace (n - 1) with 0 by lia. reflexivity.
    + replace ((0 <=? p + 1 - base) && (p + 1 - base <=? Z.of_nat (List.length buf)))
        with true by (symmetry; apply andb_true_iff; split; apply Z.leb_le; lia).
      cbn [obind]. replace (Z.to_nat (p + 1 - base)) with (S (Z.to_nat (p - base))) by lia.
      rewrite Hskip'.
      replace (n - 1 <=? Z.of_nat (List.length l0)) with true
        by (symmetry; apply Z.leb_le; lia).
      reflexivity.
Qed.

Lemma memcpy_0 buf base (p : Z) (l : list ascii) :
  memcpy buf base p 0 = Done l -> l = [].
Proof. unfold memcpy. cbn [Z.leb Z.compare]. intros [= <-]. reflexivity. Qed.

Lemma until_nul_empty (c : ascii) (l : list ascii) :
  until_nul (c :: l) = "" <-> is_nul c = true.
Proof.
  cbn [until_nul]. destruct (is_nul c); split; intros H; try reflexivity;
    discriminate.
Qed.

(** [strncmp] against a literal that holds no NUL, over [n] bytes that lie
    in the buffer: it returns, and it returns 0 exactly when those bytes,
    cut at their first NUL, are the first [n] bytes of the literal. *)
Lemma strncmp_spec buf base (lit : string) :
  no_nul lit ->
  forall p n l,
    0 <= n -> memcpy buf base p n = Done l ->
    exists r,
      strncmp buf base p lit n = Done r /\
      (r = 0 <-> until_nul l = substring 0 (Z.to_nat n) lit).
Proof.
  unfold no_nul. induction lit as [ | c2 lit IH]; intros Hlit p n l Hn Hl.
  - cbn [strncmp]. destruct (n <=? 0) eqn:E.
    + apply Z.leb_le in E. replace n with 0 in * by lia.
      apply memcpy_0 in Hl as ->. exists 0. split; [reflexivity | ].
      split; reflexivity.
    + apply Z.leb_gt in E.
      destruct (memcpy_cons buf base p n l E Hl) as (c & l' & -> & Hc & _).
      rewrite Hc. cbn [obind]. exists (byte_val c). split; [reflexivity | ].
      replace (substring 0 (Z.to_nat n) "") with ""
        by (destruct (Z.to_nat n); reflexivity).
      rewrite until_nul_empty. unfold is_nul. rewrite Z.eqb_eq. reflexivity.
  - cbn [list_ascii_of_string] in Hlit.
    pose proof (Forall_inv Hlit) as Hc2. pose proof (Forall_inv_tail Hlit) as Hlit'.
    cbn beta in Hc2.
    cbn [strncmp]. destruct (n <=? 0) eqn:E.
    + apply Z.leb_le in E. replace n with 0 in * by lia.
      apply memcpy_0 in Hl as ->. exists 0. split; [reflexivity | ].
      split; reflexivity.
    + apply Z.leb_gt in E.
      destruct (memcpy_cons buf base p n l E Hl) as (c1 & l' & -> & Hc1 & Hl').
      rewrite Hc1. cbn [obind].
      replace (Z.to_nat n) with (S (Z.to_nat (n - 1))) by lia.
      cbn [substring].
      destruct (byte_val c1 =? byte_val c2) eqn:Heq.
      * apply byte_val_eqb in Heq. subst c1. rewrite Hc2.
        destruct (IH Hlit' (p + 1) (n - 1) l') as (r & Hr & Hiff); [lia | exact Hl' | ].
        exists r. split; [exact Hr | ].
        cbn [until_nul]. rewrite Hc2. rewrite Hiff.
        split; [intros ->; reflexivity | intros [= H]; exact H].
      * exists (byte_val c1 - byte_val c2). split; [reflexivity | ].
        apply Z.eqb_neq in Heq. split; [lia | ].
        cbn [until_nul]. destruct (is_nul c1); [discriminate | ].
        intros [= H _]. subst c1. contradiction.
Qed.

Lemma no_nul_SYMDEF : no_nul SYMDEF.
Proof. unfold no_nul. repeat constructor. Qed.

Lemma no_nul_SYMDEF_SORTED : no_nul SYMDEF_SORTED.
Proof. unfold no_nul. repeat constructor. Qed.

Lemma no_nul_ARMAG : no_nul ARMAG.
Proof. unfold no_nul. repeat constructor. Qed.

Lemma no_nul_ARFMAG : no_nul ARFMAG.
Proof. unfold no_nul. repeat constructor. Qed.

(** X5.  When the [name_len] bytes of the name lie in the buffer, the test of
    [dump] for an index member returns, and answers yes exactly when the
    name, cut at its first NUL, is equal to the first [name_len] bytes of
    [SYMDEF] or of [SYMDEF_SORTED]. *)
Theorem is_symdef_name_decides :
  forall buf base name name_len l,
    0 <= name_len ->
    memcpy buf base name name_len = Done l ->
    is_symdef_name buf base name name_len
    = Done ((until_nul l =? substring 0 (Z.to_nat name_len) SYMDEF)%string
            || (until_nul l =? substring 0 (Z.to_nat name_len) SYMDEF_SORTED)%string).
Proof.
  intros buf base name name_len l Hn Hl. unfold is_symdef_name.
  destruct (strncmp_spec buf base SYMDEF no_nul_SYMDEF name name_len l Hn Hl)
    as (r1 & Hr1 & Hiff1).
  destruct (strncmp_spec buf base SYMDEF_SORTED no_nul_SYMDEF_SORTED name name_len l Hn Hl)
    as (r2 & Hr2 & Hiff2).
  rewrite Hr1. cbn [obind].
  destruct (r1 =? 0) eqn:E1.
  - apply Z.eqb_eq in E1. apply Hiff1 in E1. rewrite E1.
    rewrite String.eqb_refl. reflexivity.
  - apply Z.eqb_neq in E1.
    replace (until_nul l =? substring 0 (Z.to_nat name_len) SYMDEF)%string with false
      by (symmetry; apply String.eqb_neq; intros H; apply E1, Hiff1, H).
    rewrite Hr2. cbn [obind orb]. f_equal.
    destruct (r2 =? 0) eqn:E2.
    + apply Z.eqb_eq in E2. apply Hiff2 in E2. rewrite E2.
      symmetry. apply String.eqb_refl.
    + apply Z.eqb_neq in E2. symmetry. apply String.eqb_neq.
      intros H. apply E2, Hiff2, H.
Qed.

Lemma is_symdef_name_decides_witness :
  is_symdef_name indexed_archive 0 68 20
  = Done ((until_nul (bytes SYMDEF_SORTED ++ zeros 4)
             =? substring 0 (Z.to_nat 20) SYMDEF)%string
          || (until_nul (bytes SYMDEF_SORTED ++ zeros 4)
                =? substring 0 (Z.to_nat 20) SYMDEF_SORTED)%string).
Proof.
  apply (is_symdef_name_decides indexed_archive 0 68 20
           (bytes SYMDEF_SORTED ++ zeros 4)%list).
  - vm_compute. discriminate.
  - vm_compute. reflexivity.
Defined.

(** X6.  A name of at least one byte whose first byte is not [_] is never
    taken for an index member, whatever follows that byte. *)
Theorem is_symdef_name_needs_underscore :
  forall buf base name name_len c,
    0 < name_len ->
    load8 buf base name = Done c ->
    c <> "_"%char ->
    is_symdef_name buf base name name_len = Done false.
Proof.
  intros buf base name name_len c Hn Hc Hne.
  assert (E : (name_len <=? 0) = false) by (apply Z.leb_gt; lia).
  assert (Hcmp : (byte_val c =? byte_val "_") = false).
  { apply Z.eqb_neq. intros H. apply Hne, byte_val_inj, H. }
  unfold is_symdef_name, SYMDEF, SYMDEF_SORTED. cbn [strncmp].
  rewrite E, Hc. cbn [obind]. rewrite Hcmp. cbn [obind].
  replace (byte_val c - byte_val "_" =? 0) with false
    by (symmetry; apply Z.eqb_neq; apply Z.eqb_neq in Hcmp; lia).
  reflexivity.
Qed.

Lemma is_symdef_name_needs_underscore_witness :
  is_symdef_name plain_member 0 8 16 = Done false.
Proof.
  apply (is_symdef_name_needs_underscore plain_member 0 8 16 "h"%char).
  - reflexivity.
  - vm_compute. reflexivity.
  - discriminate.
Defined.

(** ** The size of a member *)

Lemma pow10_pos (k : nat) : 0 < 10 ^ Z.of_nat k.
Proof. apply Z.pow_pos_nonneg; lia. Qed.

Lemma pow10_mono (j k : nat) : (j <= k)%nat -> 10 ^ Z.of_nat j <= 10 ^ Z.of_nat k.
Proof. intros H. apply Z.pow_le_mono_r; lia. Qed.

Lemma scan_digits_bound (l : list ascii) :
  forall acc z,
    0 <= acc -> scan_digits l acc = Some z ->
    acc <= z < (acc + 1) * 10 ^ Z.of_nat (pred (List.length l)).
Proof.
  induction l as [ | c l IH]; intros acc z Hacc; cbn [scan_digits]; [discriminate | ].
  destruct (isdigit c) eqn:Hd.
  - intros H. apply isdigit_range in Hd.
    assert (Hl : l <> []) by (intros ->; discriminate).
    apply IH in H; [ | unfold digit_val; lia].
    destruct l as [ | c' l']; [contradiction | ].
    cbn [List.length pred] in H |- *.
    rewrite Nat2Z.inj_succ, Z.pow_succ_r by lia.
    pose proof (pow10_pos (List.length l')). unfold digit_val in H. nia.
  - intros [= <-]. pose proof (pow10_pos (pred (List.length (c :: l)))). nia.
Qed.

Lemma scan_sign_bound (l : list ascii) (z : Z) :
  scan_sign l = Some z ->
  - 10 ^ Z.of_nat (pred (pred (List.length l))) < z
  < 10 ^ Z.of_nat (pred (List.length l)).
Proof.
  unfold scan_sign. destruct l as [ | c l]; [discriminate | ].
  cbn [List.length pred].
  pose proof (pow10_pos (pred (List.length l))) as Hp1.
  pose proof (pow10_pos (List.length l)) as Hp2.
  pose proof (pow10_mono (pred (List.length l)) (List.length l) (Nat.le_pred_l _)) as Hm.
  destruct (byte_val c =? 45).
  - destruct (scan_digits l 0) as [z' | ] eqn:H; [ | discriminate].
    intros [= <-]. apply scan_digits_bound in H; lia.
  - destruct (byte_val c =? 43).
    + intros H. apply scan_digits_bound in H; lia.
    + intros H. apply scan_digits_bound in H; [ | lia].
      cbn [List.length pred] in H. lia.
Qed.

Lemma scan_number_bound (l : list ascii) :
  forall z,
    scan_number l = Some z ->
    - 10 ^ Z.of_nat (pred (pred (List.length l))) < z
    < 10 ^ Z.of_nat (pred (List.length l)).
Proof.
  induction l as [ | c l IH]; intros z; [discriminate | ].
  cbn [scan_number]. destruct (isspace c).
  - intros H. apply IH in H. cbn [List.length pred].
    pose proof (pow10_mono (pred (pred (List.length l))) (pred (List.length l))
                  (Nat.le_pred_l _)).
    pose proof (pow10_mono (pred (List.length l)) (List.length l) (Nat.le_pred_l _)).
    lia.
  - apply scan_sign_bound.
Qed.

(** What [strtoll] can read in the ten bytes of a size field. *)
Lemma strtoll_local_bound (field : list ascii) :
  List.length field = 10%nat ->
  - 10 ^ 9 < strtoll_local field < 10 ^ 10.
Proof.
  intros Hlen. unfold strtoll_local, strtol_scan.
  destruct (scan_number (field ++ [Ascii.zero])%list) as [z | ] eqn:H;
    cbn [option_map]; [ | lia].
  apply scan_number_bound in H. rewrite length_app, Hlen in H.
  cbn [List.length Nat.add pred] in H.
  change (Z.of_nat 9) with 9 in H. change (Z.of_nat 10) with 10 in H.
  rewrite clamp_long_small; [exact H | ].
  unfold LONG_MIN, LONG_MAX. lia.
Qed.

Lemma memcpy_inside buf base (p n : Z) :
  0 <= p - base -> 0 <= n -> p - base + n <= buf_len buf ->
  exists l, memcpy buf base p n = Done l.
Proof.
  intros Hlo Hn Hhi. unfold memcpy, tail_from.
  destruct (n <=? 0); [eexists; reflexivity | ].
  replace ((0 <=? p - base) && (p - base <=? buf_len buf)) with true
    by (symmetry; apply andb_true_iff; split; apply Z.leb_le; lia).
  cbn [obind].
  replace (n <=? Z.of_nat (List.length (skipn (Z.to_nat (p - base)) buf))) with true.
  - eexists; reflexivity.
  - symmetry. apply Z.leb_le. rewrite length_skipn. unfold buf_len in Hhi. lia.
Qed.

(** X7.  When the size field of a header lies in the buffer, [arobj_size]
    returns, and whatever the ten bytes are the total size is above
    60 - 10^9 and below 60 + 10^10: moving [contents] by it cannot overflow
    a 64-bit pointer difference. *)
Theorem arobj_size_is_bounded :
  forall buf base header,
    0 <= header - base + off_ar_size ->
    header - base + off_ar_size + sizeof_ar_size <= buf_len buf ->
    exists size,
      arobj_size buf base header = Done size /\
      sizeof_ar_hdr - 10 ^ 9 < size < sizeof_ar_hdr + 10 ^ 10.
Proof.
  intros buf base header Hlo Hhi.
  destruct (memcpy_inside buf base (header + off_ar_size) sizeof_ar_size)
    as [field Hfield]; [lia | unfold sizeof_ar_size; lia | lia | ].
  unfold arobj_size. rewrite Hfield. cbn [obind].
  exists (strtoll_local field + sizeof_ar_hdr). split; [reflexivity | ].
  apply memcpy_length in Hfield; [ | unfold sizeof_ar_size; lia].
  unfold sizeof_ar_size in Hfield.
  assert (Hlen : List.length field = 10%nat) by lia.
  pose proof (strtoll_local_bound field Hlen). lia.
Qed.

Lemma arobj_size_is_bounded_witness :
  exists size,
    arobj_size minus_sixty 0 8 = Done size /\
    sizeof_ar_hdr - 10 ^ 9 < size < sizeof_ar_hdr + 10 ^ 10.
Proof.
  apply (arobj_size_is_bounded minus_sixty 0 8).
  - vm_compute. discriminate.
  - vm_compute. discriminate.
Defined.

Lemma Forall_firstn_skipn {A : Type} (P : A -> Prop) (n : nat) (l : list A) :
  Forall P l -> Forall P (firstn n l) /\ Forall P (skipn n l).
Proof.
  intros H. rewrite <- (firstn_skipn n l) in H. apply Forall_app in H. exact H.
Qed.

Lemma not_minus_byte (c : ascii) : c <> "-"%char -> (byte_val c =? 45) = false.
Proof.
  intros H. apply Z.eqb_neq. intros E. apply H. apply byte_val_inj. exact E.
Qed.

Lemma scan_number_nonneg (l : list ascii) :
  Forall (fun c => c <> "-"%char) l ->
  forall z, scan_number l = Some z -> 0 <= z.
Proof.
  induction 1 as [ | c l Hc Hl IH]; intros z; [discriminate | ].
  cbn [scan_number]. destruct (isspace c); [apply IH | ].
  unfold scan_sign. rewrite (not_minus_byte c Hc).
  destruct (byte_val c =? 43); intros H; apply scan_digits_bound in H; lia.
Qed.

Lemma strtoll_local_nonneg (field : list ascii) :
  Forall (fun c => c <> "-"%char) field -> 0 <= strtoll_local field.
Proof.
  intros H. unfold strtoll_local, strtol_scan.
  destruct (scan_number (field ++ [Ascii.zero])%list) as [z | ] eqn:E;
    cbn [option_map]; [ | lia].
  apply scan_number_nonneg in E.
  - unfold clamp_long, LONG_MIN, LONG_MAX. lia.
  - apply Forall_app. split; [exact H | ]. repeat constructor. discriminate.
Qed.

(** X8.  A total size below the 60 bytes of a header takes a minus sign:
    when none of the ten bytes of the size field is [-], the total size is at
    least 60, whatever else the field holds (spaces, letters, nothing). *)
Theorem arobj_size_without_minus :
  forall buf base header field,
    memcpy buf base (header + off_ar_size) sizeof_ar_size = Done field ->
    Forall (fun c => c <> "-"%char) field ->
    exists size,
      arobj_size buf base header = Done size /\ sizeof_ar_hdr <= size.
Proof.
  intros buf base header field Hfield Hminus.
  unfold arobj_size. rewrite Hfield. cbn [obind].
  eexists. split; [reflexivity | ].
  pose proof (strtoll_local_nonneg field Hminus). lia.
Qed.

Lemma arobj_size_without_minus_witness :
  exists size,
    arobj_size bad_fmag 0 8 = Done size /\ sizeof_ar_hdr <= size.
Proof.
  apply (arobj_size_without_minus bad_fmag 0 8 (field " " 10 "0")).
  - vm_compute. reflexivity.
  - repeat constructor; discriminate.
Defined.

Lemma scan_finished_when_advances host v buf base fuel :
  advances buf = true ->
  (List.length buf <= fuel)%nat ->
  finished (snd (scan host v buf base fuel)).
Proof.
  intros Hadv Hfuel. unfold scan, dump.
  finished_step (buf_len buf).
  apply finished_rbind.
  - match goal with |- context [if ?b then _ else _] => destruct b end;
      [ | exact I].
    finished_step (buf_len buf).
    apply finished_rbind; [ | intros; exact I].
    match goal with |- context [if ?b then _ else _] => destruct b end; exact I.
  - intros _ _. apply dump_loop_finished; [exact Hadv | unfold SARMAG; lia | ].
    unfold buf_len, SARMAG. lia.
Qed.

Lemma memcpy_Forall (P : ascii -> Prop) buf base (p n : Z) (l : list ascii) :
  memcpy buf base p n = Done l -> Forall P buf -> Forall P l.
Proof.
  unfold memcpy, tail_from. intros H Hbuf.
  destruct (n <=? 0); [injection H as <-; constructor | ].
  destruct ((0 <=? p - base) && (p - base <=? buf_len buf)); cbn [obind] in H;
    [ | discriminate].
  destruct (n <=? _); [ | discriminate].
  injection H as <-.
  apply (Forall_firstn_skipn P (Z.to_nat n)).
  apply (Forall_firstn_skipn P (Z.to_nat (p - base))). exact Hbuf.
Qed.

Lemma advances_without_minus (buf : list ascii) :
  Forall (fun c => c <> "-"%char) buf -> advances buf = true.
Proof.
  intros Hminus. unfold advances. apply forallb_forall. intros k _.
  destruct (arobj_size buf 0 (Z.of_nat k)) as [size | | | ] eqn:Hsize; try reflexivity.
  apply Z.ltb_lt. revert Hsize. unfold arobj_size.
  destruct (memcpy buf 0 (Z.of_nat k + off_ar_size) sizeof_ar_size)
    as [field | | | ] eqn:Hfield; cbn [obind]; try discriminate.
  intros [= <-].
  assert (Hf : Forall (fun c => c <> "-"%char) field)
    by (eapply memcpy_Forall; eassumption).
  pose proof (strtoll_local_nonneg field Hf). unfold sizeof_ar_hdr. lia.
Qed.

(** X9.  On a buffer that holds no [-] byte at all the scan ends, within as
    many turns of the loop as the buffer has bytes. *)
Theorem scan_terminates_without_minus :
  forall host v buf base fuel,
    Forall (fun c => c <> "-"%char) buf ->
    (List.length buf <= fuel)%nat ->
    snd (scan host v buf base fuel) <> OutOfFuel.
Proof.
  intros host v buf base fuel Hminus Hfuel.
  pose proof (scan_finished_when_advances host v buf base fuel
                (advances_without_minus buf Hminus) Hfuel) as Hfin.
  intros Hout. rewrite Hout in Hfin. exact Hfin.
Qed.

Lemma scan_terminates_without_minus_witness :
  snd (scan LittleEndian true bad_fmag 0 200) <> OutOfFuel.
Proof.
  apply (scan_terminates_without_minus LittleEndian true bad_fmag 0 200).
  - repeat constructor; discriminate.
  - vm_compute. repeat constructor.
Defined.

(** ** The calls of [printf] of the symbol index *)

Lemma count_stdout_app (t1 t2 : list event) :
  count_stdout (t1 ++ t2) = (count_stdout t1 + count_stdout t2)%nat.
Proof.
  induction t1 as [ | [s | h o] t1 IH]; cbn [app count_stdout]; lia.
Qed.

(** A sequence that completes: both parts complete, and the trace is the two
    traces in a row. *)
Lemma rbind_Done_inv {A B : Type} (r : run A) (k : A -> run B) (b : B) :
  snd (rbind r k) = Done b ->
  exists a, snd r = Done a /\ snd (k a) = Done b /\
            fst (rbind r k) = (fst r ++ fst (k a))%list.
Proof.
  intros H. rewrite snd_rbind in H. apply obind_Done_inv in H as (a & Ha & Hb).
  exists a. split; [exact Ha | ]. split; [exact Hb | ].
  rewrite fst_rbind, Ha. reflexivity.
Qed.

Lemma dump_symdefs_loop_lines host v buf base (n : nat) :
  forall ranlib strtab file_start u,
    snd (dump_symdefs_loop host v buf base n ranlib strtab file_start) = Done u ->
    count_stdout (fst (dump_symdefs_loop host v buf base n ranlib strtab file_start)) = n.
Proof.
  induction n as [ | n IH]; intros ranlib strtab file_start u H;
    cbn [dump_symdefs_loop] in *; [reflexivity | ].
  apply rbind_Done_inv in H as (ran_off & _ & H & ->).
  apply rbind_Done_inv in H as ([[is_bsd name] name_len] & _ & H & ->).
  apply rbind_Done_inv in H as (name_zero & _ & H & ->).
  apply rbind_Done_inv in H as (ran_strx & _ & H & ->).
  apply rbind_Done_inv in H as (sym & _ & H & ->).
  apply rbind_Done_inv in H as (_ & _ & H & ->).
  apply IH in H.
  rewrite !count_stdout_app, H. unfold lift. cbn [fst count_stdout].
  destruct v; reflexivity.
Qed.

(** X10.  When the decoder returns, it has called [printf] once per entry,
    that is once for every 8 whole bytes of the array length it read at its
    data pointer, plus once for the count when [g_verbose] is set.  (A call
    writes one line unless the symbol or the name holds a line feed.) *)
Theorem dump_symdefs_calls_printf_once_per_entry :
  forall host v buf base header offset file_start u,
    snd (dump_symdefs host v buf base header offset file_start) = Done u ->
    exists ranlib_len,
      load32 host buf base (header + sizeof_ar_hdr + size_t_displacement offset)
      = Done ranlib_len /\
      count_stdout (fst (dump_symdefs host v buf base header offset file_start))
      = ((if v then 1 else 0) + Z.to_nat (ranlib_len / sizeof_ranlib))%nat.
Proof.
  intros host v buf base header offset file_start u H. unfold dump_symdefs in *.
  apply rbind_Done_inv in H as (_ & _ & H & ->).
  apply rbind_Done_inv in H as (ranlib_len & Hlen & H & ->).
  apply rbind_Done_inv in H as (_ & _ & H & ->).
  apply rbind_Done_inv in H as (strtab_len & _ & H & ->).
  apply dump_symdefs_loop_lines in H.
  exists ranlib_len. split; [exact Hlen | ].
  rewrite !count_stdout_app, H. unfold lift, emit. cbn [fst count_stdout].
  destruct v; reflexivity.
Qed.

Lemma dump_symdefs_calls_printf_once_per_entry_witness :
  exists ranlib_len,
    load32 LittleEndian indexed_archive 0
      (8 + sizeof_ar_hdr + size_t_displacement 20) = Done ranlib_len /\
    count_stdout (fst (dump_symdefs LittleEndian true indexed_archive 0 8 20 0))
    = ((if true then 1 else 0) + Z.to_nat (ranlib_len / sizeof_ranlib))%nat.
Proof.
  apply (dump_symdefs_calls_printf_once_per_entry
           LittleEndian true indexed_archive 0 8 20 0 tt).
  vm_compute. reflexivity.
Defined.

(** X11.  An array length below 8 means no entry: when the two length fields
    lie in the buffer, the decoder returns having printed nothing but, with
    [g_verbose], the line [0 ranlibs]. *)
Theorem dump_symdefs_without_entries :
  forall host v buf base header offset file_start ranlib_len strtab_len,
    load32 host buf base (header + sizeof_ar_hdr + size_t_displacement offset)
    = Done ranlib_len ->
    0 <= ranlib_len < sizeof_ranlib ->
    load32 host buf base
      (header + sizeof_ar_hdr + size_t_displacement offset
       + (ranlib_len + sizeof_uint32))
    = Done strtab_len ->
    snd (dump_symdefs host v buf base header offset file_start) = Done tt /\
    stdout_of (fst (dump_symdefs host v buf base header offset file_start))
    = if v then "0 ranlibs" ++ nl else "".
Proof.
  intros host v buf base header offset file_start ranlib_len strtab_len H1 Hr H2.
  unfold dump_symdefs.
  rewrite (rbind_lift_Done _ _ _ H1).
  rewrite (rbind_lift_Done _ _ _ H2).
  replace (ranlib_len / sizeof_ranlib) with 0
    by (symmetry; apply Z.div_small; exact Hr).
  destruct v; split; reflexivity.
Qed.

Lemma dump_symdefs_without_entries_witness :
  snd (dump_symdefs LittleEndian true underscore_member 0 8 1 0) = Done tt /\
  stdout_of (fst (dump_symdefs LittleEndian true underscore_member 0 8 1 0))
  = if true then "0 ranlibs" ++ nl else "".
Proof.
  apply (dump_symdefs_without_entries LittleEndian true underscore_member 0 8 1 0 0 0).
  - vm_compute. reflexivity.
  - vm_compute. split; [discriminate | reflexivity].
  - vm_compute. reflexivity.
Defined.

(** ** The verbose listing of a member with a direct name *)

Lemma arobj_name_direct_inside buf base (header : Z) :
  0 <= header - base ->
  header - base + sizeof_ar_hdr <= buf_len buf ->
  ~ begins_with_marker buf base header ->
  exists len,
    arobj_name buf base header = Done (false, header + off_ar_name, len) /\
    0 <= len <= sizeof_ar_name /\
    (len < sizeof_ar_name ->
       exists c, load8 buf base (header + off_ar_name + len) = Done c /\ is_nul c = true).
Proof.
  intros Hlo Hhi Hdirect. unfold sizeof_ar_hdr in Hhi.
  destruct (memcpy_inside buf base (header + off_ar_name) 3) as [l3 Hl3];
    [unfold off_ar_name; lia | lia | unfold off_ar_name; lia | ].
  assert (Hmark : no_nul AR_EFMT1) by (unfold no_nul; repeat constructor).
  destruct (strncmp_spec buf base AR_EFMT1 Hmark (header + off_ar_name) 3 l3
              ltac:(lia) Hl3) as (r & Hr & _).
  unfold arobj_name. rewrite Hr. cbn [obind].
  destruct (r =? 0) eqn:Hr0; cbn [negb].
  - exfalso. apply Hdirect. apply Z.eqb_eq in Hr0.
    eapply strncmp_marker_Done; eassumption.
  - destruct (arobj_name_loop_spec buf base (Z.to_nat sizeof_ar_name)
                (header + off_ar_name) 0) as (k & Hk & Hrange & _ & Hat).
    { unfold off_ar_name; lia. }
    { unfold off_ar_name, sizeof_ar_name; simpl; lia. }
    rewrite Hk. cbn [obind]. exists k. rewrite Z.add_0_l.
    replace (Z.of_nat (Z.to_nat sizeof_ar_name)) with sizeof_ar_name in *
      by reflexivity.
    auto.
Qed.

Lemma printn_returns buf base (str n : Z) (l : list ascii) :
  memcpy buf base str n = Done l -> snd (printn buf base str n) = Done tt.
Proof.
  unfold memcpy, printn.
  destruct (n <=? 0) eqn:E; [reflexivity | ].
  destruct (tail_from buf base str) as [l0 | | | ]; cbn [obind]; try discriminate.
  destruct (n <=? Z.of_nat (List.length l0)) eqn:E'; [ | discriminate].
  intros _. apply Z.leb_gt in E. apply Z.leb_le in E'.
  rewrite scan_printn_inside by lia. reflexivity.
Qed.

Lemma mprintn_returns buf base (m : string) (str n : Z) :
  0 <= str - base -> 0 <= n -> str - base + n <= buf_len buf ->
  snd (mprintn buf base m str n) = Done tt.
Proof.
  intros Hlo Hn Hhi.
  destruct (memcpy_inside buf base str n Hlo Hn Hhi) as [l Hl].
  unfold mprintn. rewrite !snd_rbind.
  rewrite (printn_returns buf base str n l Hl). reflexivity.
Qed.

Lemma until_nul_ARFMAG (l : list ascii) :
  List.length l = 2%nat ->
  until_nul l = ARFMAG <-> l = bytes ARFMAG.
Proof.
  destruct l as [ | a [ | b [ | c l]]]; try discriminate. intros _.
  cbn [until_nul]. split.
  - destruct (is_nul a); [discriminate | ].
    destruct (is_nul b); [discriminate | ].
    intros [= -> ->]. reflexivity.
  - intros [= -> ->]. reflexivity.
Qed.

(** X12.  The verbose listing of a header that lies in the buffer and whose
    name is direct reads nothing outside of the header: it returns when the
    two bytes of the terminator are those of [ARFMAG], and ends in
    [fatal("unexpected ar_fmag\n")] when they are not. *)
Theorem dump_obj_direct_name_is_safe :
  forall buf base header fmag,
    0 <= header - base ->
    header - base + sizeof_ar_hdr <= buf_len buf ->
    ~ begins_with_marker buf base header ->
    memcpy buf base (header + off_ar_fmag) sizeof_ar_fmag = Done fmag ->
    (fmag = bytes ARFMAG -> snd (dump_obj buf base header) = Done tt) /\
    (fmag <> bytes ARFMAG -> snd (dump_obj buf base header) = Fatal fmag_msg).
Proof.
  intros buf base header fmag Hlo Hhi Hdirect Hfmag.
  destruct (arobj_name_direct_inside buf base header Hlo Hhi Hdirect)
    as (len & Hname & Hlen & _).
  unfold sizeof_ar_hdr in Hhi. unfold sizeof_ar_name in Hlen.
  destruct (memcpy_inside buf base (header + off_ar_name) (to_int len)) as [l Hl].
  { unfold off_ar_name; lia. }
  { rewrite to_int_small; unfold INT_MAX; lia. }
  { rewrite to_int_small; unfold INT_MAX, off_ar_name; lia. }
  destruct (strncmp_spec buf base ARFMAG no_nul_ARFMAG (header + off_ar_fmag) 2 fmag
              ltac:(lia) Hfmag) as (r & Hr & Hiff).
  assert (Hlen2 : Z.of_nat (List.length fmag) = 2)
    by (apply (memcpy_length buf base (header + off_ar_fmag) sizeof_ar_fmag);
        [unfold sizeof_ar_fmag; lia | exact Hfmag]).
  change (substring 0 (Z.to_nat 2) ARFMAG) with ARFMAG in Hiff.
  rewrite until_nul_ARFMAG in Hiff by lia.
  assert (Hrun : snd (dump_obj buf base header)
                 = if r =? 0 then Done tt else Fatal fmag_msg).
  { unfold dump_obj. rewrite (rbind_lift_Done _ _ _ Hname).
    rewrite !snd_rbind.
    rewrite (printn_returns buf base _ _ l Hl).
    rewrite !mprintn_returns
      by (unfold off_ar_date, off_ar_uid, off_ar_gid, off_ar_mode, off_ar_size,
            off_ar_fmag, sizeof_ar_date, sizeof_ar_uid, sizeof_ar_gid,
            sizeof_ar_mode, sizeof_ar_size, sizeof_ar_fmag; lia).
    unfold lift. cbn [snd printf ret obind]. rewrite Hr. cbn [obind].
    destruct (r =? 0); reflexivity. }
  rewrite Hrun. split; intros H.
  - apply Hiff in H. subst r. reflexivity.
  - destruct (r =? 0) eqn:E; [ | reflexivity].
    apply Z.eqb_eq in E. apply Hiff in E. contradiction.
Qed.

Lemma dump_obj_direct_name_is_safe_witness :
  (bytes "zz" = bytes ARFMAG -> snd (dump_obj bad_fmag 0 8) = Done tt) /\
  (bytes "zz" <> bytes ARFMAG -> snd (dump_obj bad_fmag 0 8) = Fatal fmag_msg).
Proof.
  apply (dump_obj_direct_name_is_safe bad_fmag 0 8 (bytes "zz")).
  - vm_compute. discriminate.
  - vm_compute. discriminate.
  - intros (H & _). vm_compute in H. discriminate.
  - vm_compute. reflexivity.
Defined.

(** ** The first bytes of the file *)

Lemma until_nul_whole (l : list ascii) :
  forall s, until_nul l = s -> List.length l = String.length s ->
    l = list_ascii_of_string s.
Proof.
  induction l as [ | c l IH]; intros s; cbn [until_nul].
  - intros <- _. reflexivity.
  - destruct (is_nul c).
    + intros <-. discriminate.
    + intros <-. cbn [List.length String.length list_ascii_of_string].
      intros [= H]. f_equal. apply IH; [reflexivity | exact H].
Qed.

Lemma memcpy_from_start buf base (n : Z) :
  0 < n <= buf_len buf -> memcpy buf base base n = Done (firstn (Z.to_nat n) buf).
Proof.
  intros Hn. unfold memcpy, tail_from.
  destruct (n <=? 0) eqn:E; [apply Z.leb_le in E; lia | ].
  rewrite Z.sub_diag.
  replace ((0 <=? 0) && (0 <=? buf_len buf)) with true
    by (symmetry; apply andb_true_iff; split; apply Z.leb_le; unfold buf_len; lia).
  cbn [obind Z.to_nat skipn].
  replace (n <=? Z.of_nat (List.length buf)) with true
    by (symmetry; apply Z.leb_le; unfold buf_len in Hn; lia).
  reflexivity.
Qed.

(** [strncmp(contents, ARMAG, SARMAG)] on a file of 8 bytes or more. *)
Lemma strncmp_ARMAG buf base :
  SARMAG <= buf_len buf ->
  exists r,
    strncmp buf base base ARMAG SARMAG = Done r /\
    (r = 0 <-> firstn 8 buf = bytes ARMAG).
Proof.
  intros Hlen. unfold SARMAG in *.
  pose proof (memcpy_from_start buf base 8 ltac:(lia)) as Hl.
  destruct (strncmp_spec buf base ARMAG no_nul_ARMAG base 8 _ ltac:(lia) Hl)
    as (r & Hr & Hiff).
  exists r. split; [exact Hr | ]. rewrite Hiff.
  change (Z.to_nat 8) with 8%nat. change (substring 0 8 ARMAG) with ARMAG.
  split.
  - intros H. apply until_nul_whole in H; [exact H | ].
    rewrite length_firstn. unfold buf_len in Hlen.
    change (String.length ARMAG) with 8%nat. lia.
  - intros ->. reflexivity.
Qed.

(** X13.  A file of 8 bytes or more that does not begin with the 8 bytes of
    [ARMAG], and whose first four bytes are not the fat magic in either
    order, is refused with the diagnostic on the missing archive magic;
    nothing is printed. *)
Theorem dump_refuses_other_files :
  forall host v buf base fuel w,
    SARMAG <= buf_len buf ->
    firstn 8 buf <> bytes ARMAG ->
    load32 host buf base base = Done w ->
    w <> FAT_MAGIC -> w <> FAT_CIGAM ->
    scan host v buf base fuel = ([], Fatal not_ar_msg).
Proof.
  intros host v buf base fuel w Hlen Hmagic Hw Hfat1 Hfat2.
  destruct (strncmp_ARMAG buf base Hlen) as (r & Hr & Hiff).
  unfold scan, dump. rewrite (rbind_lift_Done _ _ _ Hr).
  replace (r =? 0) with false
    by (symmetry; apply Z.eqb_neq; intros H; apply Hmagic, Hiff, H).
  cbn [negb]. rewrite (rbind_lift_Done _ _ _ Hw).
  apply Z.eqb_neq in Hfat1, Hfat2. rewrite Hfat1, Hfat2. reflexivity.
Qed.

Lemma dump_refuses_other_files_witness :
  scan LittleEndian true (bytes "#!/bin/sh -e") 0 5 = ([], Fatal not_ar_msg).
Proof.
  apply (dump_refuses_other_files LittleEndian true (bytes "#!/bin/sh -e") 0 5
           (35 + 2 ^ 8 * 33 + 2 ^ 16 * 47 + 2 ^ 24 * 98)).
  - vm_compute. discriminate.
  - vm_compute. discriminate.
  - vm_compute. reflexivity.
  - vm_compute. discriminate.
  - vm_compute. discriminate.
Defined.

(** X14.  A file that stops inside the magic, after 1 to 7 of its bytes, is
    refused as not being an archive.  [mmap] fills the rest of the last page
    of the mapping with zeros: the comparison with [ARMAG] reads the first of
    them and stops there, and the four bytes read for the fat magic begin with
    [!].  (An empty file is not mapped: [dump] is not called.) *)
Theorem dump_refuses_a_truncated_magic :
  forall host v base fuel (k n : nat) (before beyond : list ascii),
    (1 <= k < 8)%nat ->
    (4 <= n)%nat ->
    scan_in_memory host v before (firstn k (bytes ARMAG)) (zeros n ++ beyond) base fuel
    = ([], Fatal not_ar_msg).
Proof.
  intros host v base fuel k n before beyond Hk Hn.
  unfold scan_in_memory, dump.
  replace (zeros n) with (zeros 4 ++ zeros (n - 4))%list
    by (unfold zeros; rewrite <- repeat_app; f_equal; lia).
  set (rest := (zeros (n - 4) ++ beyond)%list).
  set (file := (firstn k (bytes ARMAG) ++ zeros 4)%list).
  replace (before ++ firstn k (bytes ARMAG) ++ (zeros 4 ++ zeros (n - 4)) ++ beyond)%list
    with (before ++ file ++ rest)%list
    by (unfold file, rest; rewrite <- !app_assoc; reflexivity).
  assert (Hfile : exists r w,
             strncmp file 0 0 ARMAG SARMAG = Done r /\
             negb (r =? 0) = true /\
             load32 host file 0 0 = Done w /\
             (w =? FAT_MAGIC) || (w =? FAT_CIGAM) = false).
  { unfold file.
    destruct k as [ | [ | [ | [ | [ | [ | [ | [ | k]]]]]]]]; try lia;
      destruct host; eexists _, _; repeat split; vm_compute; reflexivity. }
  destruct Hfile as (r & w & Hr & Hnz & Hw & Hfat).
  pose proof (strncmp_frame before file rest base ARMAG base SARMAG) as H1.
  rewrite (strncmp_rebase file base 0 ARMAG base 0 SARMAG) in H1 by lia.
  rewrite Hr in H1. cbn [unless_outside] in H1.
  pose proof (load32_frame host before file rest base base) as H2.
  rewrite (load32_rebase file base 0 host base 0) in H2 by lia.
  rewrite Hw in H2. cbn [unless_outside] in H2.
  rewrite <- H1, <- H2.
  cbv beta iota delta [rbind lift fatal ret]. rewrite Hnz, Hfat. reflexivity.
Qed.

Lemma dump_refuses_a_truncated_magic_witness :
  scan_in_memory LittleEndian false [] (firstn 3 (bytes ARMAG)) (zeros 4093 ++ []) 4096 1
  = ([], Fatal not_ar_msg).
Proof.
  apply (dump_refuses_a_truncated_magic LittleEndian false 4096 1 3 4093 [] []); lia.
Defined.

(** ** A scan without [-v] *)

Lemma decoder_traces_nil host buf base file_start :
  decoder_traces host buf base file_start [].
Proof. exists []. reflexivity. Qed.

Lemma decoder_traces_app host buf base file_start (t1 t2 : list event) :
  decoder_traces host buf base file_start t1 ->
  decoder_traces host buf base file_start t2 ->
  decoder_traces host buf base file_start (t1 ++ t2).
Proof.
  intros [calls1 ->] [calls2 ->]. exists (calls1 ++ calls2)%list.
  rewrite map_app, concat_app. reflexivity.
Qed.

Lemma decoder_traces_rbind {A B : Type} host buf base file_start
    (r : run A) (k : A -> run B) :
  decoder_traces host buf base file_start (fst r) ->
  (forall a, decoder_traces host buf base file_start (fst (k a))) ->
  decoder_traces host buf base file_start (fst (rbind r k)).
Proof.
  intros Hr Hk. rewrite fst_rbind. apply decoder_traces_app; [exact Hr | ].
  destruct (snd r); [apply Hk | apply decoder_traces_nil ..].
Qed.

Lemma decoder_traces_dump_symdefs host buf base header offset file_start :
  decoder_traces host buf base file_start
    (fst (dump_symdefs host false buf base header offset file_start)).
Proof.
  exists [(header, offset)]. cbn [map List.concat fst snd].
  rewrite app_nil_r. reflexivity.
Qed.

Lemma decoder_traces_dump_member host buf base contents file_start :
  decoder_traces host buf base file_start
    (fst (dump_member host false buf base contents file_start)).
Proof.
  unfold dump_member.
  apply decoder_traces_rbind; [apply decoder_traces_nil | intros _].
  apply decoder_traces_rbind;
    [apply decoder_traces_nil | intros [[is_bsd name] name_len]].
  apply decoder_traces_rbind; [apply decoder_traces_nil | intros is_index].
  apply decoder_traces_rbind.
  - destruct is_index; [apply decoder_traces_dump_symdefs | apply decoder_traces_nil].
  - intros _. apply decoder_traces_rbind; [apply decoder_traces_nil | intros size].
    apply decoder_traces_nil.
Qed.

Lemma decoder_traces_dump_loop host buf base (fuel : nat) :
  forall contents contents_end file_start,
    decoder_traces host buf base file_start
      (fst (dump_loop host false buf base fuel contents contents_end file_start)).
Proof.
  induction fuel as [ | fuel IH]; intros contents contents_end file_start;
    cbn [dump_loop]; destruct (contents <? contents_end);
    try apply decoder_traces_nil.
  apply decoder_traces_rbind; [apply decoder_traces_dump_member | intros next; apply IH].
Qed.

(** X15.  Without [g_verbose] nothing is printed outside of the decoder: the
    trace of a scan, to its last event, is the traces of calls of
    [dump_symdefs] on headers of the buffer, one after the other. *)
Theorem quiet_scan_prints_only_the_index :
  forall host buf base fuel,
    exists calls : list (Z * Z),
      fst (scan host false buf base fuel)
      = List.concat
          (map (fun c => fst (dump_symdefs host false buf base (fst c) (snd c) base))
             calls).
Proof.
  intros host buf base fuel.
  change (decoder_traces host buf base base (fst (scan host false buf base fuel))).
  unfold scan, dump.
  apply decoder_traces_rbind; [apply decoder_traces_nil | intros r].
  apply decoder_traces_rbind.
  - destruct (negb (r =? 0)); [ | apply decoder_traces_nil].
    apply decoder_traces_rbind; [apply decoder_traces_nil | intros w].
    apply decoder_traces_rbind; [ | intros _; apply decoder_traces_nil].
    destruct ((w =? FAT_MAGIC) || (w =? FAT_CIGAM)); apply decoder_traces_nil.
  - intros _. apply decoder_traces_dump_loop.
Qed.

(** ** Walking a well-formed archive *)

Lemma load8_app buf base (pre post : list ascii) (c : ascii) :
  buf = (pre ++ c :: post)%list ->
  load8 buf base (base + Z.of_nat (List.length pre)) = Done c.
Proof.
  intros ->. apply load8_nth.
  rewrite nth_error_app2 by lia. rewrite Nat.sub_diag. reflexivity.
Qed.

Lemma memcpy_app buf base (a b c : list ascii) (p n : Z) :
  buf = (a ++ b ++ c)%list ->
  p - base = Z.of_nat (List.length a) ->
  n = Z.of_nat (List.length b) ->
  memcpy buf base p n = Done b.
Proof.
  intros -> Hp ->. unfold memcpy, tail_from.
  destruct (Z.of_nat (List.length b) <=? 0) eqn:E.
  - apply Z.leb_le in E. destruct b; [reflexivity | simpl in E; lia].
  - rewrite Hp. unfold buf_len. rewrite !length_app.
    replace ((0 <=? Z.of_nat (List.length a))
             && (Z.of_nat (List.length a)
                 <=? Z.of_nat (List.length a + (List.length b + List.length c))))
      with true by (symmetry; apply andb_true_iff; split; apply Z.leb_le; lia).
    cbn [obind]. rewrite Nat2Z.id.
    rewrite skipn_app, skipn_all, Nat.sub_diag, skipn_0. cbn [app].
    rewrite length_app.
    replace (Z.of_nat (List.length b) <=? Z.of_nat (List.length b + List.length c))
      with true by (symmetry; apply Z.leb_le; lia).
    rewrite Nat2Z.id, firstn_app, firstn_all, Nat.sub_diag, firstn_0, app_nil_r.
    reflexivity.
Qed.

Lemma is_symdef_name_first_byte buf base (name name_len : Z) (c : ascii) :
  0 < name_len -> load8 buf base name = Done c -> c <> "_"%char ->
  is_symdef_name buf base name name_len = Done false.
Proof.
  intros Hn Hc Hne.
  assert (E : (name_len <=? 0) = false) by (apply Z.leb_gt; lia).
  assert (Hcmp : (byte_val c =? byte_val "_") = false).
  { apply Z.eqb_neq. intros H. apply Hne, byte_val_inj, H. }
  unfold is_symdef_name, SYMDEF, SYMDEF_SORTED. cbn [strncmp].
  rewrite E, Hc. cbn [obind]. rewrite Hcmp. cbn [obind].
  replace (byte_val c - byte_val "_" =? 0) with false
    by (symmetry; apply Z.eqb_neq; apply Z.eqb_neq in Hcmp; lia).
  reflexivity.
Qed.

Lemma plain_named_header (m : member) : plain_named m -> plain_header m.
Proof.
  intros (H1 & H2 & H3 & H4 & H5 & H6 & H7 & H8 & _).
  unfold plain_header. auto 10.
Qed.

Lemma encode_member_length (m : member) :
  plain_header m ->
  Z.of_nat (List.length (encode_member m))
  = sizeof_ar_hdr + Z.of_nat (List.length (m_payload m)).
Proof.
  intros (Hname & _ & Hmid & _ & _ & _ & Hsize & Hfmag).
  unfold encode_member.
  rewrite length_app, Hname, length_app, Hmid.
  rewrite (app_assoc (m_digits m)), length_app, Hsize, length_app, Hfmag.
  unfold sizeof_ar_hdr. lia.
Qed.

(** One turn of the loop on a member with a plain header, whatever comes
    before and after it in the buffer: nothing is printed, and [contents]
    moves by the header and the size written in it. *)
Lemma dump_member_tail_plain_header host v base file_start (pre post : list ascii)
    (m : member) :
  plain_header m ->
  ('(is_bsd_name, name, name_len) <-
     lift (arobj_name (pre ++ encode_member m ++ post) base
             (base + Z.of_nat (List.length pre))) ;;
   is_index <- lift (is_symdef_name (pre ++ encode_member m ++ post) base name name_len) ;;
   (if is_index : bool then
      dump_symdefs host v (pre ++ encode_member m ++ post) base
        (base + Z.of_nat (List.length pre))
        (if is_bsd_name : bool then name_len else 0) file_start
    else ret tt) ;;
   size <- lift (arobj_size (pre ++ encode_member m ++ post) base
                   (base + Z.of_nat (List.length pre))) ;;
   ret (base + Z.of_nat (List.length pre) + size))%run
  = ([], Done (base + Z.of_nat (List.length pre)
               + (sizeof_ar_hdr + decimal (m_digits m)))).
Proof.
  intros Hm.
  pose proof (encode_member_length m Hm) as Hlen.
  destruct Hm as (Hname & (c & rest & Hc & Hnul & Hhash & Hunder) & Hmid & Hne
                  & Hds & Hpad & Hsize & Hfmag).
  set (buf := (pre ++ encode_member m ++ post)%list).
  set (h := base + Z.of_nat (List.length pre)).
  assert (Hbuf : buf_len buf
                 = Z.of_nat (List.length pre)
                   + Z.of_nat (List.length (encode_member m))
                   + Z.of_nat (List.length post)).
  { unfold buf_len, buf. rewrite !length_app. lia. }
  assert (Hfirst : load8 buf base h = Done c).
  { apply (load8_app buf base pre (rest ++ m_middle m ++ m_digits m ++ m_pad m
                                    ++ m_fmag m ++ m_payload m ++ post)).
    unfold buf, encode_member. rewrite Hc. rewrite <- !app_assoc. reflexivity. }
  assert (Hdirect : ~ begins_with_marker buf base h).
  { intros (H & _). rewrite Hfirst in H. injection H as ->. contradiction. }
  destruct (arobj_name_direct_inside buf base h) as (len & Hres & Hrange & Hat);
    [unfold h; lia | unfold h; lia | exact Hdirect | ].
  assert (Hpos : 0 < len).
  { destruct (Z.eq_dec len 0) as [-> | ]; [ | lia].
    destruct Hat as (c' & Hc' & Hnul'); [unfold sizeof_ar_name; lia | ].
    unfold off_ar_name in Hc'. rewrite !Z.add_0_r in Hc'.
    rewrite Hfirst in Hc'. injection Hc' as <-. congruence. }
  assert (Hidx : is_symdef_name buf base (h + off_ar_name) len = Done false).
  { apply (is_symdef_name_first_byte buf base _ _ c); [exact Hpos | | exact Hunder].
    unfold off_ar_name. rewrite Z.add_0_r. exact Hfirst. }
  assert (Hfield : memcpy buf base (h + off_ar_size) sizeof_ar_size
                   = Done (m_digits m ++ m_pad m)%list).
  { apply (memcpy_app buf base (pre ++ m_name m ++ m_middle m)
             (m_digits m ++ m_pad m) (m_fmag m ++ m_payload m ++ post)).
    - unfold buf, encode_member. rewrite <- !app_assoc. reflexivity.
    - rewrite !length_app, Hname, Hmid. unfold h, off_ar_size. lia.
    - rewrite Hsize. reflexivity. }
  assert (Hsz : arobj_size buf base h = Done (decimal (m_digits m) + sizeof_ar_hdr)).
  { unfold arobj_size. rewrite Hfield. cbn [obind].
    rewrite strtoll_local_digits; auto.
    rewrite length_app in Hsize. lia. }
  fold buf. fold h.
  rewrite (rbind_lift_Done _ _ _ Hres).
  rewrite (rbind_lift_Done _ _ _ Hidx).
  rewrite rbind_ret.
  rewrite (rbind_lift_Done _ _ _ Hsz).
  unfold ret. do 2 f_equal. unfold h. lia.
Qed.

Lemma dump_member_plain_header host base file_start (pre post : list ascii) (m : member) :
  plain_header m ->
  dump_member host false (pre ++ encode_member m ++ post) base
    (base + Z.of_nat (List.length pre)) file_start
  = ([], Done (base + Z.of_nat (List.length pre)
               + (sizeof_ar_hdr + decimal (m_digits m)))).
Proof.
  intros Hm. unfold dump_member. rewrite rbind_ret.
  apply (dump_member_tail_plain_header host false base file_start pre post m Hm).
Qed.

(** The loop goes through well-formed members in as many turns, printing
    nothing, whatever follows them in the buffer. *)
Lemma dump_loop_plain_named host base file_start (ms : list member) :
  Forall plain_named ms ->
  forall (pre post : list ascii) (fuel : nat),
    dump_loop host false (pre ++ List.concat (map encode_member ms) ++ post) base
      (List.length ms + fuel)
      (base + Z.of_nat (List.length pre))
      (base + buf_len (pre ++ List.concat (map encode_member ms) ++ post)) file_start
    = dump_loop host false (pre ++ List.concat (map encode_member ms) ++ post) base
        fuel
        (base + Z.of_nat (List.length (pre ++ List.concat (map encode_member ms))))
        (base + buf_len (pre ++ List.concat (map encode_member ms) ++ post)) file_start.
Proof.
  induction 1 as [ | m ms Hm Hms IH]; intros pre post fuel.
  - cbn [map List.concat List.length Nat.add app]. rewrite app_nil_r. reflexivity.
  - cbn [map List.concat List.length Nat.add dump_loop].
    pose proof (encode_member_length m (plain_named_header m Hm)) as Hlen.
    rewrite <- !app_assoc.
    replace (base + Z.of_nat (List.length pre)
             <? base + buf_len (pre ++ encode_member m
                                ++ List.concat (map encode_member ms) ++ post))
      with true
      by (symmetry; apply Z.ltb_lt; unfold buf_len; rewrite !length_app;
          unfold sizeof_ar_hdr in Hlen; lia).
    rewrite (dump_member_plain_header host base file_start pre _ m
               (plain_named_header m Hm)).
    unfold rbind. cbn [app].
    specialize (IH (pre ++ encode_member m)%list post fuel).
    rewrite <- !app_assoc in IH.
    replace (base + Z.of_nat (List.length pre)
             + (sizeof_ar_hdr + decimal (m_digits m)))
      with (base + Z.of_nat (List.length (pre ++ encode_member m))).
    + rewrite IH.
      destruct (dump_loop host false _ base fuel _ _ file_start). reflexivity.
    + destruct Hm as (_ & _ & _ & _ & _ & _ & _ & _ & Hdec).
      rewrite length_app, Hdec. lia.
Qed.

(** X16.  An archive made of the magic followed by members whose headers are
    well formed, whose names are direct and do not begin with [_], and whose
    size fields write the length of their payload, is walked to its end
    without [g_verbose]: one turn per member, the last one ends exactly on
    the end of the buffer, nothing is printed and the scan returns. *)
Theorem scan_walks_a_well_formed_archive :
  forall host ms base fuel,
    Forall plain_named ms ->
    (List.length ms <= fuel)%nat ->
    scan host false (archive_of ms) base fuel = ([], Done tt).
Proof.
  intros host ms base fuel Hms Hfuel. unfold scan, dump, archive_of.
  destruct (strncmp_ARMAG (bytes ARMAG ++ List.concat (map encode_member ms)) base)
    as (r & Hr & Hiff).
  { unfold buf_len, SARMAG. rewrite length_app.
    change (List.length (bytes ARMAG)) with 8%nat. lia. }
  assert (Hr0 : r = 0) by (apply Hiff; reflexivity). subst r.
  rewrite (rbind_lift_Done _ _ _ Hr). change (negb (0 =? 0)) with false. cbv iota.
  rewrite rbind_ret.
  replace fuel with (List.length ms + (fuel - List.length ms))%nat by lia.
  pose proof (dump_loop_plain_named host base base ms Hms (bytes ARMAG) []
                (fuel - List.length ms)%nat) as Hwalk.
  rewrite !app_nil_r in Hwalk. unfold SARMAG.
  change (Z.of_nat (List.length (bytes ARMAG))) with 8 in Hwalk.
  rewrite Hwalk. unfold buf_len.
  destruct (fuel - List.length ms)%nat; cbn [dump_loop];
    rewrite Z.ltb_irrefl; reflexivity.
Qed.

Lemma scan_walks_a_well_formed_archive_witness :
  scan LittleEndian false (archive_of [hello_member; hello_member]) 0 2 = ([], Done tt).
Proof.
  apply (scan_walks_a_well_formed_archive LittleEndian [hello_member; hello_member] 0 2).
  - repeat constructor; try reflexivity; try discriminate.
    + exists "h"%char, (list_ascii_of_string "ello.o         ").
      repeat split; try reflexivity; discriminate.
    + intros c pad' [= <- _]. reflexivity.
    + exists "h"%char, (list_ascii_of_string "ello.o         ").
      repeat split; try reflexivity; discriminate.
    + intros c pad' [= <- _]. reflexivity.
  - repeat constructor.
Defined.

(** X17.  The walker does not compare the size of a member with what is
    left of the buffer: when the last member announces as many bytes as
    follow its header, or more, the scan takes one turn for it, prints
    nothing and returns. *)
Theorem scan_accepts_a_cut_last_member :
  forall host ms m base fuel,
    Forall plain_named ms ->
    plain_header m ->
    Z.of_nat (List.length (m_payload m)) <= decimal (m_digits m) ->
    (List.length ms < fuel)%nat ->
    scan host false (archive_of ms ++ encode_member m) base fuel = ([], Done tt).
Proof.
  intros host ms m base fuel Hms Hm Hcut Hfuel. unfold scan, dump, archive_of.
  rewrite <- app_assoc.
  set (buf := (bytes ARMAG ++ List.concat (map encode_member ms) ++ encode_member m)%list).
  destruct (strncmp_ARMAG buf base) as (r & Hr & Hiff).
  { unfold buf_len, SARMAG, buf. rewrite length_app.
    change (List.length (bytes ARMAG)) with 8%nat. lia. }
  assert (Hr0 : r = 0) by (apply Hiff; reflexivity). subst r.
  rewrite (rbind_lift_Done _ _ _ Hr). change (negb (0 =? 0)) with false. cbv iota.
  rewrite rbind_ret.
  replace fuel with (List.length ms + S (fuel - S (List.length ms)))%nat by lia.
  pose proof (dump_loop_plain_named host base base ms Hms (bytes ARMAG)
                (encode_member m) (S (fuel - S (List.length ms)))) as Hwalk.
  unfold SARMAG. change (Z.of_nat (List.length (bytes ARMAG))) with 8 in Hwalk.
  fold buf in Hwalk. rewrite Hwalk. clear Hwalk.
  pose proof (encode_member_length m Hm) as Hlen.
  pose proof (dump_member_plain_header host base base
                (bytes ARMAG ++ List.concat (map encode_member ms)) [] m Hm) as Hturn.
  rewrite app_nil_r, <- app_assoc in Hturn. fold buf in Hturn.
  assert (Hend : buf_len buf
                 = Z.of_nat (List.length (bytes ARMAG ++ List.concat (map encode_member ms)))
                   + Z.of_nat (List.length (encode_member m))).
  { unfold buf_len, buf. rewrite !length_app. lia. }
  cbn [dump_loop].
  replace (base + Z.of_nat (List.length (bytes ARMAG ++ List.concat (map encode_member ms)))
           <? base + buf_len buf) with true
    by (symmetry; apply Z.ltb_lt; unfold sizeof_ar_hdr in Hlen; lia).
  rewrite Hturn. unfold rbind.
  destruct (fuel - S (List.length ms))%nat; cbn [dump_loop];
    (replace (_ <? base + buf_len buf) with false
       by (symmetry; apply Z.ltb_ge; lia));
    reflexivity.
Qed.

Lemma scan_accepts_a_cut_last_member_witness :
  scan LittleEndian false (archive_of [hello_member] ++ encode_member cut_member) 0 2
  = ([], Done tt).
Proof.
  apply (scan_accepts_a_cut_last_member LittleEndian [hello_member] cut_member 0 2).
  - repeat constructor; try reflexivity; try discriminate.
    + exists "h"%char, (list_ascii_of_string "ello.o         ").
      repeat split; try reflexivity; discriminate.
    + intros c pad' [= <- _]. reflexivity.
  - repeat split; try reflexivity; try discriminate.
    + exists "b"%char, (list_ascii_of_string "ig.o           ").
      repeat split; try reflexivity; discriminate.
    + repeat constructor.
    + intros c pad' [= <- _]. reflexivity.
  - vm_compute. discriminate.
  - repeat constructor.
Defined.

(** ** Bounds *)

Lemma scan_printn_length (l : list ascii) :
  forall n, Z.of_nat (String.length (fst (scan_printn l n))) <= Z.max 0 n.
Proof.
  induction l as [ | c l IH]; intros n; cbn [scan_printn];
    destruct (n <=? 0) eqn:E; try (cbn [fst String.length Z.of_nat]; lia).
  apply Z.leb_gt in E.
  destruct (is_nul c); [cbn [fst String.length Z.of_nat]; lia | ].
  specialize (IH (n - 1)). destruct (scan_printn l (n - 1)) as [s ok].
  cbn [fst String.length] in *. lia.
Qed.

(** X18.  Whether it returns or reads outside of the buffer, [printn(str, n)]
    never writes more than [n] bytes, and none when [n] is negative. *)
Theorem printn_output_is_bounded :
  forall buf base str n,
    Z.of_nat (String.length (stdout_of (fst (printn buf base str n)))) <= Z.max 0 n.
Proof.
  intros buf base str n. unfold printn.
  destruct (n <=? 0);
    [unfold ret; cbn [fst stdout_of String.length Z.of_nat]; lia | ].
  destruct (tail_from buf base str) as [l | | | ];
    try (cbn [fst stdout_of String.length Z.of_nat]; lia).
  pose proof (scan_printn_length l n) as H.
  destruct (scan_printn l n) as [s ok]. cbn [fst stdout_of] in *.
  rewrite append_empty_r. exact H.
Qed.

Lemma byte_val_range (c : ascii) : 0 <= byte_val c < 256.
Proof.
  unfold byte_val. pose proof (N_ascii_bounded c). lia.
Qed.

Lemma load32_range host buf base (p w : Z) :
  load32 host buf base p = Done w -> 0 <= w < 2 ^ 32.
Proof.
  unfold load32. intros H.
  apply obind_Done_inv in H as (b0 & _ & H).
  apply obind_Done_inv in H as (b1 & _ & H).
  apply obind_Done_inv in H as (b2 & _ & H).
  apply obind_Done_inv in H as (b3 & _ & H).
  injection H as <-.
  pose proof (byte_val_range b0). pose proof (byte_val_range b1).
  pose proof (byte_val_range b2). pose proof (byte_val_range b3).
  destruct host; unfold uint32_of_bytes; lia.
Qed.

Lemma count_stdout_rbind {A B : Type} (r : run A) (k : A -> run B) (a b : nat) :
  (count_stdout (fst r) <= a)%nat ->
  (forall x, snd r = Done x -> (count_stdout (fst (k x)) <= b)%nat) ->
  (count_stdout (fst (rbind r k)) <= a + b)%nat.
Proof.
  intros Hr Hk. rewrite fst_rbind, count_stdout_app.
  destruct (snd r) as [x | | | ]; [specialize (Hk x eq_refl) | ..];
    cbn [count_stdout]; lia.
Qed.

Lemma dump_symdefs_loop_printf_bound host v buf base (n : nat) :
  forall ranlib strtab file_start,
    (count_stdout (fst (dump_symdefs_loop host v buf base n ranlib strtab file_start))
     <= n)%nat.
Proof.
  induction n as [ | n IH]; intros ranlib strtab file_start;
    cbn [dump_symdefs_loop]; [unfold ret; cbn [fst count_stdout]; lia | ].
  apply (count_stdout_rbind _ _ 0 (S n)); [unfold lift; cbn; lia | intros ran_off _].
  apply (count_stdout_rbind _ _ 0 (S n));
    [unfold lift; cbn; lia | intros [[is_bsd name] name_len] _].
  apply (count_stdout_rbind _ _ 0 (S n)); [unfold lift; cbn; lia | intros name_zero _].
  apply (count_stdout_rbind _ _ 0 (S n)); [unfold lift; cbn; lia | intros ran_strx _].
  apply (count_stdout_rbind _ _ 0 (S n)); [unfold lift; cbn; lia | intros sym _].
  apply (count_stdout_rbind _ _ 1 n);
    [destruct v; unfold printf; cbn [fst count_stdout]; lia | intros _ _].
  apply IH.
Qed.

(** X19.  Whatever the bytes of the buffer, and whether it returns or reads
    outside of the buffer, the decoder goes through its loop fewer than 2^29
    times: it calls [printf] at most 2^29 times, the count included, and the
    [int] counter of the loop stays below [INT_MAX]. *)
Theorem dump_symdefs_entry_count_is_bounded :
  forall host v buf base header offset file_start,
    Z.of_nat (count_stdout (fst (dump_symdefs host v buf base header offset file_start)))
    <= 2 ^ 29 /\
    2 ^ 29 <= INT_MAX.
Proof.
  intros host v buf base header offset file_start.
  split; [ | unfold INT_MAX; lia].
  assert (H : (count_stdout
                 (fst (dump_symdefs host v buf base header offset file_start))
               <= 0 + (0 + (1 + (0 + Z.to_nat (2 ^ 29 - 1)))))%nat); [ | lia].
  unfold dump_symdefs.
  apply count_stdout_rbind; [unfold emit; cbn [fst count_stdout]; lia | intros _ _].
  apply count_stdout_rbind; [unfold lift; cbn [fst count_stdout]; lia | ].
  intros ranlib_len Hlen. unfold lift in Hlen. cbn [snd] in Hlen.
  apply load32_range in Hlen.
  apply count_stdout_rbind;
    [destruct v; unfold printf, ret; cbn [fst count_stdout]; lia | intros _ _].
  apply count_stdout_rbind; [unfold lift; cbn [fst count_stdout]; lia | intros _ _].
  etransitivity; [apply dump_symdefs_loop_printf_bound | ].
  apply Z2Nat.inj_le; [apply Z.div_pos; unfold sizeof_ranlib; lia | lia | ].
  assert (ranlib_len / sizeof_ranlib < 2 ^ 29)
    by (apply Z.div_lt_upper_bound; unfold sizeof_ranlib; lia).
  lia.
Qed.

(** ** Decoding a well-formed symbol index *)

Lemma byte_val_ascii_of_N (k : Z) :
  0 <= k < 256 -> byte_val (ascii_of_N (Z.to_N k)) = k.
Proof.
  intros H. unfold byte_val. rewrite N_ascii_embedding by lia. lia.
Qed.

Lemma uint32_of_le32 (z : Z) :
  0 <= z < 2 ^ 32 ->
  exists b0 b1 b2 b3,
    le32 z = [b0; b1; b2; b3] /\
    byte_val b0 + 2 ^ 8 * byte_val b1 + 2 ^ 16 * byte_val b2 + 2 ^ 24 * byte_val b3 = z.
Proof.
  intros Hz. unfold le32. cbn [map].
  eexists _, _, _, _. split; [reflexivity | ].
  rewrite !byte_val_ascii_of_N by (apply Z.mod_pos_bound; lia).
  change (2 ^ (8 * 0)) with 1. change (2 ^ (8 * 1)) with 256.
  change (2 ^ (8 * 2)) with (256 * 256). change (2 ^ (8 * 3)) with (256 * 256 * 256).
  rewrite Z.div_1_r. rewrite <- !Z.div_div by lia.
  pose proof (Z.div_mod z 256 ltac:(lia)) as H0.
  pose proof (Z.mod_pos_bound z 256 ltac:(lia)) as B0.
  set (q1 := z / 256) in *.
  pose proof (Z.div_mod q1 256 ltac:(lia)) as H1.
  pose proof (Z.mod_pos_bound q1 256 ltac:(lia)) as B1.
  set (q2 := q1 / 256) in *.
  pose proof (Z.div_mod q2 256 ltac:(lia)) as H2.
  pose proof (Z.mod_pos_bound q2 256 ltac:(lia)) as B2.
  set (q3 := q2 / 256) in *.
  assert (Hq3 : 0 <= q3 < 256) by lia.
  rewrite (Z.mod_small q3 256 Hq3). lia.
Qed.

Lemma enc32_length host (z : Z) : List.length (enc32 host z) = 4%nat.
Proof. destruct host; reflexivity. Qed.

Lemma load8_app_at buf base (a l c : list ascii) (k : nat) (x : ascii) :
  buf = (a ++ l ++ c)%list -> nth_error l k = Some x ->
  load8 buf base (base + Z.of_nat (List.length a + k)) = Done x.
Proof.
  intros -> Hk. apply load8_nth.
  rewrite nth_error_app2 by lia.
  replace (List.length a + k - List.length a)%nat with k by lia.
  rewrite nth_error_app1; [exact Hk | ].
  apply nth_error_Some. rewrite Hk. discriminate.
Qed.

(** Reading back a [uint32_t] written in the byte order of the host. *)
Lemma load32_enc32 host buf base (a c : list ascii) (p z : Z) :
  buf = (a ++ enc32 host z ++ c)%list ->
  p - base = Z.of_nat (List.length a) ->
  0 <= z < 2 ^ 32 ->
  load32 host buf base p = Done z.
Proof.
  intros Hbuf Hp Hz.
  destruct (uint32_of_le32 z Hz) as (b0 & b1 & b2 & b3 & Hle & Hval).
  unfold load32.
  replace p with (base + Z.of_nat (List.length a + 0)) by lia.
  replace (base + Z.of_nat (List.length a + 0) + 1)
    with (base + Z.of_nat (List.length a + 1)) by lia.
  replace (base + Z.of_nat (List.length a + 0) + 2)
    with (base + Z.of_nat (List.length a + 2)) by lia.
  replace (base + Z.of_nat (List.length a + 0) + 3)
    with (base + Z.of_nat (List.length a + 3)) by lia.
  destruct host; unfold enc32 in Hbuf; rewrite Hle in Hbuf;
    cbn [rev app] in Hbuf.
  - rewrite (load8_app_at buf base a [b0; b1; b2; b3] c 0 b0 Hbuf eq_refl).
    rewrite (load8_app_at buf base a [b0; b1; b2; b3] c 1 b1 Hbuf eq_refl).
    rewrite (load8_app_at buf base a [b0; b1; b2; b3] c 2 b2 Hbuf eq_refl).
    rewrite (load8_app_at buf base a [b0; b1; b2; b3] c 3 b3 Hbuf eq_refl).
    cbn [obind uint32_of_bytes]. f_equal. exact Hval.
  - rewrite (load8_app_at buf base a [b3; b2; b1; b0] c 0 b3 Hbuf eq_refl).
    rewrite (load8_app_at buf base a [b3; b2; b1; b0] c 1 b2 Hbuf eq_refl).
    rewrite (load8_app_at buf base a [b3; b2; b1; b0] c 2 b1 Hbuf eq_refl).
    rewrite (load8_app_at buf base a [b3; b2; b1; b0] c 3 b0 Hbuf eq_refl).
    cbn [obind uint32_of_bytes]. f_equal. exact Hval.
Qed.

Lemma load32_inside host buf base (p : Z) :
  0 <= p - base -> p - base + 4 <= buf_len buf ->
  exists w, load32 host buf base p = Done w.
Proof.
  intros Hlo Hhi. unfold load32.
  destruct (load8_inside buf base p) as [b0 H0]; [lia | ].
  destruct (load8_inside buf base (p + 1)) as [b1 H1]; [lia | ].
  destruct (load8_inside buf base (p + 2)) as [b2 H2]; [lia | ].
  destruct (load8_inside buf base (p + 3)) as [b3 H3]; [lia | ].
  rewrite H0, H1, H2, H3. eexists. reflexivity.
Qed.

(** The string of an entry, read in the buffer at the place of the table. *)
Lemma scan_at_strtab buf base (a strtab c : list ascii) (strtabp strx : Z) (sym : string) :
  buf = (a ++ strtab ++ c)%list ->
  strtabp - base = Z.of_nat (List.length a) ->
  0 <= strx ->
  symbol_at strtab strx = Some sym ->
  scan_at buf base scan_cstring (strtabp + strx) = Done sym.
Proof.
  intros -> Hp Hx Hsym. unfold symbol_at in Hsym.
  assert (Hlt : (Z.to_nat strx < List.length strtab)%nat).
  { destruct (Nat.lt_ge_cases (Z.to_nat strx) (List.length strtab)) as [H | H];
      [exact H | ].
    rewrite skipn_all2 in Hsym by exact H. discriminate. }
  unfold scan_at, tail_from, buf_len. rewrite !length_app.
  replace ((0 <=? strtabp + strx - base)
           && (strtabp + strx - base
               <=? Z.of_nat (List.length a + (List.length strtab + List.length c))))
    with true by (symmetry; apply andb_true_iff; split; apply Z.leb_le; lia).
  cbn [obind].
  replace (Z.to_nat (strtabp + strx - base))
    with (List.length a + Z.to_nat strx)%nat by lia.
  rewrite skipn_app.
  rewrite skipn_all2 by lia. cbn [app].
  replace (List.length a + Z.to_nat strx - List.length a)%nat
    with (Z.to_nat strx) by lia.
  rewrite skipn_app.
  replace (Z.to_nat strx - List.length strtab)%nat with 0%nat by lia.
  rewrite skipn_0. rewrite (scan_cstring_app _ c sym Hsym). reflexivity.
Qed.

Lemma encode_ranlibs_length host (es : list ranlib) :
  Z.of_nat (List.length (List.concat (map (encode_ranlib host) es)))
  = sizeof_ranlib * Z.of_nat (List.length es).
Proof.
  induction es as [ | e es IH]; cbn [map List.concat List.length]; [reflexivity | ].
  rewrite length_app. unfold encode_ranlib at 1. rewrite length_app, !enc32_length.
  unfold sizeof_ranlib in *. lia.
Qed.

(** The loop of the decoder over the entries of a well-formed array that
    lies at [ranlib], with the string table at [strtabp]: one line per
    entry, in the order of the array. *)
Lemma dump_symdefs_loop_entries host v buf base file_start (strtab : list ascii)
    (strtabp : Z) (a0 c0 : list ascii) :
  buf = (a0 ++ strtab ++ c0)%list ->
  strtabp - base = Z.of_nat (List.length a0) ->
  forall (es : list ranlib) (a c : list ascii) (ranlib : Z),
    buf = (a ++ List.concat (map (encode_ranlib host) es) ++ c)%list ->
    ranlib - base = Z.of_nat (List.length a) ->
    Forall (entry_ok buf base file_start strtab) es ->
    dump_symdefs_loop host v buf base (List.length es) ranlib strtabp file_start
    = (map (fun e => Stdout (entry_line v buf base file_start strtab e)) es, Done tt).
Proof.
  intros Htab Htabp. induction es as [ | e es IH]; intros a c ranlib Hbuf Hp Hok;
    cbn [List.length dump_symdefs_loop map]; [reflexivity | ].
  pose proof (Forall_inv Hok) as (Hstrx & Hoff & Hsym & Hname).
  pose proof (Forall_inv_tail Hok) as Hok'.
  cbn [map List.concat] in Hbuf. unfold encode_ranlib at 1 in Hbuf.
  rewrite <- !app_assoc in Hbuf.
  assert (Hl_off : load32 host buf base (ranlib + off_ran_off) = Done (ran_off e)).
  { apply (load32_enc32 host buf base (a ++ enc32 host (ran_strx e))
             (List.concat (map (encode_ranlib host) es) ++ c)).
    - rewrite Hbuf, <- !app_assoc. reflexivity.
    - rewrite length_app, enc32_length. unfold off_ran_off. lia.
    - exact Hoff. }
  assert (Hl_strx : load32 host buf base (ranlib + off_ran_strx) = Done (ran_strx e)).
  { apply (load32_enc32 host buf base a
             (enc32 host (ran_off e) ++ List.concat (map (encode_ranlib host) es) ++ c)).
    - exact Hbuf.
    - unfold off_ran_strx. lia.
    - exact Hstrx. }
  destruct (symbol_at strtab (ran_strx e)) as [sym | ] eqn:Esym; [ | contradiction].
  pose proof (scan_at_strtab buf base a0 strtab c0 strtabp (ran_strx e) sym
                Htab Htabp ltac:(lia) Esym) as Hscan.
  unfold entry_line at 1. rewrite Esym. cbn [or_empty].
  unfold owner_name in Hname |- *.
  destruct (arobj_name buf base (file_start + ran_off e))
    as [[[is_bsd name] name_len] | | | ] eqn:Eres; try contradiction.
  destruct (memcpy buf base name name_len) as [name_zero | | | ] eqn:Ecpy;
    try contradiction.
  cbn [or_empty].
  rewrite (rbind_lift_Done _ _ _ Hl_off).
  rewrite (rbind_lift_Done _ _ _ Eres).
  rewrite (rbind_lift_Done _ _ _ Ecpy).
  rewrite (rbind_lift_Done _ _ _ Hl_strx).
  rewrite (rbind_lift_Done _ _ _ Hscan).
  rewrite (IH (a ++ encode_ranlib host e)%list c (ranlib + sizeof_ranlib)).
  - destruct v; reflexivity.
  - rewrite Hbuf. unfold encode_ranlib. rewrite <- !app_assoc. reflexivity.
  - unfold encode_ranlib. rewrite !length_app, !enc32_length.
    unfold sizeof_ranlib. lia.
  - exact Hok'.
Qed.

(** The decoder on a well-formed index payload placed after [pre]. *)
Lemma dump_symdefs_well_formed_index :
  forall host v buf base header offset file_start pre es strtab post,
    buf = (pre ++ encode_index host es strtab ++ post)%list ->
    header + sizeof_ar_hdr + size_t_displacement offset - base = Z.of_nat (List.length pre) ->
    sizeof_ranlib * Z.of_nat (List.length es) < 2 ^ 32 ->
    Forall (entry_ok buf base file_start strtab) es ->
    dump_symdefs host v buf base header offset file_start
    = ((Enters_dump_symdefs (header - file_start) offset
        :: (if v then
              [Stdout (string_of_Z (Z.of_nat (List.length es)) ++ " ranlibs" ++ nl)]
            else [])
        ++ map (fun e => Stdout (entry_line v buf base file_start strtab e)) es)%list,
       Done tt).
Proof.
  intros host v buf base header offset file_start pre es strtab post
         Hbuf Hdata Hlen Hok.
  unfold encode_index in Hbuf.
  set (n := Z.of_nat (List.length es)) in *.
  set (data := header + sizeof_ar_hdr + size_t_displacement offset) in *.
  pose proof (encode_ranlibs_length host es) as Harr. fold n in Harr.
  assert (H1 : load32 host buf base data = Done (sizeof_ranlib * n)).
  { apply (load32_enc32 host buf base pre
             (List.concat (map (encode_ranlib host) es)
              ++ enc32 host (Z.of_nat (List.length strtab)) ++ strtab ++ post)).
    - rewrite Hbuf, <- !app_assoc. reflexivity.
    - exact Hdata.
    - unfold sizeof_ranlib in *. lia. }
  assert (Hcount : sizeof_ranlib * n / sizeof_ranlib = n).
  { unfold sizeof_ranlib. rewrite Z.mul_comm. apply Z.div_mul. lia. }
  assert (Hbuflen : buf_len buf
                    = Z.of_nat (List.length pre) + 4 + sizeof_ranlib * n + 4
                      + Z.of_nat (List.length strtab) + Z.of_nat (List.length post)).
  { unfold buf_len. rewrite Hbuf, !length_app, !enc32_length. lia. }
  destruct (load32_inside host buf base (data + (sizeof_ranlib * n + sizeof_uint32)))
    as [strtab_len H2].
  { unfold sizeof_ranlib, sizeof_uint32 in *. lia. }
  { unfold sizeof_ranlib, sizeof_uint32 in *. lia. }
  pose proof (dump_symdefs_loop_entries host v buf base file_start strtab
                (data + (sizeof_ranlib * n + sizeof_uint32) + sizeof_uint32)
                (pre ++ enc32 host (sizeof_ranlib * n)
                 ++ List.concat (map (encode_ranlib host) es)
                 ++ enc32 host (Z.of_nat (List.length strtab)))
                post) as Hloop.
  specialize (Hloop ltac:(rewrite Hbuf, <- !app_assoc; reflexivity)).
  specialize (Hloop ltac:(rewrite !length_app, !enc32_length;
                          unfold sizeof_ranlib, sizeof_uint32 in *; lia)).
  specialize (Hloop es (pre ++ enc32 host (sizeof_ranlib * n))%list
                (enc32 host (Z.of_nat (List.length strtab)) ++ strtab ++ post)%list
                (data + sizeof_uint32)).
  specialize (Hloop ltac:(rewrite Hbuf, <- !app_assoc; reflexivity)).
  specialize (Hloop ltac:(rewrite length_app, enc32_length;
                          unfold sizeof_uint32; lia)).
  specialize (Hloop Hok).
  unfold dump_symdefs. fold data.
  rewrite (rbind_lift_Done _ _ _ H1). rewrite Hcount.
  rewrite (rbind_lift_Done _ _ _ H2).
  unfold n at 2. rewrite Nat2Z.id. rewrite Hloop.
  destruct v; reflexivity.
Qed.

(** X20.  On an index payload that is well formed (the array length, the
    entries, the length of the string table and the table, written in the
    byte order of the host), whose entries name strings of the table and
    members that can be resolved, the decoder returns and prints the line of
    each entry, in the order of the array, after the count line when
    [g_verbose] is set. *)
Theorem dump_symdefs_decodes_a_well_formed_index :
  forall host v buf base header offset file_start pre es strtab post,
    buf = (pre ++ encode_index host es strtab ++ post)%list ->
    header + sizeof_ar_hdr + size_t_displacement offset - base = Z.of_nat (List.length pre) ->
    sizeof_ranlib * Z.of_nat (List.length es) < 2 ^ 32 ->
    Forall (entry_ok buf base file_start strtab) es ->
    dump_symdefs host v buf base header offset file_start
    = ((Enters_dump_symdefs (header - file_start) offset
        :: (if v then
              [Stdout (string_of_Z (Z.of_nat (List.length es)) ++ " ranlibs" ++ nl)]
            else [])
        ++ map (fun e => Stdout (entry_line v buf base file_start strtab e)) es)%list,
       Done tt).
Proof. exact dump_symdefs_well_formed_index. Qed.

Lemma dump_symdefs_decodes_a_well_formed_index_witness :
  dump_symdefs LittleEndian false indexed_archive 0 8 20 0
  = ((Enters_dump_symdefs (8 - 0) 20
      :: (if false then
            [Stdout (string_of_Z (Z.of_nat (List.length [{| ran_strx := 0; ran_off := 112 |}]))
                     ++ " ranlibs" ++ nl)]
          else [])
      ++ map (fun e => Stdout (entry_line false indexed_archive 0 0
                                 (bytes "_foo" ++ zeros 4) e))
           [{| ran_strx := 0; ran_off := 112 |}])%list,
     Done tt).
Proof.
  apply (dump_symdefs_decodes_a_well_formed_index LittleEndian false indexed_archive
           0 8 20 0 (firstn 88 indexed_archive)
           [{| ran_strx := 0; ran_off := 112 |}] (bytes "_foo" ++ zeros 4)
           (skipn 112 indexed_archive)).
  - vm_compute. reflexivity.
  - vm_compute. reflexivity.
  - vm_compute. reflexivity.
  - repeat constructor; try (vm_compute; discriminate).
Defined.

(** The line printed for the entry of [indexed_archive]. *)
Example indexed_archive_line :
  entry_line false indexed_archive 0 0 (bytes "_foo" ++ zeros 4)
    {| ran_strx := 0; ran_off := 112 |}
  = "_foo foo.o           " ++ nl.
Proof. vm_compute. reflexivity. Qed.

(** ** An archive with its symbol index *)

Lemma is_symdef_name_SYMDEF_SORTED buf base (name : Z) :
  memcpy buf base name 16 = Done (bytes SYMDEF_SORTED) ->
  is_symdef_name buf base name 16 = Done true.
Proof.
  intros Hl. unfold is_symdef_name.
  destruct (strncmp_spec buf base SYMDEF no_nul_SYMDEF name 16 _ ltac:(lia) Hl)
    as (r1 & Hr1 & Hiff1).
  destruct (strncmp_spec buf base SYMDEF_SORTED no_nul_SYMDEF_SORTED name 16 _
              ltac:(lia) Hl) as (r2 & Hr2 & Hiff2).
  rewrite Hr1. cbn [obind].
  destruct (r1 =? 0); [reflexivity | ].
  rewrite Hr2. cbn [obind].
  assert (Hr20 : r2 = 0) by (apply Hiff2; reflexivity).
  rewrite Hr20. reflexivity.
Qed.

(** One turn of the loop on an index member, whatever comes before and after
    it in the buffer: the decoder prints the line of each entry, and
    [contents] moves to the end of the member. *)
Lemma dump_member_index_member host base file_start (pre post : list ascii)
    (m : member) (es : list ranlib) (strtab : list ascii) :
  index_member host m es strtab ->
  sizeof_ranlib * Z.of_nat (List.length es) < 2 ^ 32 ->
  Forall (entry_ok (pre ++ encode_member m ++ post) base file_start strtab) es ->
  dump_member host false (pre ++ encode_member m ++ post) base
    (base + Z.of_nat (List.length pre)) file_start
  = (Enters_dump_symdefs (base + Z.of_nat (List.length pre) - file_start) 0
     :: map (fun e => Stdout (entry_line false (pre ++ encode_member m ++ post) base
                                file_start strtab e)) es,
     Done (base + Z.of_nat (List.length (pre ++ encode_member m)))).
Proof.
  intros (Hname & Hmid & Hne & Hds & Hpad & Hsize & Hfmag & Hpay & Hdec) Hlen Hok.
  set (buf := (pre ++ encode_member m ++ post)%list) in *.
  set (h := base + Z.of_nat (List.length pre)).
  assert (Hname_len : List.length (m_name m) = 16%nat) by (rewrite Hname; reflexivity).
  assert (Hmlen : Z.of_nat (List.length (encode_member m))
                  = sizeof_ar_hdr + Z.of_nat (List.length (m_payload m))).
  { unfold encode_member.
    rewrite length_app, Hname_len, length_app, Hmid.
    rewrite (app_assoc (m_digits m)), length_app, Hsize, length_app, Hfmag.
    unfold sizeof_ar_hdr. lia. }
  assert (Hbuf : buf_len buf
                 = Z.of_nat (List.length pre)
                   + Z.of_nat (List.length (encode_member m))
                   + Z.of_nat (List.length post)).
  { unfold buf_len, buf. rewrite !length_app. lia. }
  assert (Hbytes : forall (k : nat) (x : ascii),
            nth_error (bytes SYMDEF_SORTED) k = Some x ->
            load8 buf base (h + Z.of_nat k) = Done x).
  { intros k x Hk.
    replace (h + Z.of_nat k) with (base + Z.of_nat (List.length pre + k))
      by (unfold h; lia).
    apply (load8_app_at buf base pre (m_name m)
             (m_middle m ++ m_digits m ++ m_pad m ++ m_fmag m ++ m_payload m ++ post)).
    - unfold buf, encode_member. rewrite <- !app_assoc. reflexivity.
    - rewrite Hname. exact Hk. }
  assert (Hdirect : ~ begins_with_marker buf base h).
  { intros (H & _). pose proof (Hbytes 0%nat "_"%char eq_refl) as H0.
    rewrite Z.add_0_r in H0. rewrite H0 in H. discriminate. }
  destruct (arobj_name_direct_inside buf base h) as (len & Hres & Hrange & Hat);
    [unfold h; lia | unfold h; lia | exact Hdirect | ].
  assert (Hfull : len = 16).
  { unfold sizeof_ar_name in *.
    destruct (Z_lt_le_dec len 16) as [Hlt | ]; [exfalso | lia].
    destruct (Hat Hlt) as (c & Hc & Hnul).
    destruct (nth_error (bytes SYMDEF_SORTED) (Z.to_nat len)) as [x | ] eqn:Hx.
    - pose proof (Hbytes _ x Hx) as Hload. unfold off_ar_name in Hc.
      rewrite Z.add_0_r in Hc. rewrite Z2Nat.id in Hload by lia.
      rewrite Hload in Hc. injection Hc as <-.
      pose proof no_nul_SYMDEF_SORTED as Hnn. unfold no_nul in Hnn.
      rewrite Forall_forall in Hnn. apply nth_error_In in Hx.
      rewrite (Hnn x Hx) in Hnul. discriminate.
    - apply nth_error_None in Hx. change (List.length (bytes SYMDEF_SORTED)) with 16%nat in Hx.
      lia. }
  subst len.
  assert (Hcopy : memcpy buf base (h + off_ar_name) 16 = Done (bytes SYMDEF_SORTED)).
  { rewrite <- Hname.
    apply (memcpy_app buf base pre (m_name m)
             (m_middle m ++ m_digits m ++ m_pad m ++ m_fmag m ++ m_payload m ++ post)).
    - unfold buf, encode_member. rewrite <- !app_assoc. reflexivity.
    - unfold h, off_ar_name. lia.
    - rewrite Hname_len. reflexivity. }
  pose proof (is_symdef_name_SYMDEF_SORTED buf base _ Hcopy) as Hidx.
  assert (Hdump : dump_symdefs host false buf base h 0 file_start
                  = (Enters_dump_symdefs (h - file_start) 0
                     :: map (fun e => Stdout (entry_line false buf base file_start strtab e)) es,
                     Done tt)).
  { apply (dump_symdefs_well_formed_index host false buf base h 0 file_start
             (pre ++ m_name m ++ m_middle m ++ m_digits m ++ m_pad m ++ m_fmag m)
             es strtab post).
    - unfold buf, encode_member. rewrite Hpay, <- !app_assoc. reflexivity.
    - rewrite !length_app, Hname_len, Hmid, Hfmag.
      rewrite length_app in Hsize.
      change (size_t_displacement 0) with 0.
      unfold h, sizeof_ar_hdr. lia.
    - exact Hlen.
    - exact Hok. }
  assert (Hfield : memcpy buf base (h + off_ar_size) sizeof_ar_size
                   = Done (m_digits m ++ m_pad m)%list).
  { apply (memcpy_app buf base (pre ++ m_name m ++ m_middle m)
             (m_digits m ++ m_pad m) (m_fmag m ++ m_payload m ++ post)).
    - unfold buf, encode_member. rewrite <- !app_assoc. reflexivity.
    - rewrite !length_app, Hname_len, Hmid. unfold h, off_ar_size. lia.
    - rewrite Hsize. reflexivity. }
  assert (Hsz : arobj_size buf base h = Done (decimal (m_digits m) + sizeof_ar_hdr)).
  { unfold arobj_size. rewrite Hfield. cbn [obind].
    rewrite strtoll_local_digits; auto.
    rewrite length_app in Hsize. lia. }
  unfold dump_member. rewrite rbind_ret.
  rewrite (rbind_lift_Done _ _ _ Hres).
  rewrite (rbind_lift_Done _ _ _ Hidx).
  rewrite Hdump.
  unfold rbind at 1. rewrite (rbind_lift_Done _ _ _ Hsz).
  unfold ret. rewrite app_nil_r. do 2 f_equal.
  rewrite length_app. unfold h. lia.
Qed.

(** X21.  An archive that opens with its symbol index, under the name
    [__.SYMDEF SORTED], followed by well-formed members: without
    [g_verbose] the scan prints the line of each entry of the index, in
    order, and nothing else, and returns at the end of the buffer. *)
Theorem scan_prints_the_index_of_an_archive :
  forall host idx es strtab ms base fuel,
    index_member host idx es strtab ->
    Forall plain_named ms ->
    sizeof_ranlib * Z.of_nat (List.length es) < 2 ^ 32 ->
    Forall (entry_ok (archive_of (idx :: ms)) base base strtab) es ->
    (List.length ms < fuel)%nat ->
    scan host false (archive_of (idx :: ms)) base fuel
    = (Enters_dump_symdefs 8 0
       :: map (fun e => Stdout (entry_line false (archive_of (idx :: ms)) base base
                                  strtab e)) es,
       Done tt).
Proof.
  intros host idx es strtab ms base fuel Hidx Hms Hlen Hok Hfuel.
  unfold scan, dump. unfold archive_of in *. cbn [map List.concat] in *.
  set (buf := (bytes ARMAG ++ encode_member idx
               ++ List.concat (map encode_member ms))%list) in *.
  destruct (strncmp_ARMAG buf base) as (r & Hr & Hiff).
  { unfold buf_len, SARMAG, buf. rewrite length_app.
    change (List.length (bytes ARMAG)) with 8%nat. lia. }
  assert (Hr0 : r = 0) by (apply Hiff; reflexivity). subst r.
  rewrite (rbind_lift_Done _ _ _ Hr). change (negb (0 =? 0)) with false. cbv iota.
  rewrite rbind_ret.
  destruct fuel as [ | fuel]; [lia | ].
  pose proof (dump_member_index_member host base base (bytes ARMAG)
                (List.concat (map encode_member ms)) idx es strtab Hidx Hlen Hok)
    as Hturn.
  fold buf in Hturn.
  change (Z.of_nat (List.length (bytes ARMAG))) with 8 in Hturn.
  assert (Hminlen : 8 + sizeof_ar_hdr <= buf_len buf).
  { destruct Hidx as (Hname & Hmid & _ & _ & _ & Hsize & Hfmag & _).
    unfold buf_len, buf, encode_member.
    rewrite !length_app, Hname, Hmid.
    rewrite length_app in Hsize.
    change (List.length (bytes ARMAG)) with 8%nat.
    change (List.length (bytes SYMDEF_SORTED)) with 16%nat.
    unfold sizeof_ar_hdr. lia. }
  cbn [dump_loop]. unfold SARMAG.
  replace (base + 8 <? base + buf_len buf) with true
    by (symmetry; apply Z.ltb_lt; unfold sizeof_ar_hdr in Hminlen; lia).
  rewrite Hturn. replace (base + 8 - base) with 8 by lia.
  unfold rbind at 1.
  replace fuel with (List.length ms + (fuel - List.length ms))%nat by lia.
  pose proof (dump_loop_plain_named host base base ms Hms
                (bytes ARMAG ++ encode_member idx) [] (fuel - List.length ms)%nat)
    as Hwalk.
  rewrite !app_nil_r, <- !app_assoc in Hwalk. fold buf in Hwalk.
  rewrite Hwalk. unfold buf_len.
  destruct (fuel - List.length ms)%nat; cbn [dump_loop];
    rewrite Z.ltb_irrefl; unfold ret; cbv beta iota; rewrite app_nil_r;
    reflexivity.
Qed.

Lemma scan_prints_the_index_of_an_archive_witness :
  scan LittleEndian false (archive_of [foo_index; hello_member]) 0 2
  = (Enters_dump_symdefs 8 0
     :: map (fun e => Stdout (entry_line false (archive_of [foo_index; hello_member])
                                0 0 (bytes "_foo" ++ zeros 4) e))
          [{| ran_strx := 0; ran_off := 92 |}],
     Done tt).
Proof.
  apply (scan_prints_the_index_of_an_archive LittleEndian foo_index
           [{| ran_strx := 0; ran_off := 92 |}] (bytes "_foo" ++ zeros 4)
           [hello_member] 0 2).
  - repeat split; try reflexivity; try discriminate.
    + repeat constructor.
    + intros c pad' [= <- _]. reflexivity.
  - repeat constructor; try reflexivity; try discriminate.
    + exists "h"%char, (list_ascii_of_string "ello.o         ").
      repeat split; try reflexivity; discriminate.
    + intros c pad' [= <- _]. reflexivity.
  - vm_compute. reflexivity.
  - repeat constructor; try (vm_compute; discriminate).
  - repeat constructor.
Defined.

(** What that scan writes. *)
Example foo_index_archive_output :
  stdout_of (fst (scan LittleEndian false (archive_of [foo_index; hello_member]) 0 2))
  = "_foo hello.o         " ++ nl.
Proof. vm_compute. reflexivity. Qed.

(** ** Listing a well-formed archive *)

Lemma dump_obj_direct_returns buf base (header : Z) :
  0 <= header - base ->
  header - base + sizeof_ar_hdr <= buf_len buf ->
  ~ begins_with_marker buf base header ->
  memcpy buf base (header + off_ar_fmag) sizeof_ar_fmag = Done (bytes ARFMAG) ->
  snd (dump_obj buf base header) = Done tt.
Proof.
  intros Hlo Hhi Hdirect Hfmag.
  destruct (arobj_name_direct_inside buf base header Hlo Hhi Hdirect)
    as (len & Hname & Hlen & _).
  unfold sizeof_ar_hdr in Hhi. unfold sizeof_ar_name in Hlen.
  destruct (memcpy_inside buf base (header + off_ar_name) (to_int len)) as [l Hl].
  { unfold off_ar_name; lia. }
  { rewrite to_int_small; unfold INT_MAX; lia. }
  { rewrite to_int_small; unfold INT_MAX, off_ar_name; lia. }
  destruct (strncmp_spec buf base ARFMAG no_nul_ARFMAG (header + off_ar_fmag) 2 _
              ltac:(lia) Hfmag) as (r & Hr & Hiff).
  assert (Hr0 : r = 0) by (apply Hiff; reflexivity). subst r.
  unfold dump_obj. rewrite (rbind_lift_Done _ _ _ Hname).
  rewrite !snd_rbind.
  rewrite (printn_returns buf base _ _ l Hl).
  rewrite !mprintn_returns
    by (unfold off_ar_date, off_ar_uid, off_ar_gid, off_ar_mode, off_ar_size,
          off_ar_fmag, sizeof_ar_date, sizeof_ar_uid, sizeof_ar_gid,
          sizeof_ar_mode, sizeof_ar_size, sizeof_ar_fmag; lia).
  unfold lift. cbn [snd printf ret obind]. rewrite Hr. reflexivity.
Qed.

Lemma dump_member_verbose_plain_header host base file_start (pre post : list ascii)
    (m : member) :
  plain_header m ->
  m_fmag m = bytes ARFMAG ->
  snd (dump_member host true (pre ++ encode_member m ++ post) base
         (base + Z.of_nat (List.length pre)) file_start)
  = Done (base + Z.of_nat (List.length pre)
          + (sizeof_ar_hdr + decimal (m_digits m))).
Proof.
  intros Hm Hfmag.
  pose proof (dump_member_tail_plain_header host true base file_start pre post m Hm)
    as Htail.
  pose proof (encode_member_length m Hm) as Hlen.
  unfold dump_member. rewrite snd_rbind, Htail.
  assert (Hobj : snd (dump_obj (pre ++ encode_member m ++ post) base
                        (base + Z.of_nat (List.length pre))) = Done tt).
  { destruct Hm as (Hname & (c & rest & Hc & Hnul & Hhash & Hunder) & Hmid & _
                    & _ & _ & Hsize & Hf2).
    apply dump_obj_direct_returns.
    - lia.
    - unfold buf_len. rewrite !length_app. unfold sizeof_ar_hdr in *. lia.
    - intros (H & _).
      rewrite (load8_app _ base pre (rest ++ m_middle m ++ m_digits m ++ m_pad m
                                     ++ m_fmag m ++ m_payload m ++ post) c) in H.
      + injection H as ->. contradiction.
      + unfold encode_member. rewrite Hc, <- !app_assoc. reflexivity.
    - rewrite <- Hfmag.
      apply (memcpy_app _ base (pre ++ m_name m ++ m_middle m ++ m_digits m ++ m_pad m)
               (m_fmag m) (m_payload m ++ post)).
      + unfold encode_member. rewrite <- !app_assoc. reflexivity.
      + rewrite !length_app, Hname, Hmid. rewrite length_app in Hsize.
        unfold off_ar_fmag. lia.
      + rewrite Hf2. reflexivity. }
  rewrite Hobj. reflexivity.
Qed.

Lemma dump_loop_verbose_plain_named host base file_start (ms : list member) :
  Forall plain_named ms ->
  Forall (fun m => m_fmag m = bytes ARFMAG) ms ->
  forall (pre post : list ascii) (fuel : nat),
    snd (dump_loop host true (pre ++ List.concat (map encode_member ms) ++ post) base
           (List.length ms + fuel)
           (base + Z.of_nat (List.length pre))
           (base + buf_len (pre ++ List.concat (map encode_member ms) ++ post))
           file_start)
    = snd (dump_loop host true (pre ++ List.concat (map encode_member ms) ++ post) base
             fuel
             (base + Z.of_nat (List.length (pre ++ List.concat (map encode_member ms))))
             (base + buf_len (pre ++ List.concat (map encode_member ms) ++ post))
             file_start).
Proof.
  induction 1 as [ | m ms Hm Hms IH]; intros Hfmags pre post fuel.
  - cbn [map List.concat List.length Nat.add app]. rewrite app_nil_r. reflexivity.
  - pose proof (Forall_inv Hfmags) as Hfmag. pose proof (Forall_inv_tail Hfmags) as Hfmags'.
    cbn [map List.concat List.length Nat.add dump_loop].
    pose proof (encode_member_length m (plain_named_header m Hm)) as Hlen.
    rewrite <- !app_assoc.
    replace (base + Z.of_nat (List.length pre)
             <? base + buf_len (pre ++ encode_member m
                                ++ List.concat (map encode_member ms) ++ post))
      with true
      by (symmetry; apply Z.ltb_lt; unfold buf_len; rewrite !length_app;
          unfold sizeof_ar_hdr in Hlen; lia).
    rewrite snd_rbind.
    rewrite (dump_member_verbose_plain_header host base file_start pre _ m
               (plain_named_header m Hm) Hfmag).
    cbn [obind].
    specialize (IH Hfmags' (pre ++ encode_member m)%list post fuel).
    rewrite <- !app_assoc in IH.
    replace (base + Z.of_nat (List.length pre)
             + (sizeof_ar_hdr + decimal (m_digits m)))
      with (base + Z.of_nat (List.length (pre ++ encode_member m))).
    + exact IH.
    + destruct Hm as (_ & _ & _ & _ & _ & _ & _ & _ & Hdec).
      rewrite length_app, Hdec. lia.
Qed.

(** X22.  With [g_verbose], an archive of well-formed members whose names
    are direct and whose terminators are all [ARFMAG] is listed to its end:
    the scan returns, with no diagnostic and no read outside of the
    buffer. *)
Theorem verbose_scan_lists_a_well_formed_archive :
  forall host ms base fuel,
    Forall plain_named ms ->
    Forall (fun m => m_fmag m = bytes ARFMAG) ms ->
    (List.length ms <= fuel)%nat ->
    snd (scan host true (archive_of ms) base fuel) = Done tt.
Proof.
  intros host ms base fuel Hms Hfmags Hfuel. unfold scan, dump, archive_of.
  destruct (strncmp_ARMAG (bytes ARMAG ++ List.concat (map encode_member ms)) base)
    as (r & Hr & Hiff).
  { unfold buf_len, SARMAG. rewrite length_app.
    change (List.length (bytes ARMAG)) with 8%nat. lia. }
  assert (Hr0 : r = 0) by (apply Hiff; reflexivity). subst r.
  rewrite (rbind_lift_Done _ _ _ Hr). change (negb (0 =? 0)) with false. cbv iota.
  rewrite rbind_ret.
  replace fuel with (List.length ms + (fuel - List.length ms))%nat by lia.
  pose proof (dump_loop_verbose_plain_named host base base ms Hms Hfmags
                (bytes ARMAG) [] (fuel - List.length ms)%nat) as Hwalk.
  rewrite !app_nil_r in Hwalk. unfold SARMAG.
  change (Z.of_nat (List.length (bytes ARMAG))) with 8 in Hwalk.
  rewrite Hwalk. unfold buf_len.
  destruct (fuel - List.length ms)%nat; cbn [dump_loop];
    rewrite Z.ltb_irrefl; reflexivity.
Qed.

Lemma verbose_scan_lists_a_well_formed_archive_witness :
  snd (scan LittleEndian true (archive_of [hello_member; hello_member]) 0 2) = Done tt.
Proof.
  apply (verbose_scan_lists_a_well_formed_archive LittleEndian
           [hello_member; hello_member] 0 2).
  - repeat constructor; try reflexivity; try discriminate.
    + exists "h"%char, (list_ascii_of_string "ello.o         ").
      repeat split; try reflexivity; discriminate.
    + intros c pad' [= <- _]. reflexivity.
    + exists "h"%char, (list_ascii_of_string "ello.o         ").
      repeat split; try reflexivity; discriminate.
    + intros c pad' [= <- _]. reflexivity.
  - repeat constructor.
  - repeat constructor.
Defined.
